(** * goreactor: the dispatch and lifecycle engine, embedded in Rocq

    A shallow embedding of three source files of the repository:

    - [lib/reactorlog.go]  (module [Lib]):  the structured reactor log;
    - [inputs/sqs/pool.go] (module [Sqs]):  the queue dispatcher with its
      pending-reference tracker;
    - the HTTP health endpoint (module [Http]).

    Module [Go] holds the few pieces of the Go runtime and standard library
    the three files lean on (fixed-width integers, [time], [strconv],
    [strings]).

    Conventions.  A Go [string] is a Rocq [string] (a sequence of 8-bit
    characters), a [[]byte] is a [list byte].  Fixed-width integers are [Z]
    with the wrap-around written out.  A method with a pointer receiver is a
    function from the receiver's value to its new value; what a method does
    to the outside world (records handed to the log stream, calls of the
    queue client, goroutines it launches) is returned as a list of events, in
    program order.  Calls of [log.Printf] are left out. *)

From Stdlib Require Import ZArith Lia List String Ascii Bool.
From Stdlib.Strings Require Import Byte.
From stdpp Require Import gmap strings list.
Import ListNotations.

Local Open Scope Z_scope.

(* ===================================================================== *)
(** * Go runtime and standard library *)
(* ===================================================================== *)

Module Go.

(** ** Fixed-width integers *)

(** Two's complement wrap-around of a 64-bit signed integer ([int64], and
    [int] on the 64-bit platforms the program is built for). *)
Definition int64_wrap (z : Z) : Z := (z + 2 ^ 63) mod 2 ^ 64 - 2 ^ 63.

(** Wrap-around of a [uint64]. *)
Definition uint64_wrap (z : Z) : Z := z mod 2 ^ 64.

Definition maxInt64 : Z := 2 ^ 63 - 1.
Definition minInt64 : Z := - 2 ^ 63.

(** ** Package time *)

(** A [time.Duration] is an [int64] count of nanoseconds. *)
Definition Nanosecond : Z := 1.
Definition Second : Z := 1000000000.
Definition maxDuration : Z := maxInt64.
Definition minDuration : Z := minInt64.

(** A [time.Time] is modelled by the instant it denotes, in nanoseconds since
    January 1, year 1, 00:00:00 UTC, which is the zero [Time]. *)
Definition zeroTime : Z := 0.

Definition IsZero (t : Z) : bool := t =? 0.

(** [t.Sub(u)]: the duration [t-u], saturated at the largest and smallest
    [Duration]. *)
Definition Sub (t u : Z) : Z :=
  if maxDuration <? t - u then maxDuration
  else if t - u <? minDuration then minDuration
  else t - u.

(** [time.Since(t)] is [time.Now().Sub(t)]; the clock reading is a parameter. *)
Definition Since (now t : Z) : Z := Sub now t.

(** Seconds between year 1 and the Unix epoch. *)
Definition unixToInternal : Z := 62135596800.

(** [t.Unix()]. *)
Definition Unix (t : Z) : Z := t / Second - unixToInternal.

(** ** Package strconv *)

Inductive NumError := ErrSyntax | ErrRange.

Definition digit (a : ascii) : option Z :=
  let n := Z.of_nat (nat_of_ascii a) in
  if (48 <=? n) && (n <=? 57) then Some (n - 48) else None.

Fixpoint digits (s : string) (acc : Z) : option Z :=
  match s with
  | EmptyString => Some acc
  | String a s' =>
      match digit a with
      | Some d => digits s' (acc * 10 + d)
      | None => None
      end
  end.

(** [strconv.ParseInt(s, 10, 64)]: an optional sign, then decimal digits.  A
    syntax error gives 0, a value out of range gives the nearest bound; both
    come with an error. *)
Definition ParseInt (s : string) : Z * option NumError :=
  let '(neg, body) :=
    match s with
    | String "-"%char r => (true, r)
    | String "+"%char r => (false, r)
    | _ => (false, s)
    end in
  match body with
  | EmptyString => (0, Some ErrSyntax)
  | _ =>
      match digits body 0 with
      | None => (0, Some ErrSyntax)
      | Some n =>
          let v := if neg then - n else n in
          if maxInt64 <? v then (maxInt64, Some ErrRange)
          else if v <? minInt64 then (minInt64, Some ErrRange)
          else (v, None)
      end
  end.

(** [strconv.Atoi(s)], with a 64-bit [int]. *)
Definition Atoi (s : string) : Z * option NumError := ParseInt s.

(** ** Package strings *)

(** What is left of [s] after its prefix [prefix], when it has that prefix. *)
Fixpoint strip_prefix (prefix s : string) : option string :=
  match prefix with
  | EmptyString => Some s
  | String a prefix' =>
      match s with
      | EmptyString => None
      | String b s' => if Ascii.eqb a b then strip_prefix prefix' s' else None
      end
  end.

(** [strings.HasPrefix]. *)
Definition HasPrefix (s prefix : string) : bool :=
  match strip_prefix prefix s with
  | Some _ => true
  | None => false
  end.

(** [strings.TrimPrefix]. *)
Definition TrimPrefix (s prefix : string) : string :=
  match strip_prefix prefix s with
  | Some rest => rest
  | None => s
  end.

(** [strings.TrimSuffix]: [s] without its suffix [suffix], when it has that
    suffix.  The scan stops at the position from which [s] reads [suffix];
    there is at most one. *)
Fixpoint TrimSuffix (s suffix : string) : string :=
  match s with
  | EmptyString => EmptyString
  | String c s' =>
      if String.eqb s suffix then EmptyString
      else String c (TrimSuffix s' suffix)
  end.

(** [strings.Replace(s, old, new, -1)] for a non-empty [old]: the
    non-overlapping occurrences of [old], found from left to right, are
    replaced by [new].  [skip] counts the characters of a matched occurrence
    still to be dropped. *)
Fixpoint replace_from (old new : string) (skip : nat) (s : string) : string :=
  match s with
  | EmptyString => EmptyString
  | String c s' =>
      match skip with
      | S k => replace_from old new k s'
      | O =>
          if HasPrefix s old
          then new +:+ replace_from old new (String.length old - 1) s'
          else String c (replace_from old new O s')
      end
  end.

Definition Replace (s old new : string) : string := replace_from old new O s.

(** The one-character string holding a double quote. *)
Definition quote : string := String (ascii_of_nat 34) EmptyString.

(** The one-character string holding a backslash. *)
Definition backslash : string := String (ascii_of_nat 92) EmptyString.

Lemma int64_wrap_id (z : Z) :
  minInt64 <= z <= maxInt64 -> int64_wrap z = z.
Proof.
  unfold int64_wrap, minInt64, maxInt64. intros Hz.
  rewrite Z.mod_small; lia.
Qed.

Lemma uint64_wrap_id (z : Z) :
  0 <= z < 2 ^ 64 -> uint64_wrap z = z.
Proof. unfold uint64_wrap. intros Hz. apply Z.mod_small; lia. Qed.

Lemma Sub_exact (t u : Z) :
  minDuration <= t - u <= maxDuration -> Sub t u = t - u.
Proof.
  unfold Sub. intros [Hlo Hhi].
  destruct (Z.ltb_spec maxDuration (t - u)); [lia|].
  destruct (Z.ltb_spec (t - u) minDuration); [lia|reflexivity].
Qed.

Lemma Sub_le_max (t u : Z) : Sub t u <= maxDuration.
Proof.
  unfold Sub.
  destruct (Z.ltb_spec maxDuration (t - u)); [lia|].
  destruct (Z.ltb_spec (t - u) minDuration); [|lia].
  unfold minDuration, maxDuration, minInt64, maxInt64. lia.
Qed.



Example ParseInt_plain : ParseInt "1700000000123" = (1700000000123, None).
Proof. reflexivity. Qed.

Example ParseInt_garbage : ParseInt "12x" = (0, Some ErrSyntax).
Proof. reflexivity. Qed.

Example ParseInt_huge :
  ParseInt "9223372036854775808" = (maxInt64, Some ErrRange).
Proof. reflexivity. Qed.

Example Replace_quotes :
  Replace ("a" +:+ backslash +:+ quote +:+ "b") (backslash +:+ quote) quote
  = "a" +:+ quote +:+ "b".
Proof. reflexivity. Qed.

Example TrimPrefix_once :
  TrimPrefix (quote +:+ quote +:+ "x") quote = quote +:+ "x".
Proof. reflexivity. Qed.

Example TrimSuffix_once :
  TrimSuffix ("x" +:+ quote +:+ quote) quote = "x" +:+ quote.
Proof. reflexivity. Qed.

Example TrimSuffix_absent : TrimSuffix "xy" quote = "xy".
Proof. reflexivity. Qed.

Example TrimSuffix_longer : TrimSuffix "reactor.log" ".log" = "reactor".
Proof. reflexivity. Qed.

Example TrimSuffix_inner : TrimSuffix "a.log.txt" ".log" = "a.log.txt".
Proof. reflexivity. Qed.

Example TrimPrefix_absent : TrimPrefix "xy" quote = "xy".
Proof. reflexivity. Qed.

Example Replace_overlap : Replace "aaa" "aa" "b" = "ba".
Proof. reflexivity. Qed.

End Go.

(* ===================================================================== *)
(** * lib/reactorlog.go *)
(* ===================================================================== *)

Module Lib.

(** A [LogStream] is an interface value; only its identity matters here. *)
Definition LogStream : Type := nat.

(** [ReactorLog].  [Pid] is an [int]; [RID], [TID] and [Line] are [uint64];
    [Elapse] holds the elapsed [Duration] in nanoseconds, which the source
    stores converted to seconds as a [float64]; [st] is a [time.Time];
    [w] and [buff] are the contents of the [strings.Builder] and of the
    [bytes.Buffer]; [logStream] is [None] for a nil interface.  The embedded
    mutex serialises the public methods and has no content of its own. *)
Record ReactorLog := mkReactorLog {
  Host : string;
  Label : string;
  Pid : Z;
  RID : Z;
  TID : Z;
  Line : Z;
  Output : string;
  Status : string;
  Error : string;
  Elapse : Z;
  Timestamp : Z;
  st : Z;
  w : list byte;
  logStream : option LogStream;
  initialized : bool;
  buff : list byte
}.

(** What [json.Marshal(rl)] serialises: the exported fields. *)
Record LogRecord := mkLogRecord {
  rec_Host : string;
  rec_Label : string;
  rec_Pid : Z;
  rec_RID : Z;
  rec_TID : Z;
  rec_Line : Z;
  rec_Output : string;
  rec_Status : string;
  rec_Error : string;
  rec_Elapse : Z;
  rec_Timestamp : Z
}.

(** One run of [printJSON]: the record it serialised, and the stream the
    bytes were handed to ([None]: the log stream was nil and nothing was
    sent). *)
Record Emitted := mkEmitted {
  record : LogRecord;
  sent : option LogStream
}.

(** Field assignments. *)
Definition set_Host (v : string) (rl : ReactorLog) : ReactorLog :=
  let 'mkReactorLog _ x_Label x_Pid x_RID x_TID x_Line x_Output x_Status
       x_Error x_Elapse x_Timestamp x_st x_w x_logStream x_initialized x_buff := rl in
  mkReactorLog v x_Label x_Pid x_RID x_TID x_Line x_Output x_Status
    x_Error x_Elapse x_Timestamp x_st x_w x_logStream x_initialized x_buff.
Definition set_Label (v : string) (rl : ReactorLog) : ReactorLog :=
  let 'mkReactorLog x_Host _ x_Pid x_RID x_TID x_Line x_Output x_Status
       x_Error x_Elapse x_Timestamp x_st x_w x_logStream x_initialized x_buff := rl in
  mkReactorLog x_Host v x_Pid x_RID x_TID x_Line x_Output x_Status
    x_Error x_Elapse x_Timestamp x_st x_w x_logStream x_initialized x_buff.
Definition set_Pid (v : Z) (rl : ReactorLog) : ReactorLog :=
  let 'mkReactorLog x_Host x_Label _ x_RID x_TID x_Line x_Output x_Status
       x_Error x_Elapse x_Timestamp x_st x_w x_logStream x_initialized x_buff := rl in
  mkReactorLog x_Host x_Label v x_RID x_TID x_Line x_Output x_Status
    x_Error x_Elapse x_Timestamp x_st x_w x_logStream x_initialized x_buff.
Definition set_RID (v : Z) (rl : ReactorLog) : ReactorLog :=
  let 'mkReactorLog x_Host x_Label x_Pid _ x_TID x_Line x_Output x_Status
       x_Error x_Elapse x_Timestamp x_st x_w x_logStream x_initialized x_buff := rl in
  mkReactorLog x_Host x_Label x_Pid v x_TID x_Line x_Output x_Status
    x_Error x_Elapse x_Timestamp x_st x_w x_logStream x_initialized x_buff.
Definition set_TID (v : Z) (rl : ReactorLog) : ReactorLog :=
  let 'mkReactorLog x_Host x_Label x_Pid x_RID _ x_Line x_Output x_Status
       x_Error x_Elapse x_Timestamp x_st x_w x_logStream x_initialized x_buff := rl in
  mkReactorLog x_Host x_Label x_Pid x_RID v x_Line x_Output x_Status
    x_Error x_Elapse x_Timestamp x_st x_w x_logStream x_initialized x_buff.
Definition set_Line (v : Z) (rl : ReactorLog) : ReactorLog :=
  let 'mkReactorLog x_Host x_Label x_Pid x_RID x_TID _ x_Output x_Status
       x_Error x_Elapse x_Timestamp x_st x_w x_logStream x_initialized x_buff := rl in
  mkReactorLog x_Host x_Label x_Pid x_RID x_TID v x_Output x_Status
    x_Error x_Elapse x_Timestamp x_st x_w x_logStream x_initialized x_buff.
Definition set_Output (v : string) (rl : ReactorLog) : ReactorLog :=
  let 'mkReactorLog x_Host x_Label x_Pid x_RID x_TID x_Line _ x_Status
       x_Error x_Elapse x_Timestamp x_st x_w x_logStream x_initialized x_buff := rl in
  mkReactorLog x_Host x_Label x_Pid x_RID x_TID x_Line v x_Status
    x_Error x_Elapse x_Timestamp x_st x_w x_logStream x_initialized x_buff.
Definition set_Status (v : string) (rl : ReactorLog) : ReactorLog :=
  let 'mkReactorLog x_Host x_Label x_Pid x_RID x_TID x_Line x_Output _
       x_Error x_Elapse x_Timestamp x_st x_w x_logStream x_initialized x_buff := rl in
  mkReactorLog x_Host x_Label x_Pid x_RID x_TID x_Line x_Output v
    x_Error x_Elapse x_Timestamp x_st x_w x_logStream x_initialized x_buff.
Definition set_Error (v : string) (rl : ReactorLog) : ReactorLog :=
  let 'mkReactorLog x_Host x_Label x_Pid x_RID x_TID x_Line x_Output x_Status
       _ x_Elapse x_Timestamp x_st x_w x_logStream x_initialized x_buff := rl in
  mkReactorLog x_Host x_Label x_Pid x_RID x_TID x_Line x_Output x_Status
    v x_Elapse x_Timestamp x_st x_w x_logStream x_initialized x_buff.
Definition set_Elapse (v : Z) (rl : ReactorLog) : ReactorLog :=
  let 'mkReactorLog x_Host x_Label x_Pid x_RID x_TID x_Line x_Output x_Status
       x_Error _ x_Timestamp x_st x_w x_logStream x_initialized x_buff := rl in
  mkReactorLog x_Host x_Label x_Pid x_RID x_TID x_Line x_Output x_Status
    x_Error v x_Timestamp x_st x_w x_logStream x_initialized x_buff.
Definition set_Timestamp (v : Z) (rl : ReactorLog) : ReactorLog :=
  let 'mkReactorLog x_Host x_Label x_Pid x_RID x_TID x_Line x_Output x_Status
       x_Error x_Elapse _ x_st x_w x_logStream x_initialized x_buff := rl in
  mkReactorLog x_Host x_Label x_Pid x_RID x_TID x_Line x_Output x_Status
    x_Error x_Elapse v x_st x_w x_logStream x_initialized x_buff.
Definition set_st (v : Z) (rl : ReactorLog) : ReactorLog :=
  let 'mkReactorLog x_Host x_Label x_Pid x_RID x_TID x_Line x_Output x_Status
       x_Error x_Elapse x_Timestamp _ x_w x_logStream x_initialized x_buff := rl in
  mkReactorLog x_Host x_Label x_Pid x_RID x_TID x_Line x_Output x_Status
    x_Error x_Elapse x_Timestamp v x_w x_logStream x_initialized x_buff.
Definition set_w (v : list byte) (rl : ReactorLog) : ReactorLog :=
  let 'mkReactorLog x_Host x_Label x_Pid x_RID x_TID x_Line x_Output x_Status
       x_Error x_Elapse x_Timestamp x_st _ x_logStream x_initialized x_buff := rl in
  mkReactorLog x_Host x_Label x_Pid x_RID x_TID x_Line x_Output x_Status
    x_Error x_Elapse x_Timestamp x_st v x_logStream x_initialized x_buff.
Definition set_logStream (v : option LogStream) (rl : ReactorLog) : ReactorLog :=
  let 'mkReactorLog x_Host x_Label x_Pid x_RID x_TID x_Line x_Output x_Status
       x_Error x_Elapse x_Timestamp x_st x_w _ x_initialized x_buff := rl in
  mkReactorLog x_Host x_Label x_Pid x_RID x_TID x_Line x_Output x_Status
    x_Error x_Elapse x_Timestamp x_st x_w v x_initialized x_buff.
Definition set_initialized (v : bool) (rl : ReactorLog) : ReactorLog :=
  let 'mkReactorLog x_Host x_Label x_Pid x_RID x_TID x_Line x_Output x_Status
       x_Error x_Elapse x_Timestamp x_st x_w x_logStream _ x_buff := rl in
  mkReactorLog x_Host x_Label x_Pid x_RID x_TID x_Line x_Output x_Status
    x_Error x_Elapse x_Timestamp x_st x_w x_logStream v x_buff.
Definition set_buff (v : list byte) (rl : ReactorLog) : ReactorLog :=
  let 'mkReactorLog x_Host x_Label x_Pid x_RID x_TID x_Line x_Output x_Status
       x_Error x_Elapse x_Timestamp x_st x_w x_logStream x_initialized _ := rl in
  mkReactorLog x_Host x_Label x_Pid x_RID x_TID x_Line x_Output x_Status
    x_Error x_Elapse x_Timestamp x_st x_w x_logStream x_initialized v.

(** [newLine = []byte("\n")]. *)
Definition newLine : list byte := [x0a].

(** The pool's [New]: [&ReactorLog{w: strings.Builder{}}], the zero value. *)
Definition New : ReactorLog :=
  mkReactorLog "" "" 0 0 0 0 "" "" "" 0 0 Go.zeroTime [] None false [].

(** [reactorLogPool], a [sync.Pool]: the objects released and not yet taken
    again.  [Get] hands out a pooled object when there is one (here the one
    released last) and a new one otherwise; [Put] returns an object.  A
    [sync.Pool] may also drop pooled objects, which [Get] then replaces by new
    ones: every object [Get] returns is either new or was [Put] before. *)
Definition Get (pool : list ReactorLog) : ReactorLog * list ReactorLog :=
  match pool with
  | r :: pool' => (r, pool')
  | [] => (New, [])
  end.

Definition Put (r : ReactorLog) (pool : list ReactorLog) : list ReactorLog :=
  r :: pool.

(** [NewReactorLog(logStream, hostname, rid, tid)]; [now] is what
    [time.Now()] returns. *)
Definition NewReactorLog (pool : list ReactorLog) (now : Z)
    (ls : option LogStream) (hostname : string) (rid tid : Z)
  : ReactorLog * list ReactorLog :=
  let '(r, pool) := Get pool in
  let r := set_Host hostname r in
  let r := set_logStream ls r in
  let r := set_RID rid r in
  let r := set_TID tid r in
  let r := set_Status "" r in
  let r := set_st now r in
  let r := set_Timestamp (Go.Unix (st r)) r in
  (r, pool).

Definition record_of (rl : ReactorLog) : LogRecord :=
  mkLogRecord (Host rl) (Label rl) (Pid rl) (RID rl) (TID rl) (Line rl)
    (Output rl) (Status rl) (Error rl) (Elapse rl) (Timestamp rl).

(** [printJSON].  [json.Marshal] cannot fail on this struct (its only
    float, [Elapse], is always finite), so the error branch is not taken. *)
Definition printJSON (rl : ReactorLog) : ReactorLog * list Emitted :=
  let rl := set_Output (string_of_list_byte (w rl)) rl in
  let rl := set_w [] rl in
  let b := record_of rl in
  let ls := logStream rl in
  let ev := mkEmitted b ls in
  let rl := set_Output "" rl in
  let rl := set_Line (Go.uint64_wrap (Line rl + 1)) rl in
  (rl, [ev]).

(** [handleWriteBytes]. *)
Fixpoint handleWriteBytes (rl : ReactorLog) (b : list byte)
  : ReactorLog * list Emitted :=
  match b with
  | [] => (rl, [])
  | l :: b' =>
      let '(rl, e1) :=
        if Byte.eqb l (hd x00 newLine)
        then printJSON rl
        else (set_w (w rl ++ [l]) rl, []) in
      let '(rl, e2) := handleWriteBytes rl b' in
      (rl, e1 ++ e2)
  end.

(** [Write]: the new value of the log, the pair the method returns ([None]
    for a nil error) and the records emitted.  Before [Start] the result is
    that of [bytes.Buffer.Write], which is the length of [b] and a nil
    error. *)
Definition Write (rl : ReactorLog) (b : list byte)
  : ReactorLog * (Z * option string) * list Emitted :=
  if negb (initialized rl) then
    (set_buff (buff rl ++ b) rl, (Z.of_nat (length b), None), [])
  else
    let '(rl, e1) :=
      if 0 <? Z.of_nat (length (buff rl)) then
        let '(rl, e) := handleWriteBytes rl (buff rl) in
        (set_buff [] rl, e)
      else (rl, []) in
    let '(rl, e2) := handleWriteBytes rl b in
    (rl, (Z.of_nat (length b), None), e1 ++ e2).

(** [Start]. *)
Definition Start (rl : ReactorLog) (pid : Z) (s : string)
  : ReactorLog * list Emitted :=
  let rl := set_Pid pid rl in
  let rl := set_initialized true rl in
  let rl := set_Status "CMD" rl in
  let rl := set_w (w rl ++ list_byte_of_string s) rl in
  let '(rl, e) := printJSON rl in
  let rl := set_Status "RUN" rl in
  (rl, e).

(** [reset], up to the final [Put]: the fields it assigns. *)
Definition reset_fields (rl : ReactorLog) : ReactorLog :=
  let rl := set_Host "" rl in
  let rl := set_Label "" rl in
  let rl := set_Pid 0 rl in
  let rl := set_RID 0 rl in
  let rl := set_TID 0 rl in
  let rl := set_Line 0 rl in
  let rl := set_Output "" rl in
  let rl := set_Status "" rl in
  let rl := set_Error "" rl in
  let rl := set_Elapse 0 rl in
  let rl := set_Timestamp 0 rl in
  let rl := set_logStream None rl in
  let rl := set_w [] rl in
  let rl := set_buff [] rl in
  rl.

(** [reset]. *)
Definition reset (pool : list ReactorLog) (rl : ReactorLog) : list ReactorLog :=
  Put (reset_fields rl) pool.

(** [Done(err)]: [err] is [None] for nil and the error's message otherwise;
    [now] is what [time.Now()] returns.  The log goes back to the pool. *)
Definition Done (pool : list ReactorLog) (now : Z) (rl : ReactorLog)
    (err : option string) : list ReactorLog * list Emitted :=
  let '(rl, e1) :=
    if negb (initialized rl)
    then handleWriteBytes rl (buff rl)
    else (rl, []) in
  let rl := set_Status "END" rl in
  let rl := match err with
            | Some msg => set_Error msg rl
            | None => rl
            end in
  let rl := set_Elapse (Go.Sub now (st rl)) rl in
  let '(rl, e2) := printJSON rl in
  (reset pool rl, e1 ++ e2).

(** ** Executions *)

(** A run of [Write] calls, in order. *)
Fixpoint Writes (rl : ReactorLog) (bs : list (list byte))
  : ReactorLog * list Emitted :=
  match bs with
  | [] => (rl, [])
  | b :: bs' =>
      let '(rl, _, e1) := Write rl b in
      let '(rl, e2) := Writes rl bs' in
      (rl, e1 ++ e2)
  end.

(** One execution in which [Start], if it is called, precedes every
    [Write]: the log is created, [Start] is called or not, the process
    output arrives in [Write] calls, [Done] ends it.  [t0] and [t1] are the
    clock readings at creation and at [Done].  An execution whose process
    writes before the worker calls [Start] is [execution_early], below. *)
Definition execution (pool : list ReactorLog) (t0 t1 : Z)
    (ls : option LogStream) (hostname : string) (rid tid : Z)
    (start : option (Z * string)) (writes : list (list byte))
    (err : option string) : list ReactorLog * list Emitted :=
  let '(rl, pool) := NewReactorLog pool t0 ls hostname rid tid in
  let '(rl, e1) :=
    match start with
    | Some (pid, s) => Start rl pid s
    | None => (rl, [])
    end in
  let '(rl, e2) := Writes rl writes in
  let '(pool, e3) := Done pool t1 rl err in
  (pool, e1 ++ e2 ++ e3).

(** An object is in the state [reset] leaves it in when [reset]'s
    assignments change nothing. *)
Definition released (rl : ReactorLog) : Prop := reset_fields rl = rl.

(** The bytes of a string literal. *)
Definition bytes (s : string) : list byte := list_byte_of_string s.

Definition statuses (es : list Emitted) : list string :=
  map (fun e => rec_Status (record e)) es.

Definition outputs (es : list Emitted) : list string :=
  map (fun e => rec_Output (record e)) es.

Definition lines (es : list Emitted) : list Z :=
  map (fun e => rec_Line (record e)) es.

(** ** Specification vocabulary *)

(** The newline-terminated lines of a byte sequence that continues the
    fragment [acc], and the fragment left after the last newline. *)
Fixpoint split_lines (acc b : list byte) : list (list byte) * list byte :=
  match b with
  | [] => ([], acc)
  | c :: b' =>
      if Byte.eqb c x0a
      then (acc :: fst (split_lines [] b'), snd (split_lines [] b'))
      else split_lines (acc ++ [c]) b'
  end.

(** The number of newline bytes. *)
Fixpoint newlines (b : list byte) : nat :=
  match b with
  | [] => O
  | c :: b' => ((if Byte.eqb c x0a then 1 else 0) + newlines b')%nat
  end.

(** [n] successive values of a [uint64] counter that starts at [l]. *)
Fixpoint count_from (l : Z) (n : nat) : list Z :=
  match n with
  | O => []
  | S n' => l :: count_from (Go.uint64_wrap (l + 1)) n'
  end.

(** The counter after [n] increments. *)
Fixpoint advance (l : Z) (n : nat) : Z :=
  match n with
  | O => l
  | S n' => advance (Go.uint64_wrap (l + 1)) n'
  end.

(** The fields that [printJSON] and [handleWriteBytes] leave alone. *)
Definition frame (a b : ReactorLog) : Prop :=
  Host b = Host a /\ Label b = Label a /\ Pid b = Pid a /\ RID b = RID a /\
  TID b = TID a /\ Status b = Status a /\ Error b = Error a /\
  Elapse b = Elapse a /\ Timestamp b = Timestamp a /\ st b = st a /\
  logStream b = logStream a /\ initialized b = initialized a /\
  buff b = buff a.

Example fresh_write_done :
  let '(rl, pool) := NewReactorLog [] 0 (Some 7%nat) "h" 1 1 in
  let '(rl, e1) := Writes rl [bytes "ab"; bytes "c"] in
  let '(pool, e2) := Done pool 5 rl None in
  (statuses (e1 ++ e2), outputs (e1 ++ e2), lines (e1 ++ e2))
  = (["END"], ["abc"], [0]).
Proof. reflexivity. Qed.

Example split_lines_two :
  split_lines [] [x61; x0a; x62; x0a; x63] = ([[x61]; [x62]], [x63]).
Proof. reflexivity. Qed.

(** ** Counters *)

Lemma count_from_length (n : nat) : forall l, length (count_from l n) = n.
Proof. induction n as [|n IH]; intros l; simpl; [reflexivity|]. now rewrite IH. Qed.

Lemma count_from_app (a b : nat) : forall l,
  count_from l (a + b) = count_from l a ++ count_from (advance l a) b.
Proof.
  induction a as [|a IH]; intros l; simpl; [reflexivity|].
  now rewrite IH.
Qed.

Lemma advance_add (a b : nat) : forall l,
  advance l (a + b) = advance (advance l a) b.
Proof. induction a as [|a IH]; intros l; simpl; [reflexivity|apply IH]. Qed.

Lemma count_from_exact (n : nat) : forall k : nat,
  Z.of_nat k + Z.of_nat n <= 2 ^ 64 ->
  count_from (Z.of_nat k) n = map Z.of_nat (seq k n).
Proof.
  induction n as [|n IH]; intros k Hk; simpl; [reflexivity|].
  f_equal.
  destruct n as [|n]; [reflexivity|].
  rewrite Go.uint64_wrap_id by lia.
  replace (Z.of_nat k + 1) with (Z.of_nat (S k)) by lia.
  apply IH. lia.
Qed.

Lemma newlines_le (b : list byte) : (newlines b <= length b)%nat.
Proof.
  induction b as [|c b IH]; simpl; [lia|].
  destruct (Byte.eqb c x0a); lia.
Qed.

Lemma newlines_app (a b : list byte) :
  newlines (a ++ b) = (newlines a + newlines b)%nat.
Proof. induction a as [|c a IH]; simpl; [reflexivity|]. rewrite IH. lia. Qed.

Lemma split_lines_length (b : list byte) : forall acc,
  length (fst (split_lines acc b)) = newlines b.
Proof.
  induction b as [|c b IH]; intros acc; [reflexivity|].
  simpl. destruct (Byte.eqb c x0a); simpl; [now rewrite IH|apply IH].
Qed.

Lemma split_lines_no_newline (b : list byte) : forall acc,
  newlines b = O -> split_lines acc b = ([], acc ++ b).
Proof.
  induction b as [|c b IH]; intros acc Hn; simpl.
  - now rewrite app_nil_r.
  - simpl in Hn.
    destruct (Byte.eqb c x0a); [discriminate|].
    rewrite IH by exact Hn. now rewrite <- app_assoc.
Qed.

(** ** What [printJSON] and [handleWriteBytes] emit *)

Lemma printJSON_eq (rl : ReactorLog) :
  printJSON rl =
  (set_Line (Go.uint64_wrap (Line rl + 1)) (set_Output "" (set_w [] rl)),
   [mkEmitted (record_of (set_Output (string_of_list_byte (w rl)) rl))
      (logStream rl)]).
Proof. destruct rl; reflexivity. Qed.

(** [r] is the outcome of emitting the lines [ls] from the log [rl], with
    the fragment [t] left in the accumulator. *)
Definition emits (rl : ReactorLog) (ls : list (list byte)) (t : list byte)
    (r : ReactorLog * list Emitted) : Prop :=
  frame rl (fst r) /\
  w (fst r) = t /\
  Line (fst r) = advance (Line rl) (length ls) /\
  statuses (snd r) = repeat (Status rl) (length ls) /\
  outputs (snd r) = map string_of_list_byte ls /\
  lines (snd r) = count_from (Line rl) (length ls) /\
  Forall (fun e => sent e = logStream rl) (snd r).

Lemma frame_refl (rl : ReactorLog) : frame rl rl.
Proof. unfold frame. repeat split. Qed.

Lemma frame_trans (a b c : ReactorLog) : frame a b -> frame b c -> frame a c.
Proof. unfold frame. intuition congruence. Qed.

Lemma handleWriteBytes_emits (b : list byte) : forall rl,
  emits rl (fst (split_lines (w rl) b)) (snd (split_lines (w rl) b))
    (handleWriteBytes rl b).
Proof.
  induction b as [|c b IH]; intros rl.
  - simpl. unfold emits. simpl. repeat split. constructor.
  - simpl. destruct (Byte.eqb c x0a) eqn:Ec.
    + rewrite printJSON_eq.
      specialize (IH (set_Line (Go.uint64_wrap (Line rl + 1))
                        (set_Output "" (set_w [] rl)))).
      destruct (handleWriteBytes _ b) as [rl2 e2].
      destruct rl as [h lb p r t l o s e el ts st0 w0 ls i bf].
      unfold emits, frame in *. cbn in *.
      destruct IH as (Hf & Hw & Hl & Hs & Ho & Hn & Hsent).
      repeat split; try tauto; try congruence.
      constructor; [reflexivity|exact Hsent].
    + specialize (IH (set_w (w rl ++ [c]) rl)).
      destruct (handleWriteBytes _ b) as [rl2 e2].
      destruct rl as [h lb p r t l o s e el ts st0 w0 ls i bf].
      unfold emits, frame in *. cbn in *.
      exact IH.
Qed.

Lemma split_lines_app (b1 b2 : list byte) : forall acc,
  split_lines acc (b1 ++ b2) =
  (fst (split_lines acc b1) ++ fst (split_lines (snd (split_lines acc b1)) b2),
   snd (split_lines (snd (split_lines acc b1)) b2)).
Proof.
  induction b1 as [|c b1 IH]; intros acc; simpl.
  - now destruct (split_lines acc b2).
  - destruct (Byte.eqb c x0a); simpl.
    + now rewrite IH.
    + apply IH.
Qed.

Lemma emits_app (rl : ReactorLog) (ls1 ls2 : list (list byte))
    (t1 t2 : list byte) (r1 r2 : ReactorLog * list Emitted) :
  emits rl ls1 t1 r1 -> emits (fst r1) ls2 t2 r2 ->
  emits rl (ls1 ++ ls2) t2 (fst r2, snd r1 ++ snd r2).
Proof.
  unfold emits. simpl.
  intros (Hf1 & Hw1 & Hl1 & Hs1 & Ho1 & Hn1 & Hsent1)
         (Hf2 & Hw2 & Hl2 & Hs2 & Ho2 & Hn2 & Hsent2).
  assert (HS : Status (fst r1) = Status rl) by (unfold frame in Hf1; tauto).
  assert (HL : logStream (fst r1) = logStream rl) by (unfold frame in Hf1; tauto).
  rewrite length_app.
  split; [eapply frame_trans; eassumption|].
  split; [exact Hw2|].
  split; [rewrite Hl2, Hl1; symmetry; apply advance_add|].
  split; [unfold statuses in *; rewrite map_app, Hs1, Hs2, HS; symmetry;
          apply repeat_app|].
  split; [unfold outputs in *; now rewrite !map_app, Ho1, Ho2|].
  split; [unfold lines in *; rewrite map_app, Hn1, Hn2, Hl1; symmetry;
          apply count_from_app|].
  apply Forall_app. split; [exact Hsent1|].
  rewrite <- HL. exact Hsent2.
Qed.

(** ** [Write] *)

Lemma Write_not_initialized (rl : ReactorLog) (b : list byte) :
  initialized rl = false ->
  Write rl b = (set_buff (buff rl ++ b) rl, (Z.of_nat (length b), None), []).
Proof. intros Hi. unfold Write. now rewrite Hi. Qed.

Lemma Write_initialized (rl : ReactorLog) (b : list byte) :
  initialized rl = true -> buff rl = [] ->
  Write rl b =
  (fst (handleWriteBytes rl b), (Z.of_nat (length b), None),
   snd (handleWriteBytes rl b)).
Proof.
  intros Hi Hb. unfold Write. rewrite Hi, Hb. simpl.
  now destruct (handleWriteBytes rl b).
Qed.

Lemma Write_result_after_Start (rl : ReactorLog) (b : list byte) :
  initialized rl = true ->
  snd (fst (Write rl b)) = (Z.of_nat (length b), None).
Proof.
  intros Hi. unfold Write. rewrite Hi. simpl.
  destruct (0 <? Z.of_nat (length (buff rl))).
  - destruct (handleWriteBytes rl (buff rl)) as [rl1 e1].
    now destruct (handleWriteBytes (set_buff [] rl1) b).
  - now destruct (handleWriteBytes rl b).
Qed.

Lemma Writes_not_initialized (bs : list (list byte)) : forall rl,
  initialized rl = false ->
  Writes rl bs = (set_buff (buff rl ++ concat bs) rl, []).
Proof.
  induction bs as [|b bs IH]; intros rl Hi; simpl.
  - rewrite app_nil_r. now destruct rl.
  - rewrite Write_not_initialized by exact Hi.
    rewrite IH by (now destruct rl).
    destruct rl; cbn. now rewrite app_assoc.
Qed.

Lemma Writes_initialized (bs : list (list byte)) : forall rl,
  initialized rl = true -> buff rl = [] ->
  emits rl (fst (split_lines (w rl) (concat bs)))
    (snd (split_lines (w rl) (concat bs))) (Writes rl bs).
Proof.
  induction bs as [|b bs IH]; intros rl Hi Hb; simpl.
  - unfold emits. simpl.
    split; [apply frame_refl|]. repeat split. constructor.
  - rewrite Write_initialized by assumption.
    pose proof (handleWriteBytes_emits b rl) as H1.
    destruct (handleWriteBytes rl b) as [rl1 e1]. simpl.
    assert (Hf : frame rl rl1) by (destruct H1 as [Hf _]; exact Hf).
    assert (Hw : w rl1 = snd (split_lines (w rl) b))
      by (destruct H1 as (_ & Hw & _); exact Hw).
    assert (Hi1 : initialized rl1 = true) by (unfold frame in Hf; simpl in Hf; intuition congruence).
    assert (Hb1 : buff rl1 = []) by (unfold frame in Hf; simpl in Hf; intuition congruence).
    specialize (IH rl1 Hi1 Hb1).
    rewrite split_lines_app. simpl.
    rewrite Hw in IH.
    pose proof (emits_app rl _ _ _ _ (rl1, e1) (Writes rl1 bs) H1 IH) as H.
    destruct (Writes rl1 bs) as [rl2 e2]. exact H.
Qed.

(** ** [Done] *)

(** The record [Done] emits last. *)
Definition end_record (now : Z) (rl : ReactorLog) (err : option string)
  : LogRecord :=
  mkLogRecord (Host rl) (Label rl) (Pid rl) (RID rl) (TID rl) (Line rl)
    (string_of_list_byte (w rl)) "END"
    (match err with Some msg => msg | None => Error rl end)
    (Go.Sub now (st rl)) (Timestamp rl).

Lemma Done_events (pool : list ReactorLog) (now : Z) (rl : ReactorLog)
    (err : option string) :
  snd (Done pool now rl err) =
  let r := if negb (initialized rl)
           then handleWriteBytes rl (buff rl) else (rl, []) in
  snd r ++ [mkEmitted (end_record now (fst r) err) (logStream (fst r))].
Proof.
  unfold Done.
  destruct (if negb (initialized rl) then handleWriteBytes rl (buff rl) else (rl, []))
    as [rl1 e1].
  rewrite printJSON_eq. simpl. f_equal.
  destruct rl1, err; reflexivity.
Qed.

Lemma Done_pool (pool : list ReactorLog) (now : Z) (rl : ReactorLog)
    (err : option string) :
  exists rl', fst (Done pool now rl err) = reset_fields rl' :: pool /\
              initialized rl' = initialized rl.
Proof.
  unfold Done.
  pose proof (handleWriteBytes_emits (buff rl) rl) as H.
  destruct (negb (initialized rl)).
  - destruct (handleWriteBytes rl (buff rl)) as [rl1 e1].
    rewrite printJSON_eq. simpl. eexists. split; [reflexivity|].
    destruct H as [Hf _]. unfold frame in Hf. simpl in Hf.
    destruct rl1, err; cbn in *; tauto.
  - rewrite printJSON_eq. simpl. eexists. split; [reflexivity|].
    destruct rl, err; reflexivity.
Qed.

(** ** One execution *)

Lemma released_inv (o : ReactorLog) :
  released o ->
  o = mkReactorLog "" "" 0 0 0 0 "" "" "" 0 0 (st o) [] None (initialized o) [].
Proof. unfold released. intros H. rewrite <- H at 1. destruct o. reflexivity. Qed.

Lemma released_New : released New.
Proof. reflexivity. Qed.

Lemma released_reset_fields (rl : ReactorLog) : released (reset_fields rl).
Proof. destruct rl. vm_compute. reflexivity. Qed.

(** Every object [Done] puts into the pool is in the state [reset] leaves. *)
Lemma Done_keeps_pool_released (pool : list ReactorLog) (now : Z)
    (rl : ReactorLog) (err : option string) :
  Forall released pool -> Forall released (fst (Done pool now rl err)).
Proof.
  intros Hp. destruct (Done_pool pool now rl err) as (rl' & -> & _).
  constructor; [apply released_reset_fields|exact Hp].
Qed.

Lemma Get_released (pool : list ReactorLog) :
  Forall released pool -> released (fst (Get pool)).
Proof.
  intros Hp. destruct pool as [|o pool]; simpl; [apply released_New|].
  now inversion Hp.
Qed.

Lemma NewReactorLog_released (pool : list ReactorLog) (now : Z)
    (ls : option LogStream) (hostname : string) (rid tid : Z) :
  released (fst (Get pool)) ->
  NewReactorLog pool now ls hostname rid tid =
  (mkReactorLog hostname "" 0 rid tid 0 "" "" "" 0 (Go.Unix now) now [] ls
     (initialized (fst (Get pool))) [],
   snd (Get pool)).
Proof.
  unfold NewReactorLog. destruct (Get pool) as [o pool'].
  cbn [fst snd]. intros H. rewrite (released_inv o H). reflexivity.
Qed.

Lemma Start_eq (rl : ReactorLog) (pid : Z) (s : string) :
  Start rl pid s =
  (mkReactorLog (Host rl) (Label rl) pid (RID rl) (TID rl)
     (Go.uint64_wrap (Line rl + 1)) "" "RUN" (Error rl) (Elapse rl)
     (Timestamp rl) (st rl) [] (logStream rl) true (buff rl),
   [mkEmitted
      (mkLogRecord (Host rl) (Label rl) pid (RID rl) (TID rl) (Line rl)
         (string_of_list_byte (w rl ++ list_byte_of_string s)) "CMD"
         (Error rl) (Elapse rl) (Timestamp rl))
      (logStream rl)]).
Proof. destruct rl. reflexivity. Qed.

Arguments Go.uint64_wrap : simpl never.
Arguments Go.Sub : simpl never.
Arguments Go.Unix : simpl never.

Lemma emits_length (rl : ReactorLog) (ls : list (list byte)) (t : list byte)
    (r : ReactorLog * list Emitted) :
  emits rl ls t r -> length (snd r) = length ls.
Proof.
  intros (_ & _ & _ & Hs & _). unfold statuses in Hs.
  rewrite <- (length_map (fun e => rec_Status (record e))), Hs.
  apply repeat_length.
Qed.

(** The records of a run of [handleWriteBytes] followed by the final
    record of [Done]. *)
Lemma emits_then_end (rl rl2 : ReactorLog) (n : nat) (sl : list (list byte) * list byte)
    (e2 : list Emitted) (now : Z) (err : option string)
    (ls : option LogStream) :
  length (fst sl) = n ->
  logStream rl = ls ->
  emits rl (fst sl) (snd sl) (rl2, e2) ->
  let es := e2 ++ [mkEmitted (end_record now rl2 err) (logStream rl2)] in
  statuses es = repeat (Status rl) n ++ ["END"] /\
  outputs es = map string_of_list_byte (fst sl) ++ [string_of_list_byte (snd sl)] /\
  lines es = count_from (Line rl) (length es) /\
  Forall (fun e => sent e = ls) es.
Proof.
  intros Hn Hls He es. subst es.
  pose proof (emits_length _ _ _ _ He) as Hlen. simpl in Hlen.
  destruct He as (Hf & Hw & Hl & Hs & Ho & Hc & Hsent).
  simpl in Hf, Hw, Hl, Hs, Ho, Hc, Hsent.
  assert (Hls2 : logStream rl2 = ls) by (unfold frame in Hf; intuition congruence).
  rewrite Hn in *.
  split; [|split; [|split]].
  - unfold statuses in *. now rewrite map_app, Hs.
  - unfold outputs in *. rewrite map_app, Ho. simpl. now rewrite Hw.
  - unfold lines in *. rewrite map_app, Hc. simpl.
    rewrite length_app, Hlen. simpl.
    rewrite count_from_app. simpl. now rewrite Hl.
  - apply Forall_app. split; [now rewrite <- Hls|].
    constructor; [exact Hls2|constructor].
Qed.

(** The records of one execution: their statuses, outputs, line numbers and
    destination. *)
Lemma execution_events (pool : list ReactorLog) (t0 t1 : Z)
    (ls : option LogStream) (hostname : string) (rid tid : Z)
    (start : option (Z * string)) (writes : list (list byte))
    (err : option string) :
  released (fst (Get pool)) ->
  let es := snd (execution pool t0 t1 ls hostname rid tid start writes err) in
  let n := newlines (concat writes) in
  let sl := split_lines [] (concat writes) in
  statuses es =
    match start with
    | Some _ => "CMD" :: repeat "RUN" n
    | None => repeat "" n
    end ++ ["END"] /\
  outputs es =
    match start with
    | Some (_, s) => [s]
    | None => []
    end ++ map string_of_list_byte (fst sl) ++ [string_of_list_byte (snd sl)] /\
  lines es = count_from 0 (length es) /\
  Forall (fun e => sent e = ls) es.
Proof.
  intros Hrel es n sl. subst es.
  assert (Hn : length (fst sl) = n) by apply split_lines_length.
  unfold execution. rewrite (NewReactorLog_released _ _ _ _ _ _ Hrel).
  set (i0 := initialized (fst (Get pool))).
  set (pool' := snd (Get pool)).
  destruct start as [[pid s]|].
  - (* Start was called *)
    rewrite Start_eq.
    cbn [Host Label Pid RID TID Line Output Status Error Elapse Timestamp st w
         logStream initialized buff app].
    rewrite string_of_list_byte_of_string.
    match goal with |- context [Writes ?r writes] => set (rl1 := r) end.
    pose proof (Writes_initialized writes rl1 eq_refl eq_refl) as HW.
    destruct (Writes rl1 writes) as [rl2 e2].
    change (w rl1) with (@nil byte) in HW. fold sl in HW.
    assert (Hi2 : initialized rl2 = true).
    { destruct HW as [Hf _]. unfold frame in Hf. simpl in Hf. tauto. }
    pose proof (Done_events pool' t1 rl2 err) as HD.
    rewrite Hi2 in HD. simpl in HD.
    destruct (Done pool' t1 rl2 err) as [pool2 e3]. simpl in HD. subst e3.
    cbn [snd].
    destruct (emits_then_end rl1 rl2 n sl e2 t1 err ls Hn eq_refl HW)
      as (Hs & Ho & Hc & Hsent).
    split; [|split; [|split]].
    + unfold statuses in *. simpl. now rewrite Hs.
    + unfold outputs in *. simpl. now rewrite Ho.
    + unfold lines in *. simpl. now rewrite Hc.
    + constructor; [reflexivity|exact Hsent].
  - (* Start was not called *)
    match goal with |- context [Writes ?r writes] => set (rl0 := r) end.
    destruct i0 eqn:Hi0.
    + (* the flag is set although Start was not called *)
      pose proof (Writes_initialized writes rl0 eq_refl eq_refl) as HW.
      destruct (Writes rl0 writes) as [rl2 e2].
      change (w rl0) with (@nil byte) in HW. fold sl in HW.
      assert (Hi2 : initialized rl2 = true).
      { destruct HW as [Hf _]. unfold frame in Hf. simpl in Hf. tauto. }
      pose proof (Done_events pool' t1 rl2 err) as HD.
      rewrite Hi2 in HD. simpl in HD.
      destruct (Done pool' t1 rl2 err) as [pool2 e3]. simpl in HD. subst e3.
      cbn [snd app].
      exact (emits_then_end rl0 rl2 n sl e2 t1 err ls Hn eq_refl HW).
    + (* the bytes are staged, and flushed by Done *)
      rewrite (Writes_not_initialized writes rl0 eq_refl).
      cbn [snd app].
      match goal with |- context [Done pool' t1 ?r err] => set (rl1 := r) end.
      pose proof (Done_events pool' t1 rl1 err) as HD.
      change (initialized rl1) with false in HD.
      change (buff rl1) with (concat writes) in HD.
      cbn [negb] in HD.
      pose proof (handleWriteBytes_emits (concat writes) rl1) as HW.
      change (w rl1) with (@nil byte) in HW. fold sl in HW.
      destruct (handleWriteBytes rl1 (concat writes)) as [rl2 e2].
      destruct (Done pool' t1 rl1 err) as [pool2 e3]. cbn [fst snd] in HD. subst e3.
      exact (emits_then_end rl1 rl2 n sl e2 t1 err ls Hn eq_refl HW).
Qed.

(** ** The pool and the [initialized] flag *)

(** What [reset] is specified to do: every field back to its zero value, so
    that a released object is indistinguishable from a new one. *)
Definition fully_cleared (rl : ReactorLog) : Prop :=
  set_st (st New) rl = New.

(** The log of an execution whose command was started, as [Done] releases
    it: one [Start], no output, no error. *)
Definition started_then_done : list ReactorLog :=
  fst (execution [] 0 1 (Some 0%nat) "host" 1 1 (Some (42, "cmd")) [] None).

(** C6.  [reset] clears the exported fields, the line counter, both buffers
    and the log stream, but not [initialized]: the object released by an
    execution that called [Start] goes back to the pool with the flag set,
    and differs from a new object even when the start time is put aside. *)
Lemma reset_keeps_initialized :
  exists o, started_then_done = [o] /\
    released o /\ initialized o = true /\ ~ fully_cleared o.
Proof.
  eexists. split; [vm_compute; reflexivity|].
  split; [reflexivity|]. split; [reflexivity|].
  unfold fully_cleared. vm_compute. discriminate.
Qed.

(** [reset] assigns neither [initialized] nor [st], whatever the log. *)
Lemma reset_fields_keeps (rl : ReactorLog) :
  initialized (reset_fields rl) = initialized rl /\
  st (reset_fields rl) = st rl.
Proof. destruct rl. split; reflexivity. Qed.

(** A write made before [Start] on a log whose flag is clear is staged, with
    no record emitted. *)
Lemma Write_before_Start_stages (rl : ReactorLog) (b : list byte) :
  initialized rl = false ->
  buff (fst (fst (Write rl b))) = buff rl ++ b /\
  snd (Write rl b) = [] /\
  snd (fst (Write rl b)) = (Z.of_nat (length b), None).
Proof.
  intros Hi. rewrite Write_not_initialized by exact Hi.
  destruct rl. repeat split.
Qed.

(** C4.  A log obtained from [NewReactorLog] after an execution that called
    [Start]: the pool hands the released object out again, the flag is still
    set, and a [Write] made before this execution's [Start] is not staged
    (the pre-init buffer stays empty) but emitted at once, as a record with
    an empty status. *)
Lemma Write_before_Start_on_reused_log :
  let '(rl, _) := NewReactorLog started_then_done 2 (Some 0%nat) "host" 1 2 in
  let '(rl', res, es) := Write rl [x6f; x6f; x70; x73; x0a] in
  initialized rl = true /\
  buff rl' = [] /\
  res = (5, None) /\
  statuses es = [""] /\ outputs es = ["oops"] /\ lines es = [0].
Proof. vm_compute. repeat split. Qed.

(** ** [Done] without [Start] *)

(** C5 as the claim states it, for the records [es] of an execution that
    wrote [writes] and never called [Start]. *)
Definition one_END_record_with_output (es : list Emitted)
    (writes : list (list byte)) : Prop :=
  exists e, es = [e] /\ rec_Status (record e) = "END" /\
            rec_Output (record e) = string_of_list_byte (concat writes).

(** C5, counterexample.  A new log, one [Write] of the bytes of ["a\nb"],
    then [Done]: two records are emitted, the first with an empty status and
    the output ["a"], the final one with only ["b"]. *)
Lemma Done_without_Start_two_records :
  let es := snd (execution [] 0 1 (Some 0%nat) "host" 1 1 None
                   [[x61; x0a; x62]] None) in
  (statuses es = [""; "END"] /\ outputs es = ["a"; "b"]) /\
  ~ one_END_record_with_output es [[x61; x0a; x62]].
Proof.
  split; [vm_compute; split; reflexivity|].
  intros (e & He & _). vm_compute in He. discriminate He.
Qed.

(** C5, amended.  On a log on which [Start] is never called, [Write] calls
    followed by one [Done] emit one record with an empty status for each
    newline in the written bytes, carrying the line it ends, and then exactly
    one record with status END, the last one, carrying the bytes written
    after the last newline.  When the written bytes hold no newline, this is
    exactly one record, with status END and all the written bytes as its
    output. *)
Theorem Done_without_Start (pool : list ReactorLog) (t0 t1 : Z)
    (ls : option LogStream) (hostname : string) (rid tid : Z)
    (writes : list (list byte)) (err : option string) :
  released (fst (Get pool)) ->
  let es := snd (execution pool t0 t1 ls hostname rid tid None writes err) in
  let sl := split_lines [] (concat writes) in
  statuses es = repeat "" (newlines (concat writes)) ++ ["END"] /\
  outputs es =
    map string_of_list_byte (fst sl) ++ [string_of_list_byte (snd sl)] /\
  Forall (fun e => sent e = ls) es /\
  (newlines (concat writes) = O -> one_END_record_with_output es writes).
Proof.
  intros Hrel es sl.
  destruct (execution_events pool t0 t1 ls hostname rid tid None writes err Hrel)
    as (Hs & Ho & _ & Hsent).
  fold es in Hs, Ho, Hsent. fold sl in Ho. simpl in Ho.
  split; [exact Hs|]. split; [exact Ho|]. split; [exact Hsent|].
  intros Hz. rewrite Hz in Hs. simpl in Hs.
  unfold sl in Ho. rewrite split_lines_no_newline in Ho by exact Hz.
  simpl in Ho.
  destruct es as [|e [|e' es']]; try discriminate Hs.
  exists e. split; [reflexivity|].
  unfold statuses in Hs. unfold outputs in Ho. simpl in Hs, Ho.
  split; congruence.
Qed.

Lemma Done_without_Start_witness :
  released (fst (Get [])) /\
  let es := snd (execution [] 0 1 (Some 0%nat) "host" 1 1 None
                   [[x61; x0a]; [x62; x0a; x63]] None) in
  statuses es = [""; ""; "END"] /\
  outputs es = ["a"; "b"; "c"] /\
  Forall (fun e => sent e = Some 0%nat) es /\
  (newlines (concat [[x61; x0a]; [x62; x0a; x63]]) = O ->
   one_END_record_with_output es [[x61; x0a]; [x62; x0a; x63]]).
Proof.
  split; [reflexivity|].
  exact (Done_without_Start [] 0 1 (Some 0%nat) "host" 1 1
           [[x61; x0a]; [x62; x0a; x63]] None eq_refl).
Defined.

(** ** The records of one execution *)

(** X27.  In an execution in which [Start], if it is called, precedes
    every [Write] (creation, [Start] or not, then the writes, then [Done]),
    the records are numbered 0, 1, 2, ... in order; when [Start] was called,
    the first has status CMD, the last has status END and all those in
    between, one per newline written, have status RUN.  The pool may hand
    out any object [reset] released; the bound keeps the [uint64] line
    counter from wrapping around. *)
Theorem execution_records (pool : list ReactorLog) (t0 t1 : Z)
    (ls : option LogStream) (hostname : string) (rid tid : Z)
    (start : option (Z * string)) (writes : list (list byte))
    (err : option string) :
  released (fst (Get pool)) ->
  Z.of_nat (length (concat writes)) + 2 <= 2 ^ 64 ->
  let es := snd (execution pool t0 t1 ls hostname rid tid start writes err) in
  lines es = map Z.of_nat (seq 0 (length es)) /\
  (is_Some start ->
   statuses es = ["CMD"] ++ repeat "RUN" (newlines (concat writes)) ++ ["END"]).
Proof.
  intros Hrel Hbound es.
  destruct (execution_events pool t0 t1 ls hostname rid tid start writes err Hrel)
    as (Hs & _ & Hc & _).
  fold es in Hs, Hc.
  assert (Hlen : (length es <= newlines (concat writes) + 2)%nat).
  { unfold statuses in Hs.
    rewrite <- (length_map (fun e => rec_Status (record e)) es), Hs.
    destruct start; simpl; rewrite length_app, repeat_length; simpl; lia. }
  pose proof (newlines_le (concat writes)) as Hle.
  split.
  - rewrite Hc. apply (count_from_exact (length es) 0). lia.
  - intros [p Hp]. subst start. exact Hs.
Qed.

Lemma execution_records_witness :
  released (fst (Get [])) /\
  Z.of_nat (length (concat [[x61; x0a; x62]; [x0a]])) + 2 <= 2 ^ 64 /\
  let es := snd (execution [] 0 1 (Some 0%nat) "host" 1 1 (Some (42, "cmd"))
                   [[x61; x0a; x62]; [x0a]] None) in
  lines es = map Z.of_nat (seq 0 (length es)) /\
  (is_Some (Some (42, "cmd")) ->
   statuses es = ["CMD"] ++ repeat "RUN" (newlines (concat [[x61; x0a; x62]; [x0a]])) ++ ["END"]).
Proof.
  split; [reflexivity|]. split; [vm_compute; discriminate|].
  apply (execution_records [] 0 1 (Some 0%nat) "host" 1 1 (Some (42, "cmd"))
           [[x61; x0a; x62]; [x0a]] None).
  - reflexivity.
  - vm_compute. discriminate.
Defined.

Example execution_records_example :
  let es := snd (execution [] 0 1 (Some 0%nat) "host" 1 1 (Some (42, "cmd"))
                   [[x61; x0a; x62]; [x0a]] None) in
  statuses es = ["CMD"; "RUN"; "RUN"; "END"] /\
  outputs es = ["cmd"; "a"; "b"; ""] /\
  lines es = [0; 1; 2; 3].
Proof. vm_compute. repeat split. Qed.

(* ------------------------------------------------------------------- *)
(** ** Further properties of the reactor log *)
(* ------------------------------------------------------------------- *)

Lemma handleWriteBytes_app (b1 b2 : list byte) : forall rl,
  handleWriteBytes rl (b1 ++ b2) =
  (fst (handleWriteBytes (fst (handleWriteBytes rl b1)) b2),
   snd (handleWriteBytes rl b1) ++
   snd (handleWriteBytes (fst (handleWriteBytes rl b1)) b2)).
Proof.
  induction b1 as [|c b1 IH]; intros rl.
  - cbn [app handleWriteBytes fst snd]. now destruct (handleWriteBytes rl b2).
  - cbn [app handleWriteBytes].
    destruct (if Byte.eqb c (hd x00 newLine) then printJSON rl
              else (set_w (w rl ++ [c]) rl, [])) as [rl1 e1].
    rewrite IH. destruct (handleWriteBytes rl1 b1) as [rl2 e2].
    cbn [fst snd]. destruct (handleWriteBytes rl2 b2) as [rl3 e3].
    cbn [fst snd]. now rewrite app_assoc.
Qed.

Lemma printJSON_flags (rl : ReactorLog) (i : bool) (x : list byte) :
  printJSON (set_initialized i (set_buff x rl)) =
  (set_initialized i (set_buff x (fst (printJSON rl))), snd (printJSON rl)).
Proof. destruct rl. reflexivity. Qed.

(** What [handleWriteBytes] emits does not depend on the staging buffer nor
    on the [initialized] flag, and it changes neither. *)
Lemma handleWriteBytes_flags (b : list byte) : forall rl i x,
  handleWriteBytes (set_initialized i (set_buff x rl)) b =
  (set_initialized i (set_buff x (fst (handleWriteBytes rl b))),
   snd (handleWriteBytes rl b)).
Proof.
  induction b as [|c b IH]; intros rl i x.
  - reflexivity.
  - cbn [handleWriteBytes]. destruct (Byte.eqb c (hd x00 newLine)).
    + rewrite printJSON_flags. destruct (printJSON rl) as [rl1 e1].
      cbn [fst snd]. rewrite IH. now destruct (handleWriteBytes rl1 b).
    + assert (Hw : set_w (w (set_initialized i (set_buff x rl)) ++ [c])
                     (set_initialized i (set_buff x rl))
                   = set_initialized i (set_buff x (set_w (w rl ++ [c]) rl)))
        by (destruct rl; reflexivity).
      rewrite Hw, IH. now destruct (handleWriteBytes (set_w (w rl ++ [c]) rl) b).
Qed.

Lemma set_flags_id (rl : ReactorLog) :
  set_initialized (initialized rl) (set_buff (buff rl) rl) = rl.
Proof. destruct rl. reflexivity. Qed.

Lemma handleWriteBytes_keeps_flags (b : list byte) (rl : ReactorLog) :
  initialized (fst (handleWriteBytes rl b)) = initialized rl /\
  buff (fst (handleWriteBytes rl b)) = buff rl.
Proof.
  destruct (handleWriteBytes_emits b rl) as [Hf _].
  unfold frame in Hf. tauto.
Qed.

(** X1.  [Write] keeps the contract of an [io.Writer] that never fails:
    before and after [Start], whatever the log and the bytes, it reports
    all of [b] written and a nil error. *)
Theorem Write_reports_all_written (rl : ReactorLog) (b : list byte) :
  snd (fst (Write rl b)) = (Z.of_nat (length b), None).
Proof.
  destruct (initialized rl) eqn:Hi.
  - unfold Write. rewrite Hi. cbn [negb].
    destruct (0 <? Z.of_nat (length (buff rl))).
    + destruct (handleWriteBytes rl (buff rl)) as [rl1 e1].
      now destruct (handleWriteBytes (set_buff [] rl1) b).
    + now destruct (handleWriteBytes rl b).
  - now rewrite Write_not_initialized.
Qed.

(** After [Start], a [Write] treats the staged bytes and the new bytes as
    one stream, and leaves the staging buffer empty. *)
Lemma Write_started (rl : ReactorLog) (b : list byte) :
  initialized rl = true ->
  Write rl b =
  (set_buff [] (fst (handleWriteBytes rl (buff rl ++ b))),
   (Z.of_nat (length b), None),
   snd (handleWriteBytes rl (buff rl ++ b))).
Proof.
  intros Hi. unfold Write. rewrite Hi. cbn [negb].
  destruct (buff rl) as [|c l] eqn:Hb.
  - change (0 <? Z.of_nat (length (@nil byte))) with false.
    cbv beta iota zeta. cbn [app].
    destruct (handleWriteBytes_keeps_flags b rl) as [_ Hb'].
    rewrite Hb in Hb'.
    destruct (handleWriteBytes rl b) as [rl1 e1]. cbn [fst snd] in *.
    f_equal. f_equal. rewrite <- Hb'. now destruct rl1.
  - assert (Hpos : (0 <? Z.of_nat (length (c :: l))) = true)
      by (apply Z.ltb_lt; simpl length; lia).
    rewrite Hpos, handleWriteBytes_app.
    destruct (handleWriteBytes rl (c :: l)) as [rl1 e1]. cbn [fst snd].
    pose proof (handleWriteBytes_flags b rl1 (initialized rl1) []) as H.
    assert (Hs : set_initialized (initialized rl1) (set_buff [] rl1)
                 = set_buff [] rl1) by now destruct rl1.
    rewrite Hs in H. rewrite H.
    destruct (handleWriteBytes_keeps_flags b rl1) as [Hi2 _].
    destruct (handleWriteBytes rl1 b) as [rl2 e2]. cbn [fst snd] in *.
    f_equal. f_equal. rewrite <- Hi2. now destruct rl2.
Qed.

(** Once [Start] was called and the staging buffer is empty, a run of
    writes is one pass of [handleWriteBytes] over the concatenated bytes. *)
Lemma Writes_stream (bs : list (list byte)) (rl : ReactorLog) :
  initialized rl = true ->
  buff rl = [] ->
  Writes rl bs = handleWriteBytes rl (concat bs).
Proof.
  revert rl. induction bs as [|b bs IH]; intros rl Hi Hb.
  - reflexivity.
  - cbn [Writes concat]. rewrite Write_initialized by assumption.
    rewrite handleWriteBytes_app.
    destruct (handleWriteBytes_keeps_flags b rl) as [Hi1 Hb1].
    destruct (handleWriteBytes rl b) as [rl1 e1]. cbn [fst snd] in *.
    rewrite IH by congruence.
    now destruct (handleWriteBytes rl1 (concat bs)).
Qed.

(** X2.  Once [Start] was called and the staging buffer is empty, only the
    stream of bytes matters, not how the process output is cut into [Write]
    calls: two runs of writes that carry the same bytes leave the same log
    and emit the same records. *)
Theorem Writes_chunking (bs bs' : list (list byte)) (rl : ReactorLog) :
  initialized rl = true ->
  buff rl = [] ->
  concat bs = concat bs' ->
  Writes rl bs = Writes rl bs'.
Proof.
  intros Hi Hb Hc.
  now rewrite (Writes_stream bs rl Hi Hb), (Writes_stream bs' rl Hi Hb), Hc.
Qed.

Lemma Writes_chunking_witness :
  let rl := fst (Start New 42 "cmd") in
  initialized rl = true /\
  buff rl = [] /\
  concat [[x61]; [x62; x0a; x63]; [x0a]] = concat [[x61; x62; x0a]; [x63; x0a]] /\
  Writes rl [[x61]; [x62; x0a; x63]; [x0a]] =
  Writes rl [[x61; x62; x0a]; [x63; x0a]].
Proof.
  split; [reflexivity|]. split; [reflexivity|]. split; [reflexivity|].
  exact (Writes_chunking [[x61]; [x62; x0a; x63]; [x0a]]
           [[x61; x62; x0a]; [x63; x0a]]
           (fst (Start New 42 "cmd")) eq_refl eq_refl eq_refl).
Defined.

(** *** The records of an execution, in full *)

(** The log right after [NewReactorLog] and [Start], and the log right
    after [NewReactorLog] alone with the flag set. *)
Definition started_log (t0 : Z) (ls : option LogStream) (hostname : string)
    (rid tid pid : Z) : ReactorLog :=
  mkReactorLog hostname "" pid rid tid (Go.uint64_wrap (0 + 1)) "" "RUN" ""
    0 (Go.Unix t0) t0 [] ls true [].

Definition idle_log (t0 : Z) (ls : option LogStream) (hostname : string)
    (rid tid : Z) : ReactorLog :=
  mkReactorLog hostname "" 0 rid tid 0 "" "" "" 0 (Go.Unix t0) t0 [] ls true [].

(** The record [Start] emits. *)
Definition cmd_event (t0 : Z) (ls : option LogStream) (hostname : string)
    (rid tid pid : Z) (cmd : string) : Emitted :=
  mkEmitted
    (mkLogRecord hostname "" pid rid tid 0 cmd "CMD" "" 0 (Go.Unix t0)) ls.

Lemma end_record_flags (now : Z) (rl : ReactorLog) (i : bool) (x : list byte)
    (err : option string) :
  end_record now (set_initialized i (set_buff x rl)) err = end_record now rl err /\
  logStream (set_initialized i (set_buff x rl)) = logStream rl.
Proof. destruct rl. split; reflexivity. Qed.

Lemma handleWriteBytes_logStream (b : list byte) (rl : ReactorLog) :
  logStream (fst (handleWriteBytes rl b)) = logStream rl.
Proof.
  destruct (handleWriteBytes_emits b rl) as [Hf _]. unfold frame in Hf. tauto.
Qed.

(** The records of one execution, whatever released object the pool hands
    out: the record of [Start] if it was called, the records of one pass over
    the written bytes, the final record. *)
Lemma execution_normal (pool : list ReactorLog) (t0 t1 : Z)
    (ls : option LogStream) (hostname : string) (rid tid : Z)
    (start : option (Z * string)) (writes : list (list byte))
    (err : option string) :
  released (fst (Get pool)) ->
  snd (execution pool t0 t1 ls hostname rid tid start writes err) =
  let base := match start with
              | Some (pid, _) => started_log t0 ls hostname rid tid pid
              | None => idle_log t0 ls hostname rid tid
              end in
  let r := handleWriteBytes base (concat writes) in
  match start with
  | Some (pid, cmd) => [cmd_event t0 ls hostname rid tid pid cmd]
  | None => []
  end ++ snd r ++ [mkEmitted (end_record t1 (fst r) err) ls].
Proof.
  intros Hrel. unfold execution.
  rewrite (NewReactorLog_released _ _ _ _ _ _ Hrel).
  set (pool' := snd (Get pool)).
  destruct start as [[pid cmd]|].
  - rewrite Start_eq.
    cbn [Host Label Pid RID TID Line Output Status Error Elapse Timestamp st w
         logStream initialized buff app].
    rewrite string_of_list_byte_of_string.
    fold (started_log t0 ls hostname rid tid pid).
    fold (cmd_event t0 ls hostname rid tid pid cmd).
    rewrite (Writes_stream writes (started_log t0 ls hostname rid tid pid)
               eq_refl eq_refl).
    destruct (handleWriteBytes_keeps_flags (concat writes)
                (started_log t0 ls hostname rid tid pid)) as [Hi _].
    pose proof (handleWriteBytes_logStream (concat writes)
                  (started_log t0 ls hostname rid tid pid)) as Hls.
    destruct (handleWriteBytes (started_log t0 ls hostname rid tid pid)
                (concat writes)) as [rl2 e2].
    cbn [fst snd] in *.
    pose proof (Done_events pool' t1 rl2 err) as HD.
    rewrite Hi in HD.
    change (initialized (started_log t0 ls hostname rid tid pid)) with true
      in HD.
    cbn [negb fst snd app] in HD. rewrite Hls in HD.
    destruct (Done pool' t1 rl2 err) as [pool2 e3]. cbn [snd] in *.
    now subst e3.
  - destruct (initialized (fst (Get pool))) eqn:Hi0.
    + fold (idle_log t0 ls hostname rid tid).
      rewrite (Writes_stream writes (idle_log t0 ls hostname rid tid)
                 eq_refl eq_refl).
      destruct (handleWriteBytes_keeps_flags (concat writes)
                  (idle_log t0 ls hostname rid tid)) as [Hi _].
      pose proof (handleWriteBytes_logStream (concat writes)
                    (idle_log t0 ls hostname rid tid)) as Hls.
      destruct (handleWriteBytes (idle_log t0 ls hostname rid tid)
                  (concat writes)) as [rl2 e2].
      cbn [fst snd] in *.
      pose proof (Done_events pool' t1 rl2 err) as HD.
      rewrite Hi in HD.
      change (initialized (idle_log t0 ls hostname rid tid)) with true in HD.
      cbn [negb fst snd app] in HD. rewrite Hls in HD.
      destruct (Done pool' t1 rl2 err) as [pool2 e3]. cbn [snd app] in *.
      now subst e3.
    + rewrite Writes_not_initialized by reflexivity.
      cbn [buff app set_buff].
      change (mkReactorLog hostname "" 0 rid tid 0 "" "" "" 0 (Go.Unix t0) t0
                [] ls false (concat writes))
        with (set_initialized false
                (set_buff (concat writes) (idle_log t0 ls hostname rid tid))).
      match goal with |- context [Done pool' t1 ?r err] => set (rl1 := r) end.
      pose proof (Done_events pool' t1 rl1 err) as HD.
      change (initialized rl1) with false in HD.
      change (buff rl1) with (concat writes) in HD.
      cbn [negb] in HD. unfold rl1 in HD.
      rewrite handleWriteBytes_flags in HD. cbn [fst snd] in HD.
      destruct (end_record_flags t1
                  (fst (handleWriteBytes (idle_log t0 ls hostname rid tid)
                          (concat writes)))
                  false (concat writes) err) as [He Hl].
      rewrite He, Hl, handleWriteBytes_logStream in HD.
      fold rl1 in HD.
      destruct (Done pool' t1 rl1 err) as [pool2 e3]. cbn [snd app] in *.
      exact HD.
Qed.


(** ** The pooled object cannot be told from a new one by a started
    execution *)

(** X3.  The records of an execution do not depend on which released object
    the pool hands out: with [Start] called before the writes or not called at
    all, a reused object (whatever its [initialized] flag and old start time)
    yields the records a new object yields. *)
Theorem execution_any_pooled_object (pool1 pool2 : list ReactorLog)
    (t0 t1 : Z) (ls : option LogStream) (hostname : string) (rid tid : Z)
    (start : option (Z * string)) (writes : list (list byte))
    (err : option string) :
  released (fst (Get pool1)) ->
  released (fst (Get pool2)) ->
  snd (execution pool1 t0 t1 ls hostname rid tid start writes err) =
  snd (execution pool2 t0 t1 ls hostname rid tid start writes err).
Proof.
  intros H1 H2.
  now rewrite (execution_normal pool1 _ _ _ _ _ _ _ _ _ H1),
              (execution_normal pool2 _ _ _ _ _ _ _ _ _ H2).
Qed.

Lemma execution_any_pooled_object_witness :
  released (fst (Get started_then_done)) /\
  released (fst (Get [])) /\
  snd (execution started_then_done 5 9 (Some 0%nat) "host" 1 2 None
         [[x61; x0a; x62]] (Some "exit status 1")) =
  snd (execution [] 5 9 (Some 0%nat) "host" 1 2 None
         [[x61; x0a; x62]] (Some "exit status 1")).
Proof.
  split; [reflexivity|]. split; [reflexivity|].
  exact (execution_any_pooled_object started_then_done [] 5 9 (Some 0%nat)
           "host" 1 2 None [[x61; x0a; x62]] (Some "exit status 1")
           eq_refl eq_refl).
Defined.

(** ** What every record carries *)

(** The fields a record emitted from the log [rl] takes from it unchanged. *)
Definition stamped (rl : ReactorLog) (e : Emitted) : Prop :=
  rec_Host (record e) = Host rl /\ rec_Label (record e) = Label rl /\
  rec_Pid (record e) = Pid rl /\ rec_RID (record e) = RID rl /\
  rec_TID (record e) = TID rl /\ rec_Status (record e) = Status rl /\
  rec_Error (record e) = Error rl /\ rec_Elapse (record e) = Elapse rl /\
  rec_Timestamp (record e) = Timestamp rl /\ sent e = logStream rl.

Lemma handleWriteBytes_stamped (b : list byte) : forall rl,
  Forall (stamped rl) (snd (handleWriteBytes rl b)).
Proof.
  induction b as [|c b IH]; intros rl; cbn [handleWriteBytes].
  - constructor.
  - destruct (Byte.eqb c (hd x00 newLine)).
    + rewrite printJSON_eq.
      specialize (IH (set_Line (Go.uint64_wrap (Line rl + 1))
                        (set_Output "" (set_w [] rl)))).
      destruct (handleWriteBytes _ b) as [rl2 e2]. cbn [snd app] in *.
      constructor.
      * destruct rl. unfold stamped. cbn. tauto.
      * revert IH. apply List.Forall_impl. intros e.
        destruct rl. unfold stamped. cbn. tauto.
    + specialize (IH (set_w (w rl ++ [c]) rl)).
      destruct (handleWriteBytes _ b) as [rl2 e2]. cbn [snd app] in *.
      revert IH. apply List.Forall_impl. intros e.
      destruct rl. unfold stamped. cbn. tauto.
Qed.

Lemma handleWriteBytes_frame (b : list byte) (rl : ReactorLog) :
  frame rl (fst (handleWriteBytes rl b)).
Proof. now destruct (handleWriteBytes_emits b rl) as [Hf _]. Qed.



(** X5.  The error and the elapsed time are reported on the final record
    only: every record before it has an empty Error and a zero Elapse; the
    final one has the message of the error given to [Done] (empty for a nil
    error) and the time from the creation of the log to [Done]. *)
Theorem execution_error_on_END_only (pool : list ReactorLog) (t0 t1 : Z)
    (ls : option LogStream) (hostname : string) (rid tid : Z)
    (start : option (Z * string)) (writes : list (list byte))
    (err : option string) :
  released (fst (Get pool)) ->
  exists body last,
    snd (execution pool t0 t1 ls hostname rid tid start writes err) =
      body ++ [last] /\
    Forall (fun e => rec_Error (record e) = "" /\ rec_Elapse (record e) = 0)
      body /\
    rec_Status (record last) = "END" /\
    rec_Error (record last) = match err with Some msg => msg | None => "" end /\
    rec_Elapse (record last) = Go.Sub t1 t0.
Proof.
  intros Hrel. rewrite (execution_normal _ _ _ _ _ _ _ _ _ _ Hrel).
  cbv zeta.
  set (base := match start with
               | Some (pid, _) => started_log t0 ls hostname rid tid pid
               | None => idle_log t0 ls hostname rid tid
               end).
  assert (Hbase : Error base = "" /\ Elapse base = 0 /\ st base = t0).
  { unfold base. destruct start as [[pid cmd]|]; cbn; tauto. }
  pose proof (handleWriteBytes_stamped (concat writes) base) as Hst.
  pose proof (handleWriteBytes_frame (concat writes) base) as Hf.
  destruct (handleWriteBytes base (concat writes)) as [rl2 e2].
  cbn [fst snd] in *.
  eexists (_ ++ e2), _. split; [now rewrite <- app_assoc|].
  split; [|split; [|split]].
  - apply Forall_app. split.
    + destruct start as [[pid cmd]|]; constructor; [|constructor].
      cbn. tauto.
    + revert Hst. apply List.Forall_impl. intros e. unfold stamped.
      intuition congruence.
  - reflexivity.
  - unfold frame in Hf. cbn. destruct err; [reflexivity|]. intuition congruence.
  - unfold frame in Hf. cbn. f_equal. intuition congruence.
Qed.

Lemma execution_error_on_END_only_witness :
  released (fst (Get [])) /\
  exists body last,
    snd (execution [] 5 9 (Some 0%nat) "host" 3 4 (Some (42, "cmd"))
           [[x61; x0a; x62]] (Some "exit status 1")) = body ++ [last] /\
    Forall (fun e => rec_Error (record e) = "" /\ rec_Elapse (record e) = 0)
      body /\
    rec_Status (record last) = "END" /\
    rec_Error (record last) = "exit status 1" /\
    rec_Elapse (record last) = Go.Sub 9 5.
Proof.
  split; [reflexivity|].
  exact (execution_error_on_END_only [] 5 9 (Some 0%nat) "host" 3 4
           (Some (42, "cmd")) [[x61; x0a; x62]] (Some "exit status 1")
           eq_refl).
Defined.

(** ** No byte of the output is lost *)

(** The bytes a sequence of outputs stands for: the outputs separated by
    newlines. *)
Fixpoint unlines (outs : list string) : list byte :=
  match outs with
  | [] => []
  | o :: outs' =>
      match outs' with
      | [] => bytes o
      | _ :: _ => bytes o ++ x0a :: unlines outs'
      end
  end.

Lemma split_lines_join (b : list byte) : forall acc,
  concat (map (fun l => l ++ [x0a]) (fst (split_lines acc b))) ++
  snd (split_lines acc b) = acc ++ b.
Proof.
  induction b as [|c b IH]; intros acc; cbn [split_lines].
  - cbn. now rewrite app_nil_r.
  - destruct (Byte.eqb c x0a) eqn:Ec.
    + apply Byte.byte_dec_bl in Ec. subst c.
      cbn [fst snd map concat]. rewrite <- !app_assoc.
      rewrite (IH []). reflexivity.
    + rewrite IH. now rewrite <- app_assoc.
Qed.

Lemma unlines_lines (ls : list (list byte)) (t : list byte) :
  unlines (map string_of_list_byte (ls ++ [t])) =
  concat (map (fun l => l ++ [x0a]) ls) ++ t.
Proof.
  induction ls as [|l ls IH].
  - cbn. unfold bytes. apply list_byte_of_string_of_list_byte.
  - cbn [app map concat].
    assert (Hne : map string_of_list_byte (ls ++ [t]) <> [])
      by (destruct ls; discriminate).
    destruct (map string_of_list_byte (ls ++ [t])) as [|o outs];
      [congruence|].
    change (unlines (string_of_list_byte l :: o :: outs))
      with (bytes (string_of_list_byte l) ++ x0a :: unlines (o :: outs)).
    rewrite IH. unfold bytes.
    rewrite list_byte_of_string_of_list_byte, <- !app_assoc.
    reflexivity.
Qed.

Lemma split_lines_clean (b : list byte) : forall acc,
  newlines acc = O ->
  Forall (fun l => newlines l = O) (fst (split_lines acc b)) /\
  newlines (snd (split_lines acc b)) = O.
Proof.
  induction b as [|c b IH]; intros acc Hacc; cbn [split_lines].
  - split; [constructor|exact Hacc].
  - destruct (Byte.eqb c x0a) eqn:Ec.
    + destruct (IH [] eq_refl) as [H1 H2]. cbn [fst snd].
      split; [constructor; assumption|exact H2].
    + apply IH. rewrite newlines_app. cbn [newlines]. rewrite Ec. lia.
Qed.

(** X6.  In an execution in which [Start], if it is called, precedes every
    [Write] (creation, [Start] or not, then the writes, then [Done]), the
    outputs of the records, the command of the CMD record put aside, are the
    written bytes cut at the newlines: joined by newlines they give back
    exactly the bytes written, in order, and none of them holds a newline.
    (What becomes of bytes written before [Start] is the subject of X8 and
    X9.) *)
Theorem execution_outputs_round_trip (pool : list ReactorLog) (t0 t1 : Z)
    (ls : option LogStream) (hostname : string) (rid tid : Z)
    (start : option (Z * string)) (writes : list (list byte))
    (err : option string) :
  released (fst (Get pool)) ->
  let outs := outputs (snd (execution pool t0 t1 ls hostname rid tid start
                              writes err)) in
  let outs := match start with Some _ => tl outs | None => outs end in
  unlines outs = concat writes /\
  Forall (fun o => newlines (bytes o) = O) outs.
Proof.
  intros Hrel.
  destruct (execution_events pool t0 t1 ls hostname rid tid start writes err
              Hrel) as (_ & Ho & _).
  cbv zeta in *. rewrite Ho.
  set (sl := split_lines [] (concat writes)).
  assert (Hout : match start with
                 | Some _ =>
                     tl (match start with Some (_, s) => [s] | None => [] end ++
                         map string_of_list_byte (fst sl) ++
                         [string_of_list_byte (snd sl)])
                 | None =>
                     match start with Some (_, s) => [s] | None => [] end ++
                     map string_of_list_byte (fst sl) ++
                     [string_of_list_byte (snd sl)]
                 end = map string_of_list_byte (fst sl ++ [snd sl])).
  { rewrite map_app. destruct start as [[pid s]|]; reflexivity. }
  rewrite Hout. split.
  - rewrite unlines_lines. apply (split_lines_join (concat writes) []).
  - destruct (split_lines_clean (concat writes) [] eq_refl) as [H1 H2].
    fold sl in H1, H2.
    apply Forall_map. apply Forall_app. split.
    + revert H1. apply List.Forall_impl. intros l Hl. unfold bytes.
      now rewrite list_byte_of_string_of_list_byte.
    + constructor; [|constructor]. unfold bytes.
      now rewrite list_byte_of_string_of_list_byte.
Qed.

Lemma execution_outputs_round_trip_witness :
  released (fst (Get [])) /\
  let outs := outputs (snd (execution [] 5 9 (Some 0%nat) "host" 3 4
                              (Some (42, "cmd")) [[x61; x0a]; [x0a; x62]] None)) in
  let outs := tl outs in
  unlines outs = concat [[x61; x0a]; [x0a; x62]] /\
  Forall (fun o => newlines (bytes o) = O) outs.
Proof.
  split; [reflexivity|].
  exact (execution_outputs_round_trip [] 5 9 (Some 0%nat) "host" 3 4
           (Some (42, "cmd")) [[x61; x0a]; [x0a; x62]] None eq_refl).
Defined.

(** ** The pool across executions *)

Lemma reset_fields_eq (rl : ReactorLog) :
  reset_fields rl =
  mkReactorLog "" "" 0 0 0 0 "" "" "" 0 0 (st rl) [] None (initialized rl) [].
Proof. destruct rl. reflexivity. Qed.

Lemma Done_pool_eq (pool : list ReactorLog) (now : Z) (rl : ReactorLog)
    (err : option string) :
  fst (Done pool now rl err) =
  mkReactorLog "" "" 0 0 0 0 "" "" "" 0 0 (st rl) [] None (initialized rl) []
  :: pool.
Proof.
  unfold Done.
  pose proof (handleWriteBytes_frame (buff rl) rl) as Hf.
  destruct (negb (initialized rl)).
  - destruct (handleWriteBytes rl (buff rl)) as [rl1 e1].
    rewrite printJSON_eq. cbn [fst snd] in *. unfold reset, Put.
    rewrite reset_fields_eq. f_equal.
    unfold frame in Hf.
    destruct rl1, err; cbn in *; intuition congruence.
  - rewrite printJSON_eq. cbn [fst]. unfold reset, Put.
    rewrite reset_fields_eq. f_equal.
    destruct rl, err; reflexivity.
Qed.

Lemma Writes_keeps (bs : list (list byte)) : forall rl,
  st (fst (Writes rl bs)) = st rl /\
  initialized (fst (Writes rl bs)) = initialized rl.
Proof.
  induction bs as [|b bs IH]; intros rl; [split; reflexivity|].
  cbn [Writes].
  assert (HW : st (fst (fst (Write rl b))) = st rl /\
               initialized (fst (fst (Write rl b))) = initialized rl).
  { destruct (initialized rl) eqn:Hi.
    - rewrite Write_started by exact Hi. cbn [fst].
      pose proof (handleWriteBytes_frame (buff rl ++ b) rl) as Hf.
      unfold frame in Hf.
      destruct (fst (handleWriteBytes rl (buff rl ++ b))); cbn in *.
      intuition congruence.
    - rewrite Write_not_initialized by exact Hi. cbn [fst].
      destruct rl; cbn in *. now split. }
  destruct (Write rl b) as [[rl1 res] e1]. cbn [fst] in HW.
  specialize (IH rl1). destruct (Writes rl1 bs) as [rl2 e2]. cbn [fst] in *.
  intuition congruence.
Qed.

(** X7.  An execution takes at most one object from the pool and gives
    exactly one back, in the state [reset] leaves; the object given back
    remembers the creation time of this execution, and its [initialized] flag
    is set if this execution called [Start] and is otherwise what the pool
    handed out: once set, the flag of a pooled object is never cleared. *)
Theorem execution_pool (pool : list ReactorLog) (t0 t1 : Z)
    (ls : option LogStream) (hostname : string) (rid tid : Z)
    (start : option (Z * string)) (writes : list (list byte))
    (err : option string) :
  Forall released pool ->
  exists o,
    fst (execution pool t0 t1 ls hostname rid tid start writes err) =
      o :: tl pool /\
    released o /\
    st o = t0 /\
    initialized o =
      match start with
      | Some _ => true
      | None => initialized (fst (Get pool))
      end /\
    Forall released
      (fst (execution pool t0 t1 ls hostname rid tid start writes err)).
Proof.
  intros Hpool.
  pose proof (Get_released pool Hpool) as Hrel.
  assert (Htl : snd (Get pool) = tl pool) by (now destruct pool).
  assert (Htlr : Forall released (tl pool)).
  { destruct pool; [constructor|]. now inversion Hpool. }
  unfold execution. rewrite (NewReactorLog_released _ _ _ _ _ _ Hrel).
  rewrite Htl.
  set (rl0 := mkReactorLog hostname "" 0 rid tid 0 "" "" "" 0 (Go.Unix t0) t0
                [] ls (initialized (fst (Get pool))) []).
  assert (H1 : exists rl1 e1,
             match start with
             | Some (pid, s) => Start rl0 pid s
             | None => (rl0, [])
             end = (rl1, e1) /\ st rl1 = t0 /\
             initialized rl1 = match start with
                               | Some _ => true
                               | None => initialized (fst (Get pool))
                               end).
  { destruct start as [[pid s]|].
    - rewrite Start_eq. eexists _, _. split; [reflexivity|]. now split.
    - eexists _, _. split; [reflexivity|]. now split. }
  destruct H1 as (rl1 & e1 & -> & Hst & Hi).
  destruct (Writes_keeps writes rl1) as [Hst2 Hi2].
  destruct (Writes rl1 writes) as [rl2 e2]. cbn [fst] in *.
  pose proof (Done_pool_eq (tl pool) t1 rl2 err) as HD.
  destruct (Done (tl pool) t1 rl2 err) as [pool2 e3]. cbn [fst] in *.
  subst pool2. eexists. split; [reflexivity|].
  assert (Hr : released
                 (mkReactorLog "" "" 0 0 0 0 "" "" "" 0 0 (st rl2) [] None
                    (initialized rl2) [])) by reflexivity.
  split; [exact Hr|]. split; [cbn; congruence|]. split; [cbn; congruence|].
  constructor; [exact Hr|exact Htlr].
Qed.

Lemma execution_pool_witness :
  Forall released started_then_done /\
  exists o,
    fst (execution started_then_done 5 9 (Some 0%nat) "host" 1 2 None
           [[x61; x0a]] None) = o :: tl started_then_done /\
    released o /\
    st o = 5 /\
    initialized o = initialized (fst (Get started_then_done)) /\
    Forall released
      (fst (execution started_then_done 5 9 (Some 0%nat) "host" 1 2 None
              [[x61; x0a]] None)).
Proof.
  assert (H : Forall released started_then_done).
  { constructor; [reflexivity|constructor]. }
  split; [exact H|].
  exact (execution_pool started_then_done 5 9 (Some 0%nat) "host" 1 2 None
           [[x61; x0a]] None H).
Defined.

(** ** Output written before [Start] *)

(** An execution whose process writes before the worker calls [Start]: the
    log is created, the writes [pre] arrive, [Start] is called, the writes
    [post] arrive, [Done] ends it. *)
Definition execution_early (pool : list ReactorLog) (t0 t1 : Z)
    (ls : option LogStream) (hostname : string) (rid tid : Z)
    (pre : list (list byte)) (pid : Z) (s : string)
    (post : list (list byte)) (err : option string)
  : list ReactorLog * list Emitted :=
  let '(rl, pool) := NewReactorLog pool t0 ls hostname rid tid in
  let '(rl, e0) := Writes rl pre in
  let '(rl, e1) := Start rl pid s in
  let '(rl, e2) := Writes rl post in
  let '(pool, e3) := Done pool t1 rl err in
  (pool, e0 ++ e1 ++ e2 ++ e3).

Lemma set_flags_done (x : list byte) (rl : ReactorLog) :
  initialized rl = true -> buff rl = [] ->
  set_buff [] (set_initialized true (set_buff x rl)) = rl.
Proof. destruct rl. cbn. intros -> ->. reflexivity. Qed.

Lemma execution_early_normal (pool : list ReactorLog) (t0 t1 : Z)
    (ls : option LogStream) (hostname : string) (rid tid : Z)
    (pre : list (list byte)) (pid : Z) (s : string)
    (post : list (list byte)) (err : option string) :
  released (fst (Get pool)) ->
  initialized (fst (Get pool)) = false ->
  snd (execution_early pool t0 t1 ls hostname rid tid pre pid s post err) =
  let base := started_log t0 ls hostname rid tid pid in
  let r := handleWriteBytes base
             (match post with
              | [] => []
              | _ :: _ => concat pre ++ concat post
              end) in
  [cmd_event t0 ls hostname rid tid pid s] ++ snd r ++
  [mkEmitted (end_record t1 (fst r) err) ls].
Proof.
  intros Hrel Hi0. unfold execution_early.
  rewrite (NewReactorLog_released _ _ _ _ _ _ Hrel), Hi0.
  set (pool' := snd (Get pool)).
  rewrite Writes_not_initialized by reflexivity.
  cbn [buff app set_buff].
  rewrite Start_eq.
  cbn [Host Label Pid RID TID Line Output Status Error Elapse Timestamp st w
       logStream initialized buff app].
  rewrite string_of_list_byte_of_string.
  fold (cmd_event t0 ls hostname rid tid pid s).
  set (base := started_log t0 ls hostname rid tid pid).
  change (mkReactorLog hostname "" pid rid tid (Go.uint64_wrap (0 + 1)) ""
            "RUN" "" 0 (Go.Unix t0) t0 [] ls true (concat pre))
    with (set_initialized true (set_buff (concat pre) base)).
  cbv zeta.
  destruct post as [|b bs].
  - cbn [Writes handleWriteBytes fst snd app].
    pose proof (Done_events pool' t1
                  (set_initialized true (set_buff (concat pre) base)) err)
      as HD.
    change (initialized (set_initialized true (set_buff (concat pre) base)))
      with true in HD.
    cbn [negb fst snd app] in HD.
    destruct (end_record_flags t1 base true (concat pre) err) as [He Hl].
    rewrite He, Hl in HD.
    destruct (Done pool' t1 _ err) as [pool2 e3]. cbn [snd] in *.
    now subst e3.
  - cbn [Writes].
    rewrite Write_started by reflexivity.
    change (buff (set_initialized true (set_buff (concat pre) base)))
      with (concat pre).
    rewrite handleWriteBytes_flags. cbn [fst snd].
    destruct (handleWriteBytes_keeps_flags (concat pre ++ b) base) as [Hi1 Hb1].
    rewrite (set_flags_done (concat pre)
               (fst (handleWriteBytes base (concat pre ++ b))) Hi1 Hb1).
    rewrite (Writes_stream bs
               (fst (handleWriteBytes base (concat pre ++ b))) Hi1 Hb1).
    cbn [concat]. rewrite (app_assoc (concat pre) b (concat bs)).
    rewrite (handleWriteBytes_app (concat pre ++ b) (concat bs) base).
    pose proof (handleWriteBytes_logStream (concat pre ++ b) base) as Hls1.
    destruct (handleWriteBytes base (concat pre ++ b)) as [rl1 e1].
    cbn [fst snd] in *.
    destruct (handleWriteBytes_keeps_flags (concat bs) rl1) as [Hi2 _].
    pose proof (handleWriteBytes_logStream (concat bs) rl1) as Hls2.
    destruct (handleWriteBytes rl1 (concat bs)) as [rl2 e2].
    cbn [fst snd] in *.
    pose proof (Done_events pool' t1 rl2 err) as HD.
    rewrite Hi2, Hi1 in HD. change (initialized base) with true in HD.
    cbn [negb fst snd app] in HD.
    assert (Hls : logStream rl2 = ls).
    { rewrite Hls2, Hls1. reflexivity. }
    rewrite Hls in HD.
    destruct (Done pool' t1 rl2 err) as [pool2 e3]. cbn [snd] in *.
    subst e3. cbn [app]. reflexivity.
Qed.

(** X8.  Output written before [Start] is held back and reported after the
    CMD record as soon as one more [Write] arrives (even an empty one): the
    records are those of the execution in which all the writes were made
    after [Start].  The pool hands out an object whose flag is clear. *)
Theorem early_output_follows_CMD (pool : list ReactorLog) (t0 t1 : Z)
    (ls : option LogStream) (hostname : string) (rid tid : Z)
    (pre : list (list byte)) (pid : Z) (s : string)
    (post : list (list byte)) (err : option string) :
  released (fst (Get pool)) ->
  initialized (fst (Get pool)) = false ->
  post <> [] ->
  snd (execution_early pool t0 t1 ls hostname rid tid pre pid s post err) =
  snd (execution pool t0 t1 ls hostname rid tid (Some (pid, s)) (pre ++ post)
         err).
Proof.
  intros Hrel Hi0 Hpost.
  rewrite (execution_early_normal _ _ _ _ _ _ _ _ _ _ _ _ Hrel Hi0).
  rewrite (execution_normal _ _ _ _ _ _ _ _ _ _ Hrel).
  rewrite concat_app.
  destruct post as [|b bs]; [congruence|reflexivity].
Qed.

Lemma early_output_follows_CMD_witness :
  released (fst (Get [])) /\
  initialized (fst (Get [])) = false /\
  [[x62; x0a]] <> [] /\
  snd (execution_early [] 5 9 (Some 0%nat) "host" 3 4 [[x61; x0a]] 42 "cmd"
         [[x62; x0a]] None) =
  snd (execution [] 5 9 (Some 0%nat) "host" 3 4 (Some (42, "cmd"))
         ([[x61; x0a]] ++ [[x62; x0a]]) None).
Proof.
  split; [reflexivity|]. split; [reflexivity|]. split; [discriminate|].
  exact (early_output_follows_CMD [] 5 9 (Some 0%nat) "host" 3 4 [[x61; x0a]]
           42 "cmd" [[x62; x0a]] None eq_refl eq_refl
           ltac:(discriminate)).
Defined.

(** X9.  On a log that the pool hands out with its [initialized] flag
    clear (a new object, or one released by executions that never called
    [Start]), output written before [Start] is lost when no [Write] follows
    [Start]: the bytes are staged, [Done] flushes the staging buffer only
    when [Start] was never called, and [reset] then empties it.  The records
    are the CMD and END records of an execution that wrote nothing.  (On an
    object released with the flag set the bytes are not staged but emitted
    at once, see C4 and C7.) *)
Theorem early_output_lost_without_later_Write (pool : list ReactorLog)
    (t0 t1 : Z) (ls : option LogStream) (hostname : string) (rid tid : Z)
    (pre : list (list byte)) (pid : Z) (s : string) (err : option string) :
  released (fst (Get pool)) ->
  initialized (fst (Get pool)) = false ->
  let es := snd (execution_early pool t0 t1 ls hostname rid tid pre pid s []
                   err) in
  es = snd (execution pool t0 t1 ls hostname rid tid (Some (pid, s)) [] err) /\
  statuses es = ["CMD"; "END"] /\
  outputs es = [s; ""].
Proof.
  intros Hrel Hi0.
  rewrite (execution_early_normal _ _ _ _ _ _ _ _ _ _ _ _ Hrel Hi0).
  rewrite (execution_normal _ _ _ _ _ _ _ _ _ _ Hrel).
  cbn. repeat split.
Qed.

Lemma early_output_lost_without_later_Write_witness :
  released (fst (Get [])) /\
  initialized (fst (Get [])) = false /\
  let es := snd (execution_early [] 5 9 (Some 0%nat) "host" 3 4
                   [[x61; x0a; x62]] 42 "cmd" [] None) in
  es = snd (execution [] 5 9 (Some 0%nat) "host" 3 4 (Some (42, "cmd")) []
              None) /\
  statuses es = ["CMD"; "END"] /\
  outputs es = ["cmd"; ""].
Proof.
  split; [reflexivity|]. split; [reflexivity|].
  exact (early_output_lost_without_later_Write [] 5 9 (Some 0%nat) "host" 3 4
           [[x61; x0a; x62]] 42 "cmd" None eq_refl eq_refl).
Defined.

(** ** Output written before [Start] on a reused log *)

(** C7.  The second execution on a log that an execution with [Start]
    released, with output written before this execution's [Start]: creation,
    one [Write], [Start], [Done].  The pool hands the object out with
    [initialized] still set, so the line written before [Start] is not
    staged but emitted at once, with an empty status and ahead of the CMD
    record: the records of the execution do not start with the CMD record.
    A partial line written before [Start] is not staged either; it stays in
    the line accumulator and comes out as the head of the CMD record's
    output. *)
Lemma early_Write_on_reused_log_precedes_CMD :
  let es := snd (execution_early started_then_done 2 3 (Some 0%nat) "host" 1 2
                   [[x6f; x6f; x70; x73; x0a]] 42 "cmd" [] None) in
  let es' := snd (execution_early started_then_done 2 3 (Some 0%nat) "host" 1 2
                    [[x61]] 42 "cmd" [] None) in
  initialized (fst (Get started_then_done)) = true /\
  statuses es = [""; "CMD"; "END"] /\
  outputs es = ["oops"; "cmd"; ""] /\
  lines es = [0; 1; 2] /\
  statuses es' = ["CMD"; "END"] /\
  outputs es' = ["acmd"; ""].
Proof. vm_compute. repeat split. Qed.

(** The same execution on a new log: the line is staged, and lost. *)
Example early_Write_on_new_log :
  let es := snd (execution_early [] 2 3 (Some 0%nat) "host" 1 2
                   [[x6f; x6f; x70; x73; x0a]] 42 "cmd" [] None) in
  statuses es = ["CMD"; "END"] /\ outputs es = ["cmd"; ""].
Proof. vm_compute. split; reflexivity. Qed.

End Lib.

(* ===================================================================== *)
(** * inputs/sqs/pool.go *)
(* ===================================================================== *)

Module Sqs.

(** ** What the file imports *)

(** The JSON types of a decoded value. *)
Inductive jsonKind :=
  JSONString | JSONNumber | JSONBool | JSONNull | JSONArray | JSONObject.

(** A [gabs.Container] wrapping a decoded JSON value: the type of the value,
    the text its [String] method returns (the value serialised as JSON), and
    the containers [Search] finds under a name, for the names under which it
    finds one. *)
Local Unset Elimination Schemes.
Inductive Container :=
  mkContainer (kind : jsonKind) (text : string)
    (children : list (string * Container)).
Local Set Elimination Schemes.

Definition kind_of (c : Container) : jsonKind :=
  let 'mkContainer k _ _ := c in k.

Definition children_of (c : Container) : list (string * Container) :=
  let 'mkContainer _ _ ch := c in ch.

(** [g.Search(name)]; [None] is the nil container. *)
Fixpoint assoc (name : string) (l : list (string * Container))
  : option Container :=
  match l with
  | [] => None
  | (k, v) :: l' => if String.eqb k name then Some v else assoc name l'
  end.

Definition Search (g : Container) (name : string) : option Container :=
  assoc name (children_of g).

(** [g.Exists(name)]: [Search] finds a container. *)
Definition Exists (g : Container) (name : string) : bool :=
  match Search g name with
  | Some _ => true
  | None => false
  end.

(** [g.S(name)] is [g.Search(name)]. *)
Definition S (g : Container) (name : string) : option Container :=
  Search g name.

(** [g.String()]; a nil container prints as an empty object. *)
Definition String_ (g : option Container) : string :=
  match g with
  | Some (mkContainer _ t _) => t
  | None => "{}"
  end.

(** The client of the queue service, [*sqs.SQS]. *)
Inductive SQSClient := sqsClient (region : string).

(** [sqs.Message], as [ReceiveMessage] returns it.  An attribute maps to a
    string pointer, [None] when nil. *)
Record Message := mkMessage {
  Attributes : gmap string (option string);
  Body : string;
  MessageId : string;
  MessageReceiptHandle : string
}.

(** [sqs.DeleteMessageBatchRequestEntry]. *)
Record DeleteMessageBatchRequestEntry := mkEntry {
  Id : string;
  ReceiptHandle : string
}.

Definition MessageSystemAttributeNameSentTimestamp : string := "SentTimestamp".

(** [Msg], the message the reactors see. *)
Record Msg := mkMsg {
  SQS : option SQSClient;
  B : list byte;
  M : DeleteMessageBatchRequestEntry;
  MsgURL : string;
  SentTimestamp : Z
}.

Definition set_B (v : list byte) (m : Msg) : Msg :=
  mkMsg (SQS m) v (M m) (MsgURL m) (SentTimestamp m).

(** A value of the interface [lib.Msg]: a [*Msg] of this package, or a
    message of another input. *)
Inductive libMsg :=
  | SqsMsg (m : Msg)
  | ForeignMsg.

(** Modelled from the spec: the type [reactor.Reactor] is declared outside
    the three files.  The dispatcher reads its [Concurrent] setting, asks
    [MatchConditions] (an error, here [Some], rejects the message; nil, here
    [None], accepts it) and sends on its channel [Ch].  [ReactorId] stands
    for the identity of the pointer. *)
Record Reactor := mkReactor {
  ReactorId : nat;
  Concurrent : Z;
  MatchConditions : Msg -> option string
}.

(** What the dispatcher does to the outside world:
    - [DeleteMessage async url handle]: a call of the client's
      [DeleteMessage] for the queue [url] and the receipt handle [handle],
      made by the caller itself or, when [async], from a goroutine started
      with [go];
    - [Handoff r m]: a permit of the semaphore was taken and a goroutine
      started that sends [m] on the channel of reactor [r] and returns the
      permit. *)
Inductive Effect :=
  | DeleteMessage (async : bool) (QueueUrl handle : string)
  | Handoff (r : nat) (m : Msg).

(** [sqsListen].  [broadcastCh] is the [sync.Map] from reactors to their
    concurrency, in the order [Range] visits it; [pendings] and [messError]
    are the two Go maps; [maxQueuedMessages] is the limit of the semaphore. *)
Record sqsListen := mkSqsListen {
  URL : string;
  Region : string;
  Profile : string;
  MaxNumberOfMessages : Z;
  svc : option SQSClient;
  exiting : Z;
  broadcastCh : list (Reactor * Z);
  pendings : gmap string Z;
  messError : gmap string bool;
  maxQueuedMessages : Z
}.

Definition set_pendings (v : gmap string Z) (p : sqsListen) : sqsListen :=
  mkSqsListen (URL p) (Region p) (Profile p) (MaxNumberOfMessages p) (svc p)
    (exiting p) (broadcastCh p) v (messError p) (maxQueuedMessages p).

Definition set_messError (v : gmap string bool) (p : sqsListen) : sqsListen :=
  mkSqsListen (URL p) (Region p) (Profile p) (MaxNumberOfMessages p) (svc p)
    (exiting p) (broadcastCh p) (pendings p) v (maxQueuedMessages p).

(** ** The dispatcher *)

(** [p.delete(v)]: the client's [DeleteMessage] is called unless the message
    is not a [*Msg] or carries no client. *)
Definition p_delete (async : bool) (v : libMsg) : list Effect :=
  match v with
  | ForeignMsg => []
  | SqsMsg msg =>
      match SQS msg with
      | None => []
      | Some _ => [DeleteMessage async (MsgURL msg) (ReceiptHandle (M msg))]
      end
  end.

(** [p.addPending(m)]. *)
Definition addPending (p : sqsListen) (m : libMsg) : sqsListen :=
  match m with
  | ForeignMsg => p
  | SqsMsg msg =>
      let id := ReceiptHandle (M msg) in
      let v := match pendings p !! id with
               | Some v => Go.int64_wrap (v + 1)
               | None => 1
               end in
      set_pendings (<[id := v]> (pendings p)) p
  end.

(** [p.Done(m, statusOk)]. *)
Definition Done (p : sqsListen) (m : libMsg) (statusOk : bool)
  : sqsListen * list Effect :=
  match m with
  | ForeignMsg => (p, [])
  | SqsMsg msg =>
      let id := ReceiptHandle (M msg) in
      match pendings p !! id with
      | None => (p, [])
      | Some v =>
          let v := Go.int64_wrap (v - 1) in
          let p := set_pendings (<[id := v]> (pendings p)) p in
          let p := if negb statusOk
                   then set_messError (<[id := true]> (messError p)) p
                   else p in
          if v <=? 0 then
            let p := set_pendings (delete id (pendings p)) p in
            match messError p !! id with
            | None => (p, p_delete true m)
            | Some _ => (p, [])
            end
          else (p, [])
      end
  end.

Section Deliver.

(** [gabs.ParseJSON]: the container of the decoded document, [None] when the
    bytes are not JSON. *)
Variable ParseJSON : list byte -> option Container.

(** The first part of [deliver]: the [Msg] built from a received message,
    with the envelope unwrapped. *)
Definition newMsg (p : sqsListen) (msg : Message) : Msg :=
  let sentTimestamp :=
    match Attributes msg !! MessageSystemAttributeNameSentTimestamp with
    | Some (Some timestamp) => fst (Go.ParseInt timestamp)
    | _ => 0
    end in
  let m := mkMsg (svc p) (list_byte_of_string (Body msg))
             (mkEntry (MessageId msg) (MessageReceiptHandle msg))
             (URL p) sentTimestamp in
  match ParseJSON (B m) with
  | Some jsonParsed =>
      if Exists jsonParsed "Message" then
        let s := Go.Replace (String_ (S jsonParsed "Message"))
                   (Go.backslash +:+ Go.quote) Go.quote in
        let s := Go.TrimPrefix s Go.quote in
        let s := Go.TrimSuffix s Go.quote in
        set_B (list_byte_of_string s) m
      else m
  | None => m
  end.

(** One round of the [Range] over [broadcastCh]. *)
Definition offer (m : Msg) (acc : sqsListen * bool * list Effect)
    (kv : Reactor * Z) : sqsListen * bool * list Effect :=
  let '(p, atLeastOneValid, effs) := acc in
  match MatchConditions (fst kv) m with
  | Some _ => acc
  | None =>
      (addPending p (SqsMsg m), true, effs ++ [Handoff (ReactorId (fst kv)) m])
  end.

(** [p.deliver(msg)]. *)
Definition deliver (p : sqsListen) (msg : Message) : sqsListen * list Effect :=
  let m := newMsg p msg in
  let '(p', atLeastOneValid, effs) :=
    fold_left (offer m) (broadcastCh p) (p, false, []) in
  if negb atLeastOneValid
  then (p', effs ++ p_delete false (SqsMsg m))
  else (p', effs).

(** ** Sequences of calls *)

(** The calls made on one dispatcher, in the order they take effect.  Each
    call runs to its end before the next starts: [Done] holds the
    dispatcher's lock for its whole body, and [deliver], called from the one
    receive loop, is taken as a single step here.  [deliver] itself holds
    the lock only inside [addPending]: a [Done] that takes effect while
    [deliver] is still visiting the reactors is a schedule of [sched],
    below, and not a sequence of calls of this kind. *)
Inductive Call :=
  | CallDeliver (msg : Message)
  | CallDone (m : libMsg) (statusOk : bool).

Definition step (p : sqsListen) (c : Call) : sqsListen * list Effect :=
  match c with
  | CallDeliver msg => deliver p msg
  | CallDone m statusOk => Done p m statusOk
  end.

Fixpoint run (p : sqsListen) (calls : list Call) : sqsListen * list Effect :=
  match calls with
  | [] => (p, [])
  | c :: cs =>
      let '(p1, e1) := step p c in
      let '(p2, e2) := run p1 cs in
      (p2, e1 ++ e2)
  end.

(** The receipt handles passed to the queue's delete. *)
Fixpoint deletes (effs : list Effect) : list string :=
  match effs with
  | [] => []
  | DeleteMessage _ _ h :: effs' => h :: deletes effs'
  | Handoff _ _ :: effs' => deletes effs'
  end.



Definition accepts (m : Msg) (kv : Reactor * Z) : bool :=
  match MatchConditions (fst kv) m with
  | None => true
  | Some _ => false
  end.

(** The number of reactors that accept a received message. *)
Definition accepted (p : sqsListen) (msg : Message) : nat :=
  length (List.filter (accepts (newMsg p msg)) (broadcastCh p)).


(** ** [Done] *)

(** C10.  A [Done] call for a message whose receipt handle is not a key of
    [pendings] changes nothing, whatever [statusOk]: the dispatcher is left
    as it was, [pendings] and [messError] included, and no delete is issued. *)
Theorem Done_not_pending (p : sqsListen) (m : Msg) (statusOk : bool) :
  pendings p !! ReceiptHandle (M m) = None ->
  let r := Done p (SqsMsg m) statusOk in
  fst r = p /\
  pendings (fst r) = pendings p /\
  messError (fst r) = messError p /\
  snd r = [].
Proof.
  intros Hnone r. subst r. unfold Done. rewrite Hnone. simpl. repeat split.
Qed.

(** C2 as the claim states it, for a [Done] call that brings the count of
    the receipt handle to zero: the handle leaves [pendings], it leaves
    [messError], and the delete is issued exactly when the handle was not
    marked errored. *)
Definition last_Done_clears_both (p : sqsListen) (m : Msg) (statusOk : bool)
  : Prop :=
  let id := ReceiptHandle (M m) in
  let r := Done p (SqsMsg m) statusOk in
  pendings (fst r) !! id = None /\
  messError (fst r) !! id = None /\
  (snd r = p_delete true (SqsMsg m) <->
   statusOk = true /\ messError p !! id = None).

(** The [Done] call that brings the count of a receipt handle to zero, as
    one equation: [q] is the dispatcher after the update of [messError]. *)
Lemma Done_to_zero (p : sqsListen) (m : Msg) (statusOk : bool) (v : Z) :
  pendings p !! ReceiptHandle (M m) = Some v ->
  Go.int64_wrap (v - 1) = 0 ->
  let id := ReceiptHandle (M m) in
  let q := if statusOk then p
           else set_messError (<[id := true]> (messError p)) p in
  Done p (SqsMsg m) statusOk =
  (set_pendings (delete id (pendings p)) q,
   match messError q !! id with
   | None => p_delete true (SqsMsg m)
   | Some _ => []
   end).
Proof.
  intros Hv Hz id q. subst q id. unfold Done. rewrite Hv, Hz.
  cbn [Z.leb Z.compare].
  destruct statusOk; cbn [negb pendings messError set_pendings set_messError].
  - rewrite delete_insert_eq.
    destruct (messError p !! ReceiptHandle (M m)); reflexivity.
  - rewrite delete_insert_eq, lookup_insert_eq. reflexivity.
Qed.

(** C2, amended.  When a [Done] call brings the count of the receipt handle
    to zero, the handle is removed from [pendings]; [messError] is read but
    nothing is removed from it (it is what it was, with the handle added when
    [statusOk] is false); and the delete is issued from a goroutine exactly
    when [messError] does not hold the handle. *)
Theorem Done_last (p : sqsListen) (m : Msg) (statusOk : bool) (v : Z) :
  pendings p !! ReceiptHandle (M m) = Some v ->
  Go.int64_wrap (v - 1) = 0 ->
  let id := ReceiptHandle (M m) in
  let r := Done p (SqsMsg m) statusOk in
  pendings (fst r) = delete id (pendings p) /\
  messError (fst r) =
    (if statusOk then messError p else <[id := true]> (messError p)) /\
  snd r = match messError (fst r) !! id with
          | None => p_delete true (SqsMsg m)
          | Some _ => []
          end /\
  (messError (fst r) !! id = None <->
   statusOk = true /\ messError p !! id = None).
Proof.
  intros Hv Hz id r. subst r id.
  rewrite (Done_to_zero p m statusOk v Hv Hz). cbn [fst snd].
  destruct statusOk; cbn [pendings messError set_pendings set_messError].
  - split; [reflexivity|]. split; [reflexivity|]. split; [reflexivity|].
    tauto.
  - rewrite lookup_insert_eq.
    split; [reflexivity|]. split; [reflexivity|]. split; [reflexivity|].
    split; [intros H; discriminate H|intros [H _]; discriminate H].
Qed.


(** ** [deliver] *)

Lemma newMsg_meta (p : sqsListen) (msg : Message) :
  SQS (newMsg p msg) = svc p /\
  M (newMsg p msg) = mkEntry (MessageId msg) (MessageReceiptHandle msg) /\
  MsgURL (newMsg p msg) = URL p.
Proof.
  unfold newMsg. simpl.
  destruct (ParseJSON _) as [c|]; [destruct (Exists c "Message")|];
    repeat split.
Qed.


(** The message built depends on the dispatcher through its client and its
    queue URL only. *)
Lemma newMsg_ext (p p' : sqsListen) (msg : Message) :
  svc p' = svc p -> URL p' = URL p -> newMsg p' msg = newMsg p msg.
Proof. intros Hs Hu. unfold newMsg. now rewrite Hs, Hu. Qed.

Lemma offer_rejected (m : Msg) (acc : sqsListen * bool * list Effect)
    (kv : Reactor * Z) :
  accepts m kv = false -> offer m acc kv = acc.
Proof.
  unfold accepts, offer. destruct acc as [[p b] effs].
  destruct (MatchConditions (fst kv) m); [reflexivity|discriminate].
Qed.

Lemma offer_accepted (m : Msg) (p : sqsListen) (b : bool) (effs : list Effect)
    (kv : Reactor * Z) :
  accepts m kv = true ->
  offer m (p, b, effs) kv =
  (addPending p (SqsMsg m), true, effs ++ [Handoff (ReactorId (fst kv)) m]).
Proof.
  unfold accepts, offer.
  destruct (MatchConditions (fst kv) m); [discriminate|reflexivity].
Qed.

Lemma offer_all_rejected (m : Msg) (rs : list (Reactor * Z)) :
  forall acc, length (List.filter (accepts m) rs) = O ->
              fold_left (offer m) rs acc = acc.
Proof.
  induction rs as [|kv rs IH]; intros acc Hc; simpl; [reflexivity|].
  simpl in Hc. destruct (accepts m kv) eqn:Ha; [discriminate|].
  rewrite offer_rejected by exact Ha. apply IH, Hc.
Qed.

(** C9.  A received message that none of the registered reactors accepts is
    deleted by [deliver] itself, before it returns: the one thing [deliver]
    does is the client's [DeleteMessage] for the message's receipt handle,
    and the dispatcher, [pendings] and [messError] included, is left as it
    was. *)
Theorem deliver_no_match (p : sqsListen) (msg : Message) (client : SQSClient) :
  svc p = Some client ->
  accepted p msg = O ->
  let r := deliver p msg in
  snd r = [DeleteMessage false (URL p) (MessageReceiptHandle msg)] /\
  fst r = p /\
  pendings (fst r) = pendings p /\
  messError (fst r) = messError p.
Proof.
  intros Hsvc Hacc r. subst r. unfold deliver.
  unfold accepted in Hacc.
  rewrite offer_all_rejected by exact Hacc. simpl.
  unfold p_delete.
  destruct (newMsg_meta p msg) as (-> & -> & ->). rewrite Hsvc. simpl.
  repeat split.
Qed.

(** ** The pending-reference tracker over a sequence of calls *)




Lemma run_app (c1 c2 : list Call) : forall p,
  run p (c1 ++ c2) =
  (fst (run (fst (run p c1)) c2), snd (run p c1) ++ snd (run (fst (run p c1)) c2)).
Proof.
  induction c1 as [|c c1 IH]; intros p; simpl.
  - now destruct (run p c2).
  - destruct (step p c) as [p1 e1]. rewrite IH.
    destruct (run p1 c1) as [p2 e2]. simpl.
    now rewrite app_assoc.
Qed.



Section Tracker.

(** The dispatcher at the start of the sequence of calls: it holds a queue
    client, and its reactors are few enough for a Go [int] to count them. *)
Variable p0 : sqsListen.
Hypothesis client_present : svc p0 <> None.
Hypothesis reactors_bound : Z.of_nat (length (broadcastCh p0)) <= Go.maxInt64.










Lemma Done_config (p : sqsListen) (m : libMsg) (statusOk : bool) :
  svc (fst (Done p m statusOk)) = svc p /\
  URL (fst (Done p m statusOk)) = URL p /\
  broadcastCh (fst (Done p m statusOk)) = broadcastCh p.
Proof.
  unfold Done. destruct m as [msg|]; [|repeat split].
  destruct (pendings p !! ReceiptHandle (M msg)) as [v|]; [|repeat split].
  destruct statusOk; cbn [negb];
    destruct (Go.int64_wrap (v - 1) <=? 0); cbn [fst]; try (repeat split);
    match goal with
    | |- context [match ?x with Some _ => _ | None => _ end] =>
        destruct x; repeat split
    end.
Qed.












End Tracker.

(** ** The envelope *)

(** The body "parses as JSON with a top-level Message string field". *)
Definition has_string_Message (body : string) : Prop :=
  exists c v, ParseJSON (list_byte_of_string body) = Some c /\
              kind_of c = JSONObject /\
              Search c "Message" = Some v /\
              kind_of v = JSONString.

(** The text of a JSON value with every backslash-quote pair replaced by a
    quote, and one leading and one trailing quote removed. *)
Definition unquote (text : string) : string :=
  Go.TrimSuffix
    (Go.TrimPrefix (Go.Replace text (Go.backslash +:+ Go.quote) Go.quote)
       Go.quote)
    Go.quote.

(** The last character is a backslash. *)
Fixpoint ends_with_backslash (e : string) : bool :=
  match e with
  | EmptyString => false
  | String c e' =>
      match e' with
      | EmptyString => Ascii.eqb c (ascii_of_nat 92)
      | String _ _ => ends_with_backslash e'
      end
  end.

(** C8 as the claim states it: the body is replaced exactly when it is JSON
    with a string field Message, and is the original body otherwise. *)
Definition unwrapped_iff_string_Message (p : sqsListen) (msg : Message)
  : Prop :=
  (has_string_Message (Body msg) ->
   exists c v, ParseJSON (list_byte_of_string (Body msg)) = Some c /\
               Search c "Message" = Some v /\
               B (newMsg p msg) = list_byte_of_string (unquote (String_ (Some v)))) /\
  (~ has_string_Message (Body msg) ->
   B (newMsg p msg) = list_byte_of_string (Body msg)).

(** C8, amended.  The body the reactors see is replaced exactly when the
    received body parses as JSON and the parsed document has an entry
    Message, of whatever JSON type: it is then the JSON text of that entry
    with every backslash-quote pair replaced by a quote and one leading and
    one trailing quote removed.  For every other body it is the original
    body. *)
Theorem envelope_unwrap (p : sqsListen) (msg : Message) :
  B (newMsg p msg) =
  match ParseJSON (list_byte_of_string (Body msg)) with
  | Some jsonParsed =>
      match Search jsonParsed "Message" with
      | Some v => list_byte_of_string (unquote (String_ (Some v)))
      | None => list_byte_of_string (Body msg)
      end
  | None => list_byte_of_string (Body msg)
  end.
Proof.
  unfold newMsg, unquote, Exists, S. cbn [B].
  destruct (ParseJSON (list_byte_of_string (Body msg))) as [c|]; [|reflexivity].
  destruct (Search c "Message") as [v|]; reflexivity.
Qed.

(** *** The envelope of a string *)

Lemma replace_before_quote (n : nat) : forall e : string,
  (String.length e <= n)%nat ->
  ends_with_backslash e = false ->
  Go.replace_from (Go.backslash +:+ Go.quote) Go.quote O (e +:+ Go.quote) =
  Go.replace_from (Go.backslash +:+ Go.quote) Go.quote O e +:+ Go.quote.
Proof.
  induction n as [|n IH]; intros e Hlen Hend.
  - destruct e; [reflexivity|simpl in Hlen; lia].
  - destruct e as [|c [|d e'']]; [reflexivity| |].
    + (* one character, not a backslash *)
      cbn [ends_with_backslash] in Hend.
      rewrite Ascii.eqb_sym in Hend.
      change (String c EmptyString +:+ Go.quote)
        with (String c (String (ascii_of_nat 34) EmptyString)).
      change (Go.backslash +:+ Go.quote)
        with (String (ascii_of_nat 92) (String (ascii_of_nat 34) EmptyString)).
      cbn [Go.replace_from]. unfold Go.HasPrefix. cbn [Go.strip_prefix].
      rewrite Hend. reflexivity.
    + (* two characters or more *)
      assert (IH1 := IH (String d e'') ltac:(simpl in *; lia) Hend).
      assert (IH2 : Go.replace_from (Go.backslash +:+ Go.quote) Go.quote O
                      (e'' +:+ Go.quote) =
                    Go.replace_from (Go.backslash +:+ Go.quote) Go.quote O e''
                      +:+ Go.quote).
      { destruct e'' as [|x e3]; [reflexivity|].
        apply IH; [simpl in *; lia|exact Hend]. }
      change (String c (String d e'') +:+ Go.quote)
        with (String c (String d e'' +:+ Go.quote)).
      cbn [Go.replace_from].
      unfold Go.HasPrefix.
      change (Go.backslash +:+ Go.quote)
        with (String (ascii_of_nat 92) (String (ascii_of_nat 34) EmptyString)) in *.
      change (String d e'' +:+ Go.quote) with (String d (e'' +:+ Go.quote)) in *.
      cbn [Go.strip_prefix].
      destruct (Ascii.eqb (ascii_of_nat 92) c);
        [destruct (Ascii.eqb (ascii_of_nat 34) d)|].
      * cbn [String.length Nat.sub Go.replace_from].
        rewrite IH2. reflexivity.
      * rewrite IH1. reflexivity.
      * rewrite IH1. reflexivity.
Qed.

Lemma TrimSuffix_after (x : string) :
  Go.TrimSuffix (x +:+ Go.quote) Go.quote = x.
Proof.
  induction x as [|c x IH]; [reflexivity|].
  change (String c x +:+ Go.quote) with (String c (x +:+ Go.quote)).
  cbn [Go.TrimSuffix]. rewrite IH.
  assert (Hne : String.eqb (String c (x +:+ Go.quote)) Go.quote = false).
  { apply String.eqb_neq. destruct x; discriminate. }
  now rewrite Hne.
Qed.

(** For the JSON text of a string, a quote, the encoded characters [e] and
    a quote, where [e] does not end in a backslash: what is left is [e] with
    every backslash-quote pair replaced by a quote. *)
Lemma unquote_string (e : string) :
  ends_with_backslash e = false ->
  unquote (Go.quote +:+ e +:+ Go.quote) =
  Go.Replace e (Go.backslash +:+ Go.quote) Go.quote.
Proof.
  intros Hend. unfold unquote, Go.Replace.
  change (Go.quote +:+ e +:+ Go.quote)
    with (String (ascii_of_nat 34) (e +:+ Go.quote)).
  assert (Hhead : Go.replace_from (Go.backslash +:+ Go.quote) Go.quote O
                    (String (ascii_of_nat 34) (e +:+ Go.quote)) =
                  String (ascii_of_nat 34)
                    (Go.replace_from (Go.backslash +:+ Go.quote) Go.quote O
                       (e +:+ Go.quote))) by reflexivity.
  rewrite Hhead, (replace_before_quote (String.length e) e (le_n _) Hend).
  change (Go.TrimPrefix (String (ascii_of_nat 34) ?x) Go.quote) with x.
  apply TrimSuffix_after.
Qed.

(** The body the reactors see when the field Message is a string. *)
Lemma envelope_unwrap_string (p : sqsListen) (msg : Message)
    (c : Container) (e : string) (ch : list (string * Container)) :
  ParseJSON (list_byte_of_string (Body msg)) = Some c ->
  Search c "Message" =
    Some (mkContainer JSONString (Go.quote +:+ e +:+ Go.quote) ch) ->
  ends_with_backslash e = false ->
  B (newMsg p msg) =
  list_byte_of_string (Go.Replace e (Go.backslash +:+ Go.quote) Go.quote).
Proof.
  intros Hc Hs Hend. unfold newMsg, Exists, S. cbn [B]. rewrite Hc, Hs.
  cbn [B set_B String_]. f_equal.
  exact (unquote_string e Hend).
Qed.

End Deliver.

(** C10 at an input: the handle h1 is not pending, h2 is. *)
Lemma Done_not_pending_witness :
  let p := mkSqsListen "url" "eu" "" 10 (Some (sqsClient "eu")) 0 []
             {[ "h2" := 1 ]} ∅ 0 in
  let m := mkMsg (Some (sqsClient "eu")) [] (mkEntry "a" "h1") "url" 0 in
  pendings p !! ReceiptHandle (M m) = None /\
  let r := Done p (SqsMsg m) false in
  fst r = p /\
  pendings (fst r) = pendings p /\
  messError (fst r) = messError p /\
  snd r = [].
Proof.
  split; [reflexivity|].
  apply (Done_not_pending
           (mkSqsListen "url" "eu" "" 10 (Some (sqsClient "eu")) 0 []
              {[ "h2" := 1 ]} ∅ 0)
           (mkMsg (Some (sqsClient "eu")) [] (mkEntry "a" "h1") "url" 0) false).
  reflexivity.
Defined.

(** C2, counterexample.  The handle h1 has one reference left and the last
    reactor reports a failure: after the call h1 is gone from [pendings] but
    is a key of [messError], where it stays. *)
Lemma Done_last_keeps_errored :
  let p := mkSqsListen "url" "eu" "" 10 (Some (sqsClient "eu")) 0 []
             {[ "h1" := 1 ]} ∅ 0 in
  let m := mkMsg (Some (sqsClient "eu")) [] (mkEntry "a" "h1") "url" 0 in
  (pendings p !! ReceiptHandle (M m) = Some 1 /\
   Go.int64_wrap (1 - 1) = 0 /\
   pendings (fst (Done p (SqsMsg m) false)) !! "h1" = None /\
   messError (fst (Done p (SqsMsg m) false)) !! "h1" = Some true) /\
  ~ last_Done_clears_both p m false.
Proof.
  split.
  - repeat split.
  - intros (_ & H & _). vm_compute in H. discriminate H.
Qed.

(** A parser for the examples whose message bodies are not JSON. *)
Definition not_JSON (b : list byte) : option Container := None.

(** A reactor that rejects every message, and one that accepts every
    message. *)
Definition rejecting (id : nat) : Reactor :=
  mkReactor id 1 (fun _ => Some "no match").
Definition accepting (id : nat) : Reactor :=
  mkReactor id 1 (fun _ => None).

Lemma deliver_no_match_witness :
  let p := mkSqsListen "url" "eu" "" 10 (Some (sqsClient "eu")) 0
             [(rejecting 1, 1); (rejecting 2, 1)] {[ "h2" := 1 ]} ∅ 2 in
  let msg := mkMessage ∅ "hello" "a" "h1" in
  svc p = Some (sqsClient "eu") /\
  accepted not_JSON p msg = O /\
  let r := deliver not_JSON p msg in
  snd r = [DeleteMessage false (URL p) (MessageReceiptHandle msg)] /\
  fst r = p /\
  pendings (fst r) = pendings p /\
  messError (fst r) = messError p.
Proof.
  split; [reflexivity|]. split; [reflexivity|].
  apply (deliver_no_match not_JSON
           (mkSqsListen "url" "eu" "" 10 (Some (sqsClient "eu")) 0
              [(rejecting 1, 1); (rejecting 2, 1)] {[ "h2" := 1 ]} ∅ 2)
           (mkMessage ∅ "hello" "a" "h1") (sqsClient "eu")); reflexivity.
Defined.

(** The dispatcher of the examples: two reactors that accept every message. *)
Definition two_reactors : sqsListen :=
  mkSqsListen "url" "eu" "" 10 (Some (sqsClient "eu")) 0
    [(accepting 1, 1); (accepting 2, 1)] ∅ ∅ 2.

Definition hello : Message := mkMessage ∅ "hello" "a" "h1".

Example two_reactors_both_succeed :
  let m := SqsMsg (newMsg not_JSON two_reactors hello) in
  deletes (snd (run not_JSON two_reactors
                  [CallDeliver hello; CallDone m true; CallDone m true]))
  = ["h1"].
Proof. vm_compute. reflexivity. Qed.

Example two_reactors_one_fails :
  let m := SqsMsg (newMsg not_JSON two_reactors hello) in
  deletes (snd (run not_JSON two_reactors
                  [CallDeliver hello; CallDone m false; CallDone m true]))
  = [].
Proof. vm_compute. reflexivity. Qed.

Example two_reactors_one_pending :
  let m := SqsMsg (newMsg not_JSON two_reactors hello) in
  deletes (snd (run not_JSON two_reactors [CallDeliver hello; CallDone m true]))
  = [].
Proof. vm_compute. reflexivity. Qed.


Example unquote_plain_string :
  unquote (Go.quote +:+ "hello" +:+ Go.quote) = "hello".
Proof. reflexivity. Qed.

Example unquote_quoted_string :
  unquote (Go.quote +:+ Go.backslash +:+ Go.quote +:+ "payload"
           +:+ Go.backslash +:+ Go.quote +:+ Go.quote)
  = Go.quote +:+ "payload" +:+ Go.quote.
Proof. reflexivity. Qed.

Example unquote_number : unquote "42" = "42".
Proof. reflexivity. Qed.

(** The body of the envelope examples: an object whose field Message is the
    number 42. *)
Definition number_envelope : string :=
  "{" +:+ Go.quote +:+ "Message" +:+ Go.quote +:+ ":42}".

(** What [gabs.ParseJSON] makes of that body; other bodies are taken not to
    be JSON. *)
Definition parse_number_envelope (b : list byte) : option Container :=
  if String.eqb (string_of_list_byte b) number_envelope
  then Some (mkContainer JSONObject number_envelope
               [("Message", mkContainer JSONNumber "42" [])])
  else None.

(** C8, counterexample.  The body is JSON whose field Message is a number,
    not a string; the reactors see the body 42, not the original one. *)
Lemma number_envelope_unwrapped :
  let msg := mkMessage ∅ number_envelope "a" "h1" in
  B (newMsg parse_number_envelope two_reactors msg) = [x34; x32] /\
  ~ unwrapped_iff_string_Message parse_number_envelope two_reactors msg.
Proof.
  split; [vm_compute; reflexivity|].
  intros [_ H].
  assert (Hno : ~ has_string_Message parse_number_envelope number_envelope).
  { intros (c & v & Hc & _ & Hs & Hk). vm_compute in Hc.
    injection Hc as <-. vm_compute in Hs. injection Hs as <-.
    discriminate Hk. }
  specialize (H Hno). vm_compute in H. discriminate H.
Qed.

Lemma Done_last_witness :
  let p := mkSqsListen "url" "eu" "" 10 (Some (sqsClient "eu")) 0 []
             {[ "h1" := 1 ]} ∅ 0 in
  let m := mkMsg (Some (sqsClient "eu")) [] (mkEntry "a" "h1") "url" 0 in
  pendings p !! ReceiptHandle (M m) = Some 1 /\
  Go.int64_wrap (1 - 1) = 0 /\
  let id := ReceiptHandle (M m) in
  let r := Done p (SqsMsg m) true in
  pendings (fst r) = delete id (pendings p) /\
  messError (fst r) = messError p /\
  snd r = match messError (fst r) !! id with
          | None => p_delete true (SqsMsg m)
          | Some _ => []
          end /\
  (messError (fst r) !! id = None <->
   true = true /\ messError p !! id = None).
Proof.
  split; [reflexivity|]. split; [reflexivity|].
  apply (Done_last
           (mkSqsListen "url" "eu" "" 10 (Some (sqsClient "eu")) 0 []
              {[ "h1" := 1 ]} ∅ 0)
           (mkMsg (Some (sqsClient "eu")) [] (mkEntry "a" "h1") "url" 0)
           true 1); reflexivity.
Defined.

(** ** [deliver] as a whole *)

Definition set_broadcastCh (v : list (Reactor * Z)) (p : sqsListen)
  : sqsListen :=
  mkSqsListen (URL p) (Region p) (Profile p) (MaxNumberOfMessages p) (svc p)
    (exiting p) v (pendings p) (messError p) (maxQueuedMessages p).

Definition set_exiting (v : Z) (p : sqsListen) : sqsListen :=
  mkSqsListen (URL p) (Region p) (Profile p) (MaxNumberOfMessages p) (svc p)
    v (broadcastCh p) (pendings p) (messError p) (maxQueuedMessages p).

Definition set_maxQueuedMessages (v : Z) (p : sqsListen) : sqsListen :=
  mkSqsListen (URL p) (Region p) (Profile p) (MaxNumberOfMessages p) (svc p)
    (exiting p) (broadcastCh p) (pendings p) (messError p) v.

(** The hand-offs of a message to the reactors that accept it, in the order
    [Range] visits them. *)
Definition handoffs (m : Msg) (rs : list (Reactor * Z)) : list Effect :=
  map (fun kv => Handoff (ReactorId (fst kv)) m) (List.filter (accepts m) rs).

(** [n] calls of [addPending] for the same message. *)
Definition addPendings (n : nat) (m : Msg) (p : sqsListen) : sqsListen :=
  Nat.iter n (fun q => addPending q (SqsMsg m)) p.

Lemma offer_fold (m : Msg) (rs : list (Reactor * Z)) :
  forall (p : sqsListen) (b : bool) (effs : list Effect),
  fold_left (offer m) rs (p, b, effs) =
  (addPendings (length (List.filter (accepts m) rs)) m p,
   b || negb (Nat.eqb (length (List.filter (accepts m) rs)) 0),
   effs ++ handoffs m rs).
Proof.
  induction rs as [|kv rs IH]; intros p b effs; cbn [fold_left List.filter].
  - cbn. now rewrite orb_false_r, app_nil_r.
  - unfold handoffs. cbn [List.filter]. destruct (accepts m kv) eqn:Ha.
    + rewrite offer_accepted by exact Ha. rewrite IH.
      cbn [length map Nat.eqb negb]. unfold addPendings.
      rewrite Nat.iter_succ_r, !orb_true_r, <- app_assoc. reflexivity.
    + rewrite offer_rejected by exact Ha. now rewrite IH.
Qed.

Section Dispatch.

Variable ParseJSON : list byte -> option Container.

(** [deliver] in one equation: one [addPending] and one hand-off per
    accepting reactor, and the delete when there is none. *)
Lemma deliver_eq (p : sqsListen) (msg : Message) :
  deliver ParseJSON p msg =
  (addPendings (accepted ParseJSON p msg) (newMsg ParseJSON p msg) p,
   handoffs (newMsg ParseJSON p msg) (broadcastCh p) ++
   (if Nat.eqb (accepted ParseJSON p msg) 0
    then p_delete false (SqsMsg (newMsg ParseJSON p msg))
    else [])).
Proof.
  unfold deliver, accepted. rewrite offer_fold. cbn [orb app].
  destruct (Nat.eqb _ 0); cbn [negb]; [reflexivity|].
  now rewrite app_nil_r.
Qed.

(** X10.  [deliver] hands the message, the same [Msg] for all, to exactly
    the reactors whose [MatchConditions] accept it, once each and in the
    order [Range] visits them; it calls the queue's delete itself exactly
    when no reactor accepts, and then as its last act. *)
Theorem deliver_effects (p : sqsListen) (msg : Message) :
  let m := newMsg ParseJSON p msg in
  snd (deliver ParseJSON p msg) =
  map (fun kv => Handoff (ReactorId (fst kv)) m)
    (List.filter (accepts m) (broadcastCh p)) ++
  (if Nat.eqb (length (List.filter (accepts m) (broadcastCh p))) 0
   then p_delete false (SqsMsg m)
   else []).
Proof. cbv zeta. now rewrite deliver_eq. Qed.

Lemma filter_Permutation {A : Type} (f : A -> bool) (l l' : list A) :
  Permutation l l' -> Permutation (List.filter f l) (List.filter f l').
Proof.
  induction 1 as [|x l l' _ IH|x y l|l l' l'' _ IH1 _ IH2]; cbn [List.filter].
  - constructor.
  - destruct (f x); [now constructor|exact IH].
  - destruct (f x), (f y); try reflexivity. apply perm_swap.
  - now transitivity (List.filter f l').
Qed.

Lemma addPending_set_broadcastCh (rs : list (Reactor * Z)) (m : libMsg)
    (p : sqsListen) :
  addPending (set_broadcastCh rs p) m = set_broadcastCh rs (addPending p m).
Proof. destruct m; reflexivity. Qed.

Lemma addPendings_set_broadcastCh (rs : list (Reactor * Z)) (n : nat)
    (m : Msg) (p : sqsListen) :
  addPendings n m (set_broadcastCh rs p) =
  set_broadcastCh rs (addPendings n m p).
Proof.
  unfold addPendings. induction n as [|n IH]; [reflexivity|].
  rewrite !Nat.iter_succ, IH. apply addPending_set_broadcastCh.
Qed.

(** X11.  The order in which [Range] visits the reactors does not matter to
    [deliver]: visited in another order, the dispatcher ends in the same
    state, and the same hand-offs and delete are made, in another order. *)
Theorem deliver_any_Range_order (p : sqsListen) (rs : list (Reactor * Z))
    (msg : Message) :
  Permutation (broadcastCh p) rs ->
  fst (deliver ParseJSON (set_broadcastCh rs p) msg) =
    set_broadcastCh rs (fst (deliver ParseJSON p msg)) /\
  Permutation (snd (deliver ParseJSON (set_broadcastCh rs p) msg))
    (snd (deliver ParseJSON p msg)).
Proof.
  intros Hperm. rewrite !deliver_eq. cbn [fst snd].
  assert (Hm : newMsg ParseJSON (set_broadcastCh rs p) msg =
               newMsg ParseJSON p msg) by (now apply newMsg_ext).
  assert (Hf : Permutation
                 (List.filter (accepts (newMsg ParseJSON p msg)) (broadcastCh p))
                 (List.filter (accepts (newMsg ParseJSON p msg)) rs))
    by (now apply filter_Permutation).
  assert (Hc : accepted ParseJSON (set_broadcastCh rs p) msg =
               accepted ParseJSON p msg).
  { unfold accepted. rewrite Hm. cbn [broadcastCh set_broadcastCh].
    symmetry. now apply Permutation_length. }
  rewrite Hc, Hm. split; [apply addPendings_set_broadcastCh|].
  apply Permutation_app; [|reflexivity].
  unfold handoffs. cbn [broadcastCh set_broadcastCh].
  apply Permutation_map. now symmetry.
Qed.

(** ** [addPending] and [Done] *)

Lemma set_pendings_id (p : sqsListen) : set_pendings (pendings p) p = p.
Proof. now destruct p. Qed.

(** X12.  A successful [Done] undoes one [addPending]: the dispatcher is
    back in the state it had before the reference was taken.  The delete is
    issued exactly when the message had no other reference and its handle is
    not marked errored.  The count held before is a valid one, between 1 and
    the largest [int] but one. *)
Theorem Done_undoes_addPending (p : sqsListen) (m : Msg) :
  match pendings p !! ReceiptHandle (M m) with
  | Some v => 1 <= v < Go.maxInt64
  | None => True
  end ->
  Done (addPending p (SqsMsg m)) (SqsMsg m) true =
  (p, match pendings p !! ReceiptHandle (M m),
            messError p !! ReceiptHandle (M m) with
      | None, None => p_delete true (SqsMsg m)
      | _, _ => []
      end).
Proof.
  intros Hv. unfold addPending, Done.
  cbn [pendings set_pendings negb messError]. rewrite lookup_insert_eq.
  destruct (pendings p !! ReceiptHandle (M m)) as [v|] eqn:Hp;
    cbn beta iota in Hv.
  - assert (H1 : Go.int64_wrap (v + 1) = v + 1)
      by (apply Go.int64_wrap_id; unfold Go.minInt64, Go.maxInt64 in *; lia).
    assert (H2 : Go.int64_wrap (v + 1 - 1) = v).
    { replace (v + 1 - 1) with v by lia.
      apply Go.int64_wrap_id; unfold Go.minInt64, Go.maxInt64 in *; lia. }
    rewrite H1, H2.
    destruct (Z.leb_spec v 0); [lia|].
    rewrite insert_insert_eq, insert_id by exact Hp.
    f_equal. now destruct p.
  - change (Go.int64_wrap (1 - 1)) with 0. cbn [Z.leb Z.compare].
    rewrite !delete_insert_eq, delete_id by exact Hp.
    destruct (messError p !! ReceiptHandle (M m)); f_equal; now destruct p.
Qed.

(** ** Handles marked errored *)

Lemma addPendings_messError (n : nat) (m : Msg) (p : sqsListen) :
  messError (addPendings n m p) = messError p.
Proof.
  unfold addPendings. induction n as [|n IH]; [reflexivity|].
  rewrite Nat.iter_succ, <- IH. now destruct (Nat.iter n _ p).
Qed.

(** An effect is not a delete issued by [Done] for the handle [id]. *)
Definition not_Done_delete (id : string) (e : Effect) : Prop :=
  match e with
  | DeleteMessage true _ h => h <> id
  | _ => True
  end.

Lemma p_delete_sync (id : string) (v : libMsg) :
  Forall (not_Done_delete id) (p_delete false v).
Proof.
  destruct v as [m|]; cbn; [|constructor].
  destruct (SQS m); repeat constructor.
Qed.

Lemma step_errored (p : sqsListen) (c : Call) (id : string) :
  is_Some (messError p !! id) ->
  is_Some (messError (fst (step ParseJSON p c)) !! id) /\
  Forall (not_Done_delete id) (snd (step ParseJSON p c)).
Proof.
  intros He. destruct c as [msg|m statusOk]; cbn [step].
  - rewrite deliver_eq. cbn [fst snd]. rewrite addPendings_messError.
    split; [exact He|]. apply Forall_app. split.
    + unfold handoffs. apply Forall_map. apply Forall_forall. now intros.
    + destruct (Nat.eqb _ 0); [apply p_delete_sync|constructor].
  - destruct m as [m|]; cbn [Done]; [|split; [exact He|constructor]].
    destruct (pendings p !! ReceiptHandle (M m)) as [v|];
      [|split; [exact He|constructor]].
    assert (Hq : forall q : sqsListen,
               is_Some (messError q !! id) ->
               is_Some (messError
                          (if negb statusOk
                           then set_messError
                                  (<[ReceiptHandle (M m) := true]> (messError q)) q
                           else q) !! id)).
    { intros q Hq. destruct statusOk; cbn [negb]; [exact Hq|].
      cbn [messError set_messError].
      destruct (decide (ReceiptHandle (M m) = id)) as [->|Hne].
      - rewrite lookup_insert_eq. eauto.
      - now rewrite lookup_insert_ne. }
    specialize (Hq (set_pendings
                      (<[ReceiptHandle (M m) := Go.int64_wrap (v - 1)]>
                         (pendings p)) p) He).
    cbv zeta.
    match type of Hq with
    | is_Some (messError ?q !! _) => set (q1 := q) in *
    end.
    destruct (Go.int64_wrap (v - 1) <=? 0); [|split; [exact Hq|constructor]].
    change (messError (set_pendings (delete (ReceiptHandle (M m)) (pendings q1)) q1))
      with (messError q1).
    destruct (messError q1 !! ReceiptHandle (M m)) eqn:Hl; cbn [fst snd].
    + split; [exact Hq|constructor].
    + split; [exact Hq|].
      assert (Hne : ReceiptHandle (M m) <> id).
      { intros Heq. rewrite Heq in Hl. rewrite Hl in Hq.
        destruct Hq as [x Hx]. discriminate Hx. }
      unfold p_delete. destruct (SQS m); repeat constructor. exact Hne.
Qed.

(** X13.  A receipt handle marked errored stays marked through every
    sequence of [deliver] and [Done] calls, and no [Done] in it issues a
    delete for that handle, not even when the message is received again and
    every reactor then succeeds. *)
Theorem errored_handle_never_deleted_by_Done (calls : list Call) :
  forall (p : sqsListen) (id : string),
  is_Some (messError p !! id) ->
  is_Some (messError (fst (run ParseJSON p calls)) !! id) /\
  Forall (not_Done_delete id) (snd (run ParseJSON p calls)).
Proof.
  induction calls as [|c calls IH]; intros p id He; cbn [run].
  - split; [exact He|constructor].
  - destruct (step_errored p c id He) as [H1 H2].
    destruct (step ParseJSON p c) as [p1 e1]. cbn [fst snd] in *.
    destruct (IH p1 id H1) as [H3 H4].
    destruct (run ParseJSON p1 calls) as [p2 e2]. cbn [fst snd] in *.
    split; [exact H3|]. apply Forall_app. now split.
Qed.

End Dispatch.

Lemma deliver_any_Range_order_witness :
  let rs := [(accepting 2, 1); (accepting 1, 1)] in
  Permutation (broadcastCh two_reactors) rs /\
  fst (deliver not_JSON (set_broadcastCh rs two_reactors) hello) =
    set_broadcastCh rs (fst (deliver not_JSON two_reactors hello)) /\
  Permutation (snd (deliver not_JSON (set_broadcastCh rs two_reactors) hello))
    (snd (deliver not_JSON two_reactors hello)).
Proof.
  split; [apply perm_swap|].
  exact (deliver_any_Range_order not_JSON two_reactors
           [(accepting 2, 1); (accepting 1, 1)] hello
           (perm_swap _ _ _)).
Defined.

Lemma Done_undoes_addPending_witness :
  let p := mkSqsListen "url" "eu" "" 10 (Some (sqsClient "eu")) 0 []
             {[ "h1" := 1 ]} ∅ 0 in
  let m := mkMsg (Some (sqsClient "eu")) [] (mkEntry "a" "h1") "url" 0 in
  1 <= 1 < Go.maxInt64 /\
  Done (addPending p (SqsMsg m)) (SqsMsg m) true =
  (p, match pendings p !! ReceiptHandle (M m),
            messError p !! ReceiptHandle (M m) with
      | None, None => p_delete true (SqsMsg m)
      | _, _ => []
      end).
Proof.
  split; [vm_compute; split; [discriminate|reflexivity]|].
  apply (Done_undoes_addPending
           (mkSqsListen "url" "eu" "" 10 (Some (sqsClient "eu")) 0 []
              {[ "h1" := 1 ]} ∅ 0)
           (mkMsg (Some (sqsClient "eu")) [] (mkEntry "a" "h1") "url" 0)).
  vm_compute. split; [discriminate|reflexivity].
Defined.

Lemma errored_handle_never_deleted_by_Done_witness :
  let p := mkSqsListen "url" "eu" "" 10 (Some (sqsClient "eu")) 0
             [(accepting 1, 1)] ∅ {[ "h1" := true ]} 1 in
  let m := SqsMsg (newMsg not_JSON p hello) in
  is_Some (messError p !! "h1") /\
  is_Some (messError
             (fst (run not_JSON p [CallDeliver hello; CallDone m true]))
             !! "h1") /\
  Forall (not_Done_delete "h1")
    (snd (run not_JSON p [CallDeliver hello; CallDone m true])).
Proof.
  split; [exists true; reflexivity|].
  apply (errored_handle_never_deleted_by_Done not_JSON
           [CallDeliver hello;
            CallDone (SqsMsg (newMsg not_JSON
                                (mkSqsListen "url" "eu" "" 10
                                   (Some (sqsClient "eu")) 0
                                   [(accepting 1, 1)] ∅ {[ "h1" := true ]} 1)
                                hello)) true]
           (mkSqsListen "url" "eu" "" 10 (Some (sqsClient "eu")) 0
              [(accepting 1, 1)] ∅ {[ "h1" := true ]} 1)
           "h1").
  exists true. reflexivity.
Defined.

(** ** Registration of reactors and the semaphore limit *)

(** The key of a [broadcastCh] entry: the identity of the reactor pointer. *)
Definition key (kv : Reactor * Z) : nat := ReactorId (fst kv).

(** [p.broadcastCh.Store(r, v)].  The [sync.Map] is keyed by the reactor
    pointer: the entry of the same reactor is replaced, a reactor not yet in
    the map gets a new entry (placed last here; [Range] may visit it at any
    position). *)
Fixpoint Store (rs : list (Reactor * Z)) (r : Reactor) (v : Z)
  : list (Reactor * Z) :=
  match rs with
  | [] => [(r, v)]
  | kv :: rs' =>
      if Nat.eqb (key kv) (ReactorId r)
      then (r, v) :: rs'
      else kv :: Store rs' r v
  end.

(** [p.updateConcurrency()].  [NumCPU] is what [runtime.NumCPU()] returns;
    the result carries the two numbers of the log line, [total] and
    [maxPendings].  The semaphore's [SetConcurrency] is given [total]. *)
Definition updateConcurrency (NumCPU : Z) (p : sqsListen)
  : sqsListen * (Z * Z) :=
  let total :=
    fold_left (fun total kv => Go.int64_wrap (total + snd kv))
      (broadcastCh p) 0 in
  let maxPendings := total in
  let maxPendings := if maxPendings <? NumCPU then NumCPU else maxPendings in
  let maxPendings := Go.int64_wrap (maxPendings * 2) in
  (set_maxQueuedMessages total p, (total, maxPendings)).

(** [p.AddOrUpdate(r)]. *)
Definition AddOrUpdate (NumCPU : Z) (p : sqsListen) (r : Reactor)
  : sqsListen * (Z * Z) :=
  let p := set_broadcastCh (Store (broadcastCh p) r (Concurrent r)) p in
  updateConcurrency NumCPU p.

(** The exact sum of the registered concurrencies. *)
Definition sum_concurrency (rs : list (Reactor * Z)) : Z :=
  fold_right (fun kv acc => snd kv + acc) 0 rs.

Lemma int64_wrap_add_l (a x : Z) :
  Go.int64_wrap (Go.int64_wrap a + x) = Go.int64_wrap (a + x).
Proof.
  unfold Go.int64_wrap. f_equal.
  replace ((a + 2 ^ 63) mod 2 ^ 64 - 2 ^ 63 + x + 2 ^ 63)
    with ((a + 2 ^ 63) mod 2 ^ 64 + x) by lia.
  rewrite Zplus_mod_idemp_l. f_equal. lia.
Qed.

Lemma total_wrap (rs : list (Reactor * Z)) : forall a,
  fold_left (fun total kv => Go.int64_wrap (total + snd kv)) rs
    (Go.int64_wrap a) =
  Go.int64_wrap (a + sum_concurrency rs).
Proof.
  induction rs as [|kv rs IH]; intros a; cbn [fold_left sum_concurrency fold_right].
  - now rewrite Z.add_0_r.
  - rewrite int64_wrap_add_l, IH. f_equal.
    fold (sum_concurrency rs). lia.
Qed.

(** X14.  [updateConcurrency] sets the semaphore limit to the sum of the
    registered concurrencies, as a Go [int] (so reduced modulo 2^64 into the
    [int64] range), and changes nothing else: the limit depends neither on
    the number of CPUs, which only enters the logged [maxPendings], nor on
    the order in which [Range] visits the reactors. *)
Theorem updateConcurrency_limit (NumCPU : Z) (p : sqsListen) :
  fst (updateConcurrency NumCPU p) =
    set_maxQueuedMessages
      (Go.int64_wrap (sum_concurrency (broadcastCh p))) p /\
  forall rs, Permutation (broadcastCh p) rs ->
    maxQueuedMessages (fst (updateConcurrency NumCPU (set_broadcastCh rs p))) =
    maxQueuedMessages (fst (updateConcurrency NumCPU p)).
Proof.
  assert (H : forall q,
             fst (updateConcurrency NumCPU q) =
             set_maxQueuedMessages
               (Go.int64_wrap (sum_concurrency (broadcastCh q))) q).
  { intros q. unfold updateConcurrency. cbn [fst].
    change 0 with (Go.int64_wrap 0) at 1. now rewrite total_wrap. }
  split; [apply H|].
  intros rs Hperm. rewrite !H. cbn [maxQueuedMessages set_maxQueuedMessages
                                    broadcastCh set_broadcastCh].
  f_equal. unfold sum_concurrency.
  induction Hperm as [|x l l' _ IH|x y l|l l' l'' _ IH1 _ IH2];
    cbn [fold_right]; lia.
Qed.

Lemma Store_In_new (rs : list (Reactor * Z)) (r : Reactor) (v : Z) :
  In (r, v) (Store rs r v).
Proof.
  induction rs as [|kv rs IH]; cbn [Store]; [now left|].
  destruct (Nat.eqb (key kv) (ReactorId r)); [now left|now right].
Qed.

Lemma Store_keys (rs : list (Reactor * Z)) (r : Reactor) (v : Z) (i : nat) :
  In i (map key (Store rs r v)) <-> i = ReactorId r \/ In i (map key rs).
Proof.
  induction rs as [|kv rs IH]; cbn [Store].
  - cbn. unfold key. cbn. intuition congruence.
  - destruct (Nat.eqb (key kv) (ReactorId r)) eqn:E.
    + apply Nat.eqb_eq in E. cbn [map In]. unfold key at 1. cbn [fst].
      intuition congruence.
    + cbn [map In]. rewrite IH. intuition.
Qed.

Lemma Store_NoDup (rs : list (Reactor * Z)) (r : Reactor) (v : Z) :
  List.NoDup (map key rs) -> List.NoDup (map key (Store rs r v)).
Proof.
  induction rs as [|kv rs IH]; intros Hnd; cbn [Store].
  - cbn. constructor; [intros []|constructor].
  - destruct (Nat.eqb (key kv) (ReactorId r)) eqn:E.
    + apply Nat.eqb_eq in E. cbn [map] in *. unfold key at 1. cbn [fst].
      rewrite <- E. exact Hnd.
    + apply Nat.eqb_neq in E. cbn [map] in *.
      inversion Hnd as [|? ? Hnotin Hnd']; subst.
      constructor; [|now apply IH].
      rewrite Store_keys. intros [Heq|Hin]; [congruence|contradiction].
Qed.

Lemma Store_In (rs : list (Reactor * Z)) (r : Reactor) (v : Z)
    (k : Reactor) (x : Z) :
  List.NoDup (map key rs) ->
  In (k, x) (Store rs r v) <->
  (k, x) = (r, v) \/ (ReactorId k <> ReactorId r /\ In (k, x) rs).
Proof.
  induction rs as [|kv rs IH]; intros Hnd; cbn [Store].
  - cbn. intuition congruence.
  - cbn [map] in Hnd. inversion Hnd as [|? ? Hnotin Hnd']; subst.
    destruct (Nat.eqb (key kv) (ReactorId r)) eqn:E.
    + apply Nat.eqb_eq in E. cbn [In]. split.
      * intros [H|H]; [left; congruence|].
        right. split; [|now right].
        intros Heq. apply Hnotin. rewrite E, <- Heq.
        change (ReactorId k) with (key (k, x)). now apply in_map.
      * intros [H|[Hne [H|H]]]; [left; congruence| |now right].
        exfalso. apply Hne. rewrite <- E, H. reflexivity.
    + apply Nat.eqb_neq in E. cbn [In]. rewrite IH by assumption. split.
      * intros [H|[H|[Hne H]]].
        -- right. split; [|now left]. subst kv. exact E.
        -- now left.
        -- right. split; [exact Hne|now right].
      * intros [H|[Hne [H|H]]].
        -- right. now left.
        -- now left.
        -- right. right. now split.
Qed.

(** X15.  [AddOrUpdate] registers the reactor with its current
    [Concurrent] and touches no other registration: keys stay unique, the
    entries of the other reactors are kept, the one of this reactor is
    replaced, and [pendings] and [messError] are left alone.  Calling it
    again with the same reactor changes nothing more. *)
Theorem AddOrUpdate_registers (NumCPU : Z) (p : sqsListen) (r : Reactor) :
  List.NoDup (map key (broadcastCh p)) ->
  let q := fst (AddOrUpdate NumCPU p r) in
  List.NoDup (map key (broadcastCh q)) /\
  (forall k x, In (k, x) (broadcastCh q) <->
               (k, x) = (r, Concurrent r) \/
               (ReactorId k <> ReactorId r /\ In (k, x) (broadcastCh p))) /\
  pendings q = pendings p /\
  messError q = messError p /\
  fst (AddOrUpdate NumCPU q r) = q.
Proof.
  intros Hnd q. subst q. unfold AddOrUpdate, updateConcurrency.
  cbn [fst broadcastCh set_broadcastCh set_maxQueuedMessages pendings
       messError].
  split; [now apply Store_NoDup|].
  split; [intros k x; now apply Store_In|].
  split; [reflexivity|]. split; [reflexivity|].
  assert (Hs : Store (Store (broadcastCh p) r (Concurrent r)) r (Concurrent r)
               = Store (broadcastCh p) r (Concurrent r)).
  { clear Hnd. induction (broadcastCh p) as [|kv rs IH]; cbn [Store].
    - unfold key. cbn [fst]. now rewrite Nat.eqb_refl.
    - destruct (Nat.eqb (key kv) (ReactorId r)) eqn:E; cbn [Store].
      + unfold key at 1. cbn [fst]. now rewrite Nat.eqb_refl.
      + now rewrite E, IH. }
  unfold set_maxQueuedMessages, set_broadcastCh.
  cbn [URL Region Profile MaxNumberOfMessages svc exiting broadcastCh pendings
       messError maxQueuedMessages].
  now rewrite Hs.
Qed.

Section Registered.

Variable ParseJSON : list byte -> option Container.

(** X16.  Once [AddOrUpdate] registered a reactor, a received message that
    the reactor accepts is handed to it by [deliver], and [deliver] itself
    does not delete the message. *)
Theorem AddOrUpdate_then_deliver (NumCPU : Z) (p : sqsListen) (r : Reactor)
    (msg : Message) :
  MatchConditions r (newMsg ParseJSON p msg) = None ->
  let q := fst (AddOrUpdate NumCPU p r) in
  newMsg ParseJSON q msg = newMsg ParseJSON p msg /\
  In (Handoff (ReactorId r) (newMsg ParseJSON p msg))
    (snd (deliver ParseJSON q msg)) /\
  deletes (snd (deliver ParseJSON q msg)) = [].
Proof.
  intros Hacc q.
  assert (Hm : newMsg ParseJSON q msg = newMsg ParseJSON p msg)
    by (now apply newMsg_ext).
  assert (Hin : In (r, Concurrent r)
                  (List.filter (accepts (newMsg ParseJSON p msg))
                     (broadcastCh q))).
  { apply filter_In. split; [apply Store_In_new|].
    unfold accepts. cbn [fst]. now rewrite Hacc. }
  split; [exact Hm|].
  rewrite deliver_eq. cbn [snd]. unfold accepted. rewrite Hm.
  split.
  - apply in_or_app. left. unfold handoffs.
    change (Handoff (ReactorId r) (newMsg ParseJSON p msg))
      with ((fun kv : Reactor * Z =>
               Handoff (ReactorId (fst kv)) (newMsg ParseJSON p msg))
              (r, Concurrent r)).
    now apply in_map.
  - destruct (List.filter (accepts (newMsg ParseJSON p msg)) (broadcastCh q))
      as [|kv l] eqn:Hf; [destruct Hin|].
    cbn [length Nat.eqb]. rewrite app_nil_r.
    unfold handoffs. rewrite Hf. clear.
    induction (kv :: l) as [|kv' l' IH]; [reflexivity|exact IH].
Qed.

End Registered.

Lemma AddOrUpdate_registers_witness :
  let q := fst (AddOrUpdate 4 two_reactors (mkReactor 2 5 (fun _ => None))) in
  List.NoDup (map key (broadcastCh two_reactors)) /\
  List.NoDup (map key (broadcastCh q)) /\
  (forall k x, In (k, x) (broadcastCh q) <->
               (k, x) = (mkReactor 2 5 (fun _ => None), 5) \/
               (ReactorId k <> 2%nat /\ In (k, x) (broadcastCh two_reactors))) /\
  pendings q = pendings two_reactors /\
  messError q = messError two_reactors /\
  fst (AddOrUpdate 4 q (mkReactor 2 5 (fun _ => None))) = q.
Proof.
  assert (H : List.NoDup (map key (broadcastCh two_reactors))).
  { cbn. constructor; [intros [H|[]]; discriminate H|].
    constructor; [intros []|constructor]. }
  split; [exact H|].
  exact (AddOrUpdate_registers 4 two_reactors (mkReactor 2 5 (fun _ => None))
           H).
Defined.

Lemma AddOrUpdate_then_deliver_witness :
  let p := mkSqsListen "url" "eu" "" 10 (Some (sqsClient "eu")) 0
             [(rejecting 1, 1)] ∅ ∅ 1 in
  let q := fst (AddOrUpdate 4 p (accepting 2)) in
  MatchConditions (accepting 2) (newMsg not_JSON p hello) = None /\
  newMsg not_JSON q hello = newMsg not_JSON p hello /\
  In (Handoff (ReactorId (accepting 2)) (newMsg not_JSON p hello))
    (snd (deliver not_JSON q hello)) /\
  deletes (snd (deliver not_JSON q hello)) = [].
Proof.
  split; [reflexivity|].
  exact (AddOrUpdate_then_deliver not_JSON 4
           (mkSqsListen "url" "eu" "" 10 (Some (sqsClient "eu")) 0
              [(rejecting 1, 1)] ∅ ∅ 1)
           (accepting 2) hello eq_refl).
Defined.

(** ** Stopping *)

(** A [uint32] with its wrap-around. *)
Definition uint32_wrap (z : Z) : Z := z mod 2 ^ 32.

(** [p.Stop()]. *)
Definition Stop (p : sqsListen) : sqsListen :=
  if 0 <? exiting p then p
  else set_exiting (uint32_wrap (exiting p + 1)) p.

(** X17.  [Stop] sets the [exiting] flag once: on a dispatcher that is not
    stopping the flag becomes 1, and further calls change nothing. *)
Theorem Stop_once (p : sqsListen) :
  0 <= exiting p ->
  0 < exiting (Stop p) /\
  (exiting p = 0 -> exiting (Stop p) = 1) /\
  Stop (Stop p) = Stop p.
Proof.
  intros H0. unfold Stop.
  destruct (Z.ltb_spec 0 (exiting p)) as [Hpos|Hz].
  - split; [exact Hpos|]. split; [lia|].
    destruct (Z.ltb_spec 0 (exiting p)); [reflexivity|lia].
  - assert (He : exiting p = 0) by lia. rewrite He.
    cbn [exiting set_exiting]. change (uint32_wrap (0 + 1)) with 1.
    split; [lia|]. split; reflexivity.
Qed.

Lemma Stop_once_witness :
  0 <= exiting two_reactors /\
  0 < exiting (Stop two_reactors) /\
  (exiting two_reactors = 0 -> exiting (Stop two_reactors) = 1) /\
  Stop (Stop two_reactors) = Stop two_reactors.
Proof.
  split; [vm_compute; discriminate|].
  exact (Stop_once two_reactors ltac:(vm_compute; discriminate)).
Defined.

Lemma Stop_eq (p : sqsListen) :
  Stop p = set_exiting (exiting (Stop p)) p.
Proof. unfold Stop. destruct (0 <? exiting p); now destruct p. Qed.

Lemma addPending_set_exiting (e : Z) (m : libMsg) (p : sqsListen) :
  addPending (set_exiting e p) m = set_exiting e (addPending p m).
Proof. destruct m; reflexivity. Qed.

Lemma addPendings_set_exiting (e : Z) (n : nat) (m : Msg) (p : sqsListen) :
  addPendings n m (set_exiting e p) = set_exiting e (addPendings n m p).
Proof.
  unfold addPendings. induction n as [|n IH]; [reflexivity|].
  rewrite !Nat.iter_succ, IH. apply addPending_set_exiting.
Qed.

Lemma Done_set_exiting (e : Z) (p : sqsListen) (m : libMsg) (statusOk : bool) :
  Done (set_exiting e p) m statusOk =
  (set_exiting e (fst (Done p m statusOk)), snd (Done p m statusOk)).
Proof.
  destruct m as [m|]; [|reflexivity]. unfold Done.
  cbn [pendings set_exiting].
  destruct (pendings p !! ReceiptHandle (M m)) as [v|]; [|reflexivity].
  cbv zeta. destruct statusOk; cbn [negb];
    (destruct (Go.int64_wrap (v - 1) <=? 0); [|reflexivity]);
    cbn [messError set_pendings set_messError set_exiting];
    match goal with
    | |- context [match ?l with _ => _ end] => destruct l; reflexivity
    end.
Qed.

Section Stopping.

Variable ParseJSON : list byte -> option Container.

(** X18.  [Stop] changes only the [exiting] flag, which neither [deliver]
    nor [Done] reads: on a stopping dispatcher every sequence of [deliver]
    and [Done] calls has the effects, deletes included, and the bookkeeping
    it has on the running one. *)
Theorem Stop_keeps_bookkeeping (calls : list Call) : forall p : sqsListen,
  run ParseJSON (Stop p) calls =
  (set_exiting (exiting (Stop p)) (fst (run ParseJSON p calls)),
   snd (run ParseJSON p calls)).
Proof.
  intros p. rewrite (Stop_eq p) at 1.
  generalize (exiting (Stop p)). intros e. revert p.
  induction calls as [|c calls IH]; intros p; cbn [run]; [reflexivity|].
  assert (Hstep : step ParseJSON (set_exiting e p) c =
                  (set_exiting e (fst (step ParseJSON p c)),
                   snd (step ParseJSON p c))).
  { destruct c as [msg|m statusOk]; cbn [step].
    - rewrite !deliver_eq. cbn [fst snd].
      assert (Hm : newMsg ParseJSON (set_exiting e p) msg =
                   newMsg ParseJSON p msg) by (now apply newMsg_ext).
      assert (Hc : accepted ParseJSON (set_exiting e p) msg =
                   accepted ParseJSON p msg).
      { unfold accepted. now rewrite Hm. }
      rewrite Hc, Hm, addPendings_set_exiting. reflexivity.
    - apply Done_set_exiting. }
  rewrite Hstep. destruct (step ParseJSON p c) as [p1 e1]. cbn [fst snd].
  rewrite IH. now destruct (run ParseJSON p1 calls).
Qed.

End Stopping.

(** ** The wait for the pending messages *)

(** The inner loop of [listen], entered once [exiting] is set.  The workers
    call [Done] while the loop sleeps: [observe k] is what
    [len(p.pendings)] gives at the [k]-th test of the loop condition.  The
    result is the number of one-second sleeps, which is the final value of
    [tries], and whether the timeout warning was logged.  [fuel] bounds the
    number of rounds. *)
Fixpoint drain (fuel : nat) (observe : nat -> nat) (k : nat) (tries : Z)
  : option (Z * bool) :=
  match fuel with
  | O => None
  | Datatypes.S fuel' =>
      if (0 <? observe k)%nat then
        let tries := Go.int64_wrap (tries + 1) in
        if 120 <? tries then Some (tries, true)
        else drain fuel' observe (Datatypes.S k) tries
      else Some (tries, false)
  end.

Lemma drain_from (observe : nat -> nat) (fuel : nat) : forall k : nat,
  (k <= 120)%nat ->
  (121 - k <= fuel)%nat ->
  exists (n : nat) (warned : bool),
    drain fuel observe k (Z.of_nat k) = Some (Z.of_nat n, warned) /\
    (k <= n <= 121)%nat /\
    (forall j, (k <= j < n)%nat -> (0 < observe j)%nat) /\
    (warned = true <-> n = 121%nat) /\
    (warned = false -> observe n = 0%nat).
Proof.
  induction fuel as [|fuel IH]; intros k Hk Hf; [lia|].
  cbn [drain].
  destruct (Nat.ltb_spec 0 (observe k)) as [Hpos|Hzero].
  - rewrite Go.int64_wrap_id
      by (unfold Go.minInt64, Go.maxInt64; lia).
    destruct (Z.ltb_spec 120 (Z.of_nat k + 1)) as [Hhi|Hlo].
    + assert (k = 120%nat) by lia. subst k.
      exists 121%nat, true. split; [reflexivity|]. split; [lia|].
      split; [intros j Hj; assert (j = 120%nat) by lia; now subst j|].
      split; [tauto|discriminate].
    + replace (Z.of_nat k + 1) with (Z.of_nat (Datatypes.S k)) by lia.
      destruct (IH (Datatypes.S k) ltac:(lia) ltac:(lia))
        as (n & warned & Hd & Hn & Hall & Hw & Hnw).
      exists n, warned. split; [exact Hd|]. split; [lia|].
      split; [|split; assumption].
      intros j Hj. destruct (Nat.eq_dec j k) as [->|Hne]; [exact Hpos|].
      apply Hall. lia.
  - exists k, false. split; [reflexivity|]. split; [lia|].
    split; [intros j Hj; lia|].
    split; [split; [discriminate|lia]|]. intros _. lia.
Qed.

(** X19.  The wait for the pending messages always ends, after at most 121
    sleeps of one second (one more than the 120 of the source's comment):
    it ends without a warning at the first test that finds [pendings]
    empty, and with the warning, after the 121st sleep, when the first 121
    tests all found it non-empty. *)
Theorem drain_at_most_121 (observe : nat -> nat) (fuel : nat) :
  (121 <= fuel)%nat ->
  exists (n : nat) (warned : bool),
    drain fuel observe 0 0 = Some (Z.of_nat n, warned) /\
    (n <= 121)%nat /\
    (forall j, (j < n)%nat -> (0 < observe j)%nat) /\
    (warned = true <-> n = 121%nat) /\
    (warned = false -> observe n = 0%nat).
Proof.
  intros Hf.
  destruct (drain_from observe fuel 0 ltac:(lia) ltac:(lia))
    as (n & warned & Hd & Hn & Hall & Hw & Hnw).
  exists n, warned. split; [exact Hd|]. split; [lia|].
  split; [intros j Hj; apply Hall; lia|]. now split.
Qed.

Lemma drain_at_most_121_witness :
  (121 <= 200)%nat /\
  exists (n : nat) (warned : bool),
    drain 200 (fun _ => 3%nat) 0 0 = Some (Z.of_nat n, warned) /\
    (n <= 121)%nat /\
    (forall j, (j < n)%nat -> (0 < (fun _ : nat => 3%nat) j)%nat) /\
    (warned = true <-> n = 121%nat) /\
    (warned = false -> (fun _ : nat => 3%nat) n = 0%nat).
Proof.
  split; [lia|].
  exact (drain_at_most_121 (fun _ => 3%nat) 200 ltac:(lia)).
Defined.

Example drain_never_done :
  drain 200 (fun _ => 3%nat) 0 0 = Some (121, true).
Proof. vm_compute. reflexivity. Qed.

Example drain_done_after_two :
  drain 200 (fun k => (2 - k)%nat) 0 0 = Some (2, false).
Proof. vm_compute. reflexivity. Qed.

(** ** [newSQSListen] *)

(** A value of the configuration map, an [interface{}]: a string, an
    [int64], or a value of another type. *)
Inductive cfgValue :=
  | CfgString (s : string)
  | CfgInt64 (z : Z)
  | CfgOther.

(** How a call ends: it returns a value, returns an error, or panics (a
    type assertion [v.(T)] on a value of another type). *)
Inductive outcome (A : Type) :=
  | Returned (a : A)
  | Failed (err : string)
  | Panicked.
Arguments Returned {A} a.
Arguments Failed {A} err.
Arguments Panicked {A}.

Definition set_URL (v : string) (p : sqsListen) : sqsListen :=
  mkSqsListen v (Region p) (Profile p) (MaxNumberOfMessages p) (svc p)
    (exiting p) (broadcastCh p) (pendings p) (messError p)
    (maxQueuedMessages p).

Definition set_Region (v : string) (p : sqsListen) : sqsListen :=
  mkSqsListen (URL p) v (Profile p) (MaxNumberOfMessages p) (svc p)
    (exiting p) (broadcastCh p) (pendings p) (messError p)
    (maxQueuedMessages p).

Definition set_Profile (v : string) (p : sqsListen) : sqsListen :=
  mkSqsListen (URL p) (Region p) v (MaxNumberOfMessages p) (svc p)
    (exiting p) (broadcastCh p) (pendings p) (messError p)
    (maxQueuedMessages p).

Definition set_MaxNumberOfMessages (v : Z) (p : sqsListen) : sqsListen :=
  mkSqsListen (URL p) (Region p) (Profile p) v (svc p)
    (exiting p) (broadcastCh p) (pendings p) (messError p)
    (maxQueuedMessages p).

Definition set_svc (v : option SQSClient) (p : sqsListen) : sqsListen :=
  mkSqsListen (URL p) (Region p) (Profile p) (MaxNumberOfMessages p) v
    (exiting p) (broadcastCh p) (pendings p) (messError p)
    (maxQueuedMessages p).

Definition URL_error : string := "SQS ERROR: URL not found or invalid".
Definition Region_error : string := "SQS ERROR: Region not found or invalid".

Section NewSQSListen.

(** [strings.ToLower]. *)
Variable ToLower : string -> string.

(** The package constant [defaultMaxNumberOfMessages], declared in another
    file of the package. *)
Variable defaultMaxNumberOfMessages : Z.

(** [session.NewSessionWithOptions] for a profile: the error it returns,
    [None] when the session is created. *)
Variable NewSessionWithOptions : string -> option string.

Variable NumCPU : Z.

(** One round of the loop over the configuration map; [None] is a panic. *)
Definition configure (acc : option sqsListen) (kv : string * cfgValue)
  : option sqsListen :=
  match acc with
  | None => None
  | Some p =>
      let k := ToLower (fst kv) in
      if String.eqb k "url" then
        match snd kv with
        | CfgString s => Some (set_URL s p)
        | _ => None
        end
      else if String.eqb k "region" then
        match snd kv with
        | CfgString s => Some (set_Region s p)
        | _ => None
        end
      else if String.eqb k "profile" then
        match snd kv with
        | CfgString s => Some (set_Profile s p)
        | _ => None
        end
      else if String.eqb k "maxnumberofmessages" then
        Some (set_MaxNumberOfMessages
                (match snd kv with CfgInt64 z => z | _ => 0 end) p)
      else Some p
  end.

(** [newSQSListen(r, c)], with the entries of [c] in the order the [range]
    visits them.  The dispatcher it returns is the one whose receive loop
    was started with [go p.listen()]. *)
Definition newSQSListen (r : Reactor) (c : list (string * cfgValue))
  : outcome sqsListen :=
  let p := mkSqsListen "" "" "" 0 None 0 [] ∅ ∅ 0 in
  match fold_left configure c (Some p) with
  | None => Panicked
  | Some p =>
      let p := if MaxNumberOfMessages p =? 0
               then set_MaxNumberOfMessages defaultMaxNumberOfMessages p
               else p in
      if String.eqb (URL p) "" then Failed URL_error
      else if String.eqb (Region p) "" then Failed Region_error
      else
        match NewSessionWithOptions (Profile p) with
        | Some err => Failed err
        | None =>
            let p := set_broadcastCh
                       (Store (broadcastCh p) r (Concurrent r)) p in
            let p := set_pendings ∅ p in
            let p := set_messError ∅ p in
            let p := set_svc (Some (sqsClient (Region p))) p in
            let p := set_maxQueuedMessages 0 p in
            Returned (fst (updateConcurrency NumCPU p))
        end
  end.

(** What the loop over the configuration leaves untouched. *)
Definition unconfigured (p : sqsListen) : Prop :=
  svc p = None /\ exiting p = 0 /\ broadcastCh p = [] /\
  pendings p = ∅ /\ messError p = ∅ /\ maxQueuedMessages p = 0.

Lemma configure_panicked (c : list (string * cfgValue)) :
  fold_left configure c None = None.
Proof. induction c as [|kv c IH]; [reflexivity|exact IH]. Qed.

Lemma configure_unconfigured (c : list (string * cfgValue)) :
  forall p p', unconfigured p ->
  fold_left configure c (Some p) = Some p' -> unconfigured p'.
Proof.
  induction c as [|kv c IH]; intros p p' Hu H; cbn [fold_left] in H.
  - now inversion H; subst.
  - destruct (configure (Some p) kv) as [p1|] eqn:Hc;
      [|now rewrite configure_panicked in H].
    apply (IH p1 p'); [|exact H].
    unfold configure in Hc.
    repeat match type of Hc with
           | (if ?b then _ else _) = _ => destruct b
           | match ?v with _ => _ end = _ => destruct v
           end;
      try discriminate Hc; inversion Hc; subst; exact Hu.
Qed.

(** X20.  A dispatcher returned by [newSQSListen] has a queue URL and a
    region that are not empty, a client for that region, no pending and no
    errored handle, exactly the one reactor registered, the semaphore limit
    at that reactor's [Concurrent], and its [exiting] flag clear; its
    [MaxNumberOfMessages] is zero only when the package default is. *)
Theorem newSQSListen_returned (r : Reactor) (c : list (string * cfgValue))
    (p : sqsListen) :
  newSQSListen r c = Returned p ->
  URL p <> "" /\ Region p <> "" /\
  svc p = Some (sqsClient (Region p)) /\
  exiting p = 0 /\
  broadcastCh p = [(r, Concurrent r)] /\
  pendings p = ∅ /\ messError p = ∅ /\
  maxQueuedMessages p = Go.int64_wrap (Concurrent r) /\
  (MaxNumberOfMessages p = 0 -> defaultMaxNumberOfMessages = 0).
Proof.
  unfold newSQSListen.
  destruct (fold_left configure c _) as [p1|] eqn:Hc; [|discriminate].
  assert (Hu : unconfigured p1).
  { eapply configure_unconfigured; [|exact Hc].
    unfold unconfigured. cbn. tauto. }
  destruct Hu as (Hsvc & Hex & Hbc & _).
  set (p2 := if MaxNumberOfMessages p1 =? 0
             then set_MaxNumberOfMessages defaultMaxNumberOfMessages p1
             else p1).
  assert (H2 : exiting p2 = 0 /\ broadcastCh p2 = [] /\
               (MaxNumberOfMessages p2 = 0 -> defaultMaxNumberOfMessages = 0)).
  { unfold p2. destruct (Z.eqb_spec (MaxNumberOfMessages p1) 0).
    - cbn. tauto.
    - tauto. }
  destruct H2 as (Hex2 & Hbc2 & Hmax).
  destruct (String.eqb_spec (URL p2) ""); [discriminate|].
  destruct (String.eqb_spec (Region p2) ""); [discriminate|].
  destruct (NewSessionWithOptions (Profile p2)); [discriminate|].
  intros H. inversion H; subst p. clear H.
  unfold updateConcurrency.
  cbn [fst URL Region Profile MaxNumberOfMessages svc exiting broadcastCh
       pendings messError maxQueuedMessages set_maxQueuedMessages set_svc
       set_messError set_pendings set_broadcastCh].
  rewrite Hbc2. cbn [Store fold_left snd]. rewrite Z.add_0_l.
  repeat split; assumption.
Qed.

(** An entry whose key reads url, region or profile and whose value is not
    a string. *)
Definition not_a_string (kv : string * cfgValue) : Prop :=
  (ToLower (fst kv) = "url" \/ ToLower (fst kv) = "region" \/
   ToLower (fst kv) = "profile") /\
  forall s, snd kv <> CfgString s.

(** X21.  A configuration in which the value of a url, region or profile
    key is not a string makes [newSQSListen] panic: it returns neither a
    dispatcher nor an error. *)
Theorem newSQSListen_panics (r : Reactor) (c : list (string * cfgValue))
    (kv : string * cfgValue) :
  In kv c ->
  not_a_string kv ->
  newSQSListen r c = Panicked.
Proof.
  intros Hin Hbad. unfold newSQSListen.
  assert (H : forall acc, fold_left configure c acc = None).
  { clear r. induction c as [|kv' c IH]; intros acc; [destruct Hin|].
    cbn [fold_left]. destruct Hin as [->|Hin]; [|now apply IH].
    assert (Hc : configure acc kv = None).
    { destruct acc as [p|]; [|reflexivity].
      destruct Hbad as [Hk Hv]. unfold configure.
      destruct Hk as [Hk|[Hk|Hk]]; rewrite Hk; cbn [String.eqb Ascii.eqb
        Bool.eqb andb];
        destruct (snd kv) as [s| |]; try reflexivity;
        now contradiction (Hv s). }
    rewrite Hc. apply configure_panicked. }
  now rewrite H.
Qed.

(** X22.  A configuration without a url key never yields a dispatcher, and
    the error reported is the one about the URL, whatever the region and
    the session: the URL is checked first, and no session is opened. *)
Theorem newSQSListen_without_url (r : Reactor) (c : list (string * cfgValue)) :
  (forall kv, In kv c -> ToLower (fst kv) <> "url") ->
  newSQSListen r c = Failed URL_error \/ newSQSListen r c = Panicked.
Proof.
  intros Hno. unfold newSQSListen.
  assert (H : forall p, URL p = "" ->
              match fold_left configure c (Some p) with
              | Some p' => URL p' = ""
              | None => True
              end).
  { clear r. induction c as [|kv c IH]; intros p Hp; [exact Hp|].
    cbn [fold_left].
    assert (Hk : String.eqb (ToLower (fst kv)) "url" = false).
    { apply String.eqb_neq. apply Hno. now left. }
    assert (Hc : match configure (Some p) kv with
                 | Some p1 => URL p1 = ""
                 | None => True
                 end).
    { unfold configure. rewrite Hk.
      repeat match goal with
             | |- match (if ?b then _ else _) with _ => _ end => destruct b
             | |- match (match ?v with _ => _ end) with _ => _ end => destruct v
             end; try exact I; exact Hp. }
    destruct (configure (Some p) kv) as [p1|].
    - apply IH; [|exact Hc]. intros kv' Hin. apply Hno. now right.
    - now rewrite configure_panicked. }
  specialize (H _ (eq_refl : URL (mkSqsListen "" "" "" 0 None 0 [] ∅ ∅ 0) = "")).
  destruct (fold_left configure c _) as [p1|]; [|now right].
  left.
  assert (Hu : URL (if MaxNumberOfMessages p1 =? 0
                    then set_MaxNumberOfMessages defaultMaxNumberOfMessages p1
                    else p1) = "").
  { destruct (MaxNumberOfMessages p1 =? 0); exact H. }
  cbv zeta. now rewrite Hu.
Qed.

End NewSQSListen.

(** [strings.ToLower] on the ASCII letters, for the examples. *)
Definition lower (a : ascii) : ascii :=
  let n := nat_of_ascii a in
  if (65 <=? n)%nat && (n <=? 90)%nat then ascii_of_nat (n + 32) else a.

Fixpoint ToLower_ascii (s : string) : string :=
  match s with
  | EmptyString => EmptyString
  | String a s' => String (lower a) (ToLower_ascii s')
  end.

Example newSQSListen_example :
  newSQSListen ToLower_ascii 10 (fun _ => None) 4 (accepting 1)
    [("URL", CfgString "q"); ("Region", CfgString "eu")] =
  Returned (mkSqsListen "q" "eu" "" 10 (Some (sqsClient "eu")) 0
              [(accepting 1, 1)] ∅ ∅ 1).
Proof. vm_compute. reflexivity. Qed.

Lemma newSQSListen_returned_witness :
  let p := mkSqsListen "q" "eu" "" 10 (Some (sqsClient "eu")) 0
             [(accepting 1, 1)] ∅ ∅ 1 in
  newSQSListen ToLower_ascii 10 (fun _ => None) 4 (accepting 1)
    [("URL", CfgString "q"); ("Region", CfgString "eu")] = Returned p /\
  URL p <> "" /\ Region p <> "" /\
  svc p = Some (sqsClient (Region p)) /\
  exiting p = 0 /\
  broadcastCh p = [(accepting 1, Concurrent (accepting 1))] /\
  pendings p = ∅ /\ messError p = ∅ /\
  maxQueuedMessages p = Go.int64_wrap (Concurrent (accepting 1)) /\
  (MaxNumberOfMessages p = 0 -> 10 = 0).
Proof.
  split; [vm_compute; reflexivity|].
  exact (newSQSListen_returned ToLower_ascii 10 (fun _ => None) 4
           (accepting 1)
           [("URL", CfgString "q"); ("Region", CfgString "eu")]
           (mkSqsListen "q" "eu" "" 10 (Some (sqsClient "eu")) 0
              [(accepting 1, 1)] ∅ ∅ 1)
           ltac:(vm_compute; reflexivity)).
Defined.

Lemma newSQSListen_panics_witness :
  In ("Region", CfgInt64 7)
    [("URL", CfgString "q"); ("Region", CfgInt64 7)] /\
  not_a_string ToLower_ascii ("Region", CfgInt64 7) /\
  newSQSListen ToLower_ascii 10 (fun _ => None) 4 (accepting 1)
    [("URL", CfgString "q"); ("Region", CfgInt64 7)] = Panicked.
Proof.
  assert (Hin : In ("Region", CfgInt64 7)
                  [("URL", CfgString "q"); ("Region", CfgInt64 7)])
    by (right; left; reflexivity).
  assert (Hbad : not_a_string ToLower_ascii ("Region", CfgInt64 7)).
  { split; [right; left; reflexivity|]. intros s. discriminate. }
  split; [exact Hin|]. split; [exact Hbad|].
  exact (newSQSListen_panics ToLower_ascii 10 (fun _ => None) 4 (accepting 1)
           [("URL", CfgString "q"); ("Region", CfgInt64 7)]
           ("Region", CfgInt64 7) Hin Hbad).
Defined.

Lemma newSQSListen_without_url_witness :
  (forall kv, In kv [("Region", CfgString "eu")] ->
              ToLower_ascii (fst kv) <> "url") /\
  (newSQSListen ToLower_ascii 10 (fun _ => None) 4 (accepting 1)
     [("Region", CfgString "eu")] = Failed URL_error \/
   newSQSListen ToLower_ascii 10 (fun _ => None) 4 (accepting 1)
     [("Region", CfgString "eu")] = Panicked).
Proof.
  assert (H : forall kv, In kv [("Region", CfgString "eu")] ->
                         ToLower_ascii (fst kv) <> "url").
  { intros kv [<-|[]]. vm_compute. discriminate. }
  split; [exact H|].
  exact (newSQSListen_without_url ToLower_ascii 10 (fun _ => None) 4
           (accepting 1) [("Region", CfgString "eu")] H).
Defined.

(** ** The claim on [Done] calls that [deliver] did not ask for *)


(** The dispatcher of the counterexample: one reactor, which accepts every
    message. *)
Definition one_reactor : sqsListen :=
  mkSqsListen "url" "eu" "" 10 (Some (sqsClient "eu")) 0
    [(accepting 1, 1)] ∅ ∅ 1.


(** A handle received again after a failure: the first delivery marks it
    errored, nothing ever clears the mark, and the second delivery is not
    deleted although its reactor succeeds. *)
Example errored_handle_received_again :
  let m := SqsMsg (newMsg not_JSON one_reactor hello) in
  deletes (snd (run not_JSON one_reactor
                  [CallDeliver hello; CallDone m false;
                   CallDeliver hello; CallDone m true])) = [].
Proof. vm_compute. reflexivity. Qed.

(** ** [deliver] interleaved with [Done] *)

(** A [deliver] under way: the message it built, the reactors that [Range]
    has yet to visit, and the flag [atLeastOneValid]. *)
Record Delivering := mkDelivering {
  d_m : Msg;
  d_rest : list (Reactor * Z);
  d_atLeastOneValid : bool
}.

(** [deliver] takes the dispatcher's lock only inside [addPending].  Between
    two rounds of its [Range], where it also waits for a permit of the
    semaphore, a worker that already holds the message can call [Done].  The
    steps that take effect one at a time are therefore: the head of
    [deliver], which builds the [Msg]; one round of the [Range]; the tail of
    [deliver], with the delete when no reactor accepted; and a [Done]
    call. *)
Inductive Action :=
  | ActBegin (msg : Message)
  | ActRound
  | ActEnd
  | ActDone (m : libMsg) (statusOk : bool).

Section Interleaved.

Variable ParseJSON : list byte -> option Container.

(** One step; [None] when the step cannot be taken (a round with no
    [deliver] under way, a second [deliver] of the one receive loop before
    the first has returned). *)
Definition act (st : sqsListen * option Delivering) (a : Action)
  : option (sqsListen * option Delivering * list Effect) :=
  let '(p, d) := st in
  match a with
  | ActBegin msg =>
      match d with
      | None =>
          Some (p, Some (mkDelivering (newMsg ParseJSON p msg) (broadcastCh p)
                           false), [])
      | Some _ => None
      end
  | ActRound =>
      match d with
      | Some (mkDelivering m (kv :: rest) b) =>
          let '(p', b', effs) := offer m (p, b, []) kv in
          Some (p', Some (mkDelivering m rest b'), effs)
      | _ => None
      end
  | ActEnd =>
      match d with
      | Some (mkDelivering m [] b) =>
          Some (p, None, if negb b then p_delete false (SqsMsg m) else [])
      | _ => None
      end
  | ActDone m statusOk =>
      let '(p', effs) := Done p m statusOk in
      Some (p', d, effs)
  end.

Fixpoint sched (st : sqsListen * option Delivering) (acts : list Action)
  : option (sqsListen * option Delivering * list Effect) :=
  match acts with
  | [] => Some (st, [])
  | a :: acts' =>
      match act st a with
      | None => None
      | Some (st1, e1) =>
          match sched st1 acts' with
          | None => None
          | Some (st2, e2) => Some (st2, e1 ++ e2)
          end
      end
  end.

Lemma sched_app (a1 a2 : list Action) : forall st,
  sched st (a1 ++ a2) =
  match sched st a1 with
  | None => None
  | Some (st1, e1) =>
      match sched st1 a2 with
      | None => None
      | Some (st2, e2) => Some (st2, e1 ++ e2)
      end
  end.
Proof.
  induction a1 as [|a a1 IH]; intros st; cbn [app sched].
  - destruct (sched st a2) as [[st2 e2]|]; reflexivity.
  - destruct (act st a) as [[st1 e1]|]; [|reflexivity].
    rewrite IH. destruct (sched st1 a1) as [[st2 e2]|]; [|reflexivity].
    destruct (sched st2 a2) as [[st3 e3]|]; [|reflexivity].
    now rewrite app_assoc.
Qed.

Lemma rounds_uninterrupted (m : Msg) (rs : list (Reactor * Z)) :
  forall (p : sqsListen) (b : bool),
  sched (p, Some (mkDelivering m rs b)) (repeat ActRound (length rs)) =
  Some (addPendings (length (List.filter (accepts m) rs)) m p,
        Some (mkDelivering m []
                (b || negb (Nat.eqb (length (List.filter (accepts m) rs)) 0))),
        handoffs m rs).
Proof.
  induction rs as [|kv rs IH]; intros p b.
  - cbn. now rewrite orb_false_r.
  - cbn [length repeat sched act List.filter]. unfold handoffs.
    cbn [List.filter]. destruct (accepts m kv) eqn:Ha.
    + rewrite offer_accepted by exact Ha. rewrite IH.
      cbn [length map Nat.eqb negb app]. unfold addPendings.
      now rewrite Nat.iter_succ_r, !orb_true_r.
    + rewrite offer_rejected by exact Ha. now rewrite IH.
Qed.

(** The schedule in which nothing comes between the steps of a [deliver] is
    the call [deliver] of the sequences of calls. *)
Lemma sched_uninterrupted (p : sqsListen) (msg : Message) :
  sched (p, None)
    (ActBegin msg :: repeat ActRound (length (broadcastCh p)) ++ [ActEnd]) =
  Some (fst (deliver ParseJSON p msg), None, snd (deliver ParseJSON p msg)).
Proof.
  cbn [sched act]. rewrite sched_app, rounds_uninterrupted.
  cbn [sched act orb app]. rewrite deliver_eq. cbn [fst snd].
  unfold accepted. rewrite app_nil_r.
  now destruct (Nat.eqb _ 0).
Qed.

(** The steps of a call that nothing interrupts, on a dispatcher with [n]
    registered reactors. *)
Definition steps (n : nat) (c : Call) : list Action :=
  match c with
  | CallDeliver msg => ActBegin msg :: repeat ActRound n ++ [ActEnd]
  | CallDone m statusOk => [ActDone m statusOk]
  end.

Lemma addPendings_broadcastCh (n : nat) (m : Msg) (p : sqsListen) :
  broadcastCh (addPendings n m p) = broadcastCh p.
Proof.
  unfold addPendings. induction n as [|n IH]; [reflexivity|].
  rewrite Nat.iter_succ, <- IH. now destruct (Nat.iter n _ p).
Qed.

Lemma step_broadcastCh (p : sqsListen) (c : Call) :
  broadcastCh (fst (step ParseJSON p c)) = broadcastCh p.
Proof.
  destruct c as [msg|m statusOk]; cbn [step].
  - rewrite deliver_eq. apply addPendings_broadcastCh.
  - apply Done_config.
Qed.

(** The sequences of calls are the schedules in which no step comes between
    the steps of a [deliver]: such a schedule leaves the dispatcher, and has
    the effects, of the sequence of calls. *)
Lemma sched_of_calls (calls : list Call) : forall p : sqsListen,
  sched (p, None) (flat_map (steps (length (broadcastCh p))) calls) =
  Some (fst (run ParseJSON p calls), None, snd (run ParseJSON p calls)).
Proof.
  induction calls as [|c calls IH]; intros p; cbn [flat_map run];
    [reflexivity|].
  rewrite sched_app.
  assert (Hc : sched (p, None) (steps (length (broadcastCh p)) c) =
               Some (fst (step ParseJSON p c), None,
                     snd (step ParseJSON p c))).
  { destruct c as [msg|m statusOk]; cbn [steps step].
    - apply sched_uninterrupted.
    - cbn [sched act]. destruct (Done p m statusOk) as [p1 e1].
      cbn [fst snd]. now rewrite app_nil_r. }
  rewrite Hc. rewrite <- (step_broadcastCh p c), IH.
  destruct (step ParseJSON p c) as [p1 e1]. cbn [fst snd].
  now destruct (run ParseJSON p1 calls).
Qed.

End Interleaved.

(** A [Done] between two rounds of [deliver]: the first reactor is handed
    the message and reports success while [deliver] has yet to visit the
    second; the count of the handle drops to zero and the message is
    deleted; the second reactor is then handed the message and fails.  The
    message was deleted although a reactor that accepted it failed. *)
Example Done_between_rounds_deletes_early :
  let m := newMsg not_JSON two_reactors hello in
  exists p,
    sched not_JSON (two_reactors, None)
      [ActBegin hello; ActRound; ActDone (SqsMsg m) true; ActRound; ActEnd;
       ActDone (SqsMsg m) false] =
    Some (p, None,
          [Handoff 1 m; DeleteMessage true "url" "h1"; Handoff 2 m]) /\
    pendings p !! "h1" = None /\
    messError p !! "h1" = Some true.
Proof. eexists. vm_compute. repeat split. Qed.

End Sqs.

(* ===================================================================== *)
(** * The HTTP health endpoint *)
(* ===================================================================== *)

Module Http.

(** Modelled from the spec: the type [reactor.Reactor] is declared outside
    the three files.  The handler reads two timestamps of a reactor, the
    results of [GetLastSuccessfullExecution] and [GetLastErrorExecution];
    the zero [Time] means "never". *)
Record Reactor := mkReactor {
  GetLastSuccessfullExecution : Z;
  GetLastErrorExecution : Z
}.

Definition defaultHttpPort : Z := 1080.
Definition defaultHealthySeconds : Z := 86400.

Definition StatusOK : Z := 200.
Definition StatusServiceUnavailable : Z := 503.

(** What a handler writes: the status code and the body.  (Both [ok] and
    [ko] set the content type only after [WriteHeader], when the header is
    already out.) *)
Record Response := mkResponse {
  StatusCode : Z;
  ResponseBody : string
}.

Definition ok : Response :=
  mkResponse StatusOK
    ("{" +:+ Go.quote +:+ "message" +:+ Go.quote +:+ ": "
         +:+ Go.quote +:+ "ok" +:+ Go.quote +:+ "}").

Definition ko : Response :=
  mkResponse StatusServiceUnavailable
    ("{" +:+ Go.quote +:+ "error" +:+ Go.quote +:+ ": "
         +:+ Go.quote +:+ "reactor not healthy" +:+ Go.quote +:+ "}").

Record HTTPServer := mkHTTPServer {
  reactors : list Reactor;
  Port : Z
}.

Definition SetReactors (s : HTTPServer) (rs : list Reactor) : HTTPServer :=
  mkHTTPServer rs (Port s).

(** The first lines of [health]: the threshold in seconds, from the path
    parameter ([""] when the route has none).  ["86400"] is what
    [fmt.Sprintf("%d", defaultHealthySeconds)] prints. *)
Definition parsedSeconds (seconds : string) : Z :=
  let seconds := if String.eqb seconds "" then "86400" else seconds in
  let '(parsed, err) := Go.Atoi seconds in
  match err with
  | Some _ => if negb (String.eqb seconds "") then defaultHealthySeconds else parsed
  | None => parsed
  end.

(** The loop of [health] over the reactors, and what follows it.  [now] is
    the reading of the clock, taken as one instant for the whole request. *)
Fixpoint check (now threshold : Z) (rs : list Reactor) (delayed : bool)
  : Response :=
  match rs with
  | [] => if delayed then ko else ok
  | r :: rs' =>
      let last := GetLastSuccessfullExecution r in
      let errt := GetLastErrorExecution r in
      if Go.IsZero last && Go.IsZero errt then check now threshold rs' delayed
      else if Go.Since now last <? threshold then ok
      else check now threshold rs' true
  end.

(** [time.Duration(parsedSeconds) * time.Second]. *)
Definition threshold (seconds : string) : Z :=
  Go.int64_wrap (parsedSeconds seconds * Go.Second).

(** [s.health], for the path parameter [seconds]. *)
Definition health (s : HTTPServer) (now : Z) (seconds : string) : Response :=
  if Nat.eqb (length (reactors s)) 0 then ko
  else check now (threshold seconds) (reactors s) false.

(** A reactor has a recorded execution when one of its timestamps is set. *)
Definition recorded (r : Reactor) : bool :=
  negb (Go.IsZero (GetLastSuccessfullExecution r) &&
        Go.IsZero (GetLastErrorExecution r)).



Example parsedSeconds_default : parsedSeconds "" = 86400.
Proof. reflexivity. Qed.

Example parsedSeconds_given : parsedSeconds "60" = 60.
Proof. reflexivity. Qed.

Example parsedSeconds_garbage : parsedSeconds "soon" = 86400.
Proof. reflexivity. Qed.

Lemma ok_not_ko : ok <> ko.
Proof. discriminate. Qed.

Lemma threshold_exact (seconds : string) :
  - 9223372036 <= parsedSeconds seconds <= 9223372036 ->
  threshold seconds = parsedSeconds seconds * 1000000000.
Proof.
  intros H. unfold threshold, Go.Second. apply Go.int64_wrap_id.
  unfold Go.minInt64, Go.maxInt64. lia.
Qed.

(** The loop answers [ok] when it meets a reactor with a recorded execution
    whose last success is fresh, or when it meets no reactor with a recorded
    execution at all; it answers [ko] otherwise. *)
Lemma check_ok (now thr : Z) (rs : list Reactor) : forall delayed,
  check now thr rs delayed = ok <->
  (exists r, In r rs /\ recorded r = true /\
             Go.Since now (GetLastSuccessfullExecution r) < thr) \/
  (delayed = false /\ forall r, In r rs -> recorded r = false).
Proof.
  induction rs as [|r rs IH]; intros delayed; cbn [check].
  - destruct delayed.
    + split; [intros H; symmetry in H; now apply ok_not_ko in H|].
      intros [(r & [] & _)|[H _]]; discriminate H.
    + split; [intros _; right; split; [reflexivity|intros ? []]|reflexivity].
  - unfold recorded in *.
    destruct (Go.IsZero (GetLastSuccessfullExecution r) &&
              Go.IsZero (GetLastErrorExecution r)) eqn:Hz.
    + rewrite IH. split.
      * intros [(r' & Hin & Hrec & Hlt)|[Hd Hall]].
        -- left. exists r'. split; [now right|]. now split.
        -- right. split; [exact Hd|]. intros r' [<-|Hin].
           ++ now rewrite Hz.
           ++ now apply Hall.
      * intros [(r' & [<-|Hin] & Hrec & Hlt)|[Hd Hall]].
        -- rewrite Hz in Hrec. discriminate Hrec.
        -- left. exists r'. now repeat split.
        -- right. split; [exact Hd|]. intros r' Hin. apply Hall. now right.
    + destruct (Z.ltb_spec (Go.Since now (GetLastSuccessfullExecution r)) thr)
        as [Hlt|Hge].
      * split; [|reflexivity]. intros _. left. exists r.
        split; [now left|]. split; [now rewrite Hz|exact Hlt].
      * rewrite IH. split.
        -- intros [(r' & Hin & Hrec & Hlt)|[Hd _]]; [|discriminate Hd].
           left. exists r'. split; [now right|]. now split.
        -- intros [(r' & [<-|Hin] & Hrec & Hlt)|[_ Hall]].
           ++ lia.
           ++ left. exists r'. now repeat split.
           ++ specialize (Hall r (or_introl eq_refl)).
              rewrite Hz in Hall. discriminate Hall.
Qed.

Lemma check_ok_or_ko (now thr : Z) (rs : list Reactor) : forall delayed,
  check now thr rs delayed = ok \/ check now thr rs delayed = ko.
Proof.
  induction rs as [|r rs IH]; intros delayed; cbn [check].
  - destruct delayed; [now right|now left].
  - destruct (_ && _); [apply IH|].
    destruct (_ <? _); [now left|apply IH].
Qed.





Example health_fresh_reactor :
  health (mkHTTPServer [mkReactor 63899999995000000000 0] defaultHttpPort)
    63900000000000000000 "60" = ok.
Proof. vm_compute. reflexivity. Qed.

Example health_stale_reactor :
  health (mkHTTPServer [mkReactor 63800000000000000000 0] defaultHttpPort)
    63900000000000000000 "60" = ko.
Proof. vm_compute. reflexivity. Qed.

Example health_idle_reactors :
  health (mkHTTPServer [mkReactor 0 0; mkReactor 0 0] defaultHttpPort)
    63900000000000000000 "" = ok.
Proof. vm_compute. reflexivity. Qed.

(** ** What the answer depends on *)

Lemma health_ok (s : HTTPServer) (now : Z) (seconds : string) :
  health s now seconds = ok <->
  reactors s <> [] /\
  ((exists r, In r (reactors s) /\ recorded r = true /\
              Go.Since now (GetLastSuccessfullExecution r) < threshold seconds) \/
   (forall r, In r (reactors s) -> recorded r = false)).
Proof.
  unfold health. destruct (reactors s) as [|r rs]; cbn [length Nat.eqb].
  - split; [intros H; symmetry in H; now apply ok_not_ko in H|].
    intros [H _]. now contradiction H.
  - rewrite check_ok. split.
    + intros [H|[_ H]]; (split; [discriminate|]); [now left|now right].
    + intros [_ [H|H]]; [now left|now right].
Qed.

Lemma health_ok_or_ko (s : HTTPServer) (now : Z) (seconds : string) :
  health s now seconds = ok \/ health s now seconds = ko.
Proof.
  unfold health. destruct (Nat.eqb _ 0); [now right|apply check_ok_or_ko].
Qed.

Lemma health_same (s s' : HTTPServer) (now : Z) (seconds seconds' : string) :
  (health s now seconds = ok <-> health s' now seconds' = ok) ->
  health s now seconds = health s' now seconds'.
Proof.
  intros H.
  destruct (health_ok_or_ko s now seconds) as [H1|H1],
           (health_ok_or_ko s' now seconds') as [H2|H2];
    try congruence.
  - apply H in H1. rewrite H1 in H2. now apply ok_not_ko in H2.
  - apply H in H2. rewrite H2 in H1. now apply ok_not_ko in H1.
Qed.

(** X23.  The answer depends on the registered reactors only through the
    ones that have a recorded execution, and not on their order: two
    non-empty lists of reactors with the same recorded reactors get the same
    answer.  In particular reactors that never ran can be added, removed or
    moved without changing it. *)
Theorem health_recorded_reactors_only (s : HTTPServer) (rs : list Reactor)
    (now : Z) (seconds : string) :
  reactors s <> [] ->
  rs <> [] ->
  (forall r, recorded r = true -> (In r (reactors s) <-> In r rs)) ->
  health (SetReactors s rs) now seconds = health s now seconds.
Proof.
  intros Hs Hrs Hsame. apply health_same. rewrite !health_ok.
  cbn [reactors SetReactors].
  assert (Hnone : (forall r, In r rs -> recorded r = false) <->
                  (forall r, In r (reactors s) -> recorded r = false)).
  { split; intros Hall r Hin; destruct (recorded r) eqn:Hr; try reflexivity.
    - apply (Hsame r Hr) in Hin. rewrite (Hall r Hin) in Hr. discriminate Hr.
    - apply (Hsame r Hr) in Hin. rewrite (Hall r Hin) in Hr. discriminate Hr. }
  split.
  - intros [_ [(r & Hin & Hr & Hlt)|Hall]]; (split; [exact Hs|]).
    + left. exists r. split; [now apply (Hsame r Hr)|now split].
    + right. now apply Hnone.
  - intros [_ [(r & Hin & Hr & Hlt)|Hall]]; (split; [exact Hrs|]).
    + left. exists r. split; [now apply (Hsame r Hr)|now split].
    + right. now apply Hnone.
Qed.

Lemma health_recorded_reactors_only_witness :
  let s := mkHTTPServer [mkReactor 63899999995000000000 0] defaultHttpPort in
  let rs := [mkReactor 0 0; mkReactor 63899999995000000000 0] in
  reactors s <> [] /\
  rs <> [] /\
  (forall r, recorded r = true -> (In r (reactors s) <-> In r rs)) /\
  health (SetReactors s rs) 63900000000000000000 "60" =
  health s 63900000000000000000 "60".
Proof.
  assert (H : forall r, recorded r = true ->
                (In r [mkReactor 63899999995000000000 0] <->
                 In r [mkReactor 0 0; mkReactor 63899999995000000000 0])).
  { intros r Hr. split.
    - intros [<-|[]]. right. now left.
    - intros [<-|[<-|[]]]; [discriminate Hr|now left]. }
  split; [discriminate|]. split; [discriminate|]. split; [exact H|].
  exact (health_recorded_reactors_only
           (mkHTTPServer [mkReactor 63899999995000000000 0] defaultHttpPort)
           [mkReactor 0 0; mkReactor 63899999995000000000 0]
           63900000000000000000 "60"
           ltac:(discriminate) ltac:(discriminate) H).
Defined.

(** X24.  A larger threshold never turns a healthy answer into an unhealthy
    one, for the same reactors at the same instant. *)
Theorem health_monotone (s : HTTPServer) (now : Z) (seconds seconds' : string) :
  threshold seconds <= threshold seconds' ->
  health s now seconds = ok ->
  health s now seconds' = ok.
Proof.
  intros Hle. rewrite !health_ok.
  intros [Hs [(r & Hin & Hr & Hlt)|Hall]]; (split; [exact Hs|]).
  - left. exists r. split; [exact Hin|]. split; [exact Hr|lia].
  - now right.
Qed.

Lemma health_monotone_witness :
  let s := mkHTTPServer [mkReactor 63899999995000000000 0] defaultHttpPort in
  threshold "60" <= threshold "120" /\
  health s 63900000000000000000 "60" = ok /\
  health s 63900000000000000000 "120" = ok.
Proof.
  split; [vm_compute; discriminate|]. split; [vm_compute; reflexivity|].
  exact (health_monotone
           (mkHTTPServer [mkReactor 63899999995000000000 0] defaultHttpPort)
           63900000000000000000 "60" "120"
           ltac:(vm_compute; discriminate) ltac:(vm_compute; reflexivity)).
Defined.

Lemma Since_nonneg (now t : Z) : t <= now -> 0 <= Go.Since now t.
Proof.
  intros H. unfold Go.Since, Go.Sub.
  destruct (Z.ltb_spec Go.maxDuration (now - t)).
  - unfold Go.maxDuration, Go.maxInt64. lia.
  - destruct (Z.ltb_spec (now - t) Go.minDuration); [|lia].
    unfold Go.minDuration, Go.minInt64 in *. lia.
Qed.

(** X25.  The number of seconds is not monotone in the path parameter: a
    value from 9223372037 to 18446744073 overflows the multiplication by
    [time.Second], the threshold comes out negative, and the answer is
    UNHEALTHY as soon as one reactor has a recorded execution, however
    recently the reactors succeeded (no last success lies in the future). *)
Theorem health_threshold_overflow (s : HTTPServer) (now : Z) (seconds : string) :
  9223372037 <= parsedSeconds seconds <= 18446744073 ->
  (forall r, In r (reactors s) -> GetLastSuccessfullExecution r <= now) ->
  (exists r, In r (reactors s) /\ recorded r = true) ->
  threshold seconds < 0 /\ health s now seconds = ko.
Proof.
  intros Hsec Hpast (r0 & Hin0 & Hrec0).
  assert (Hthr : threshold seconds < 0).
  { unfold threshold, Go.int64_wrap, Go.Second.
    assert (Hmod : (parsedSeconds seconds * 1000000000 + 2 ^ 63) mod 2 ^ 64 =
                   parsedSeconds seconds * 1000000000 + 2 ^ 63 - 2 ^ 64).
    { symmetry. apply (Z.mod_unique _ _ 1); lia. }
    rewrite Hmod. lia. }
  split; [exact Hthr|].
  destruct (health_ok_or_ko s now seconds) as [Hok|Hko]; [|exact Hko].
  exfalso. apply health_ok in Hok.
  destruct Hok as [_ [(r & Hin & _ & Hlt)|Hall]].
  - pose proof (Since_nonneg now _ (Hpast r Hin)). lia.
  - rewrite (Hall r0 Hin0) in Hrec0. discriminate Hrec0.
Qed.

Lemma health_threshold_overflow_witness :
  let s := mkHTTPServer [mkReactor 63899999995000000000 0] defaultHttpPort in
  9223372037 <= parsedSeconds "9223372037" <= 18446744073 /\
  (forall r, In r (reactors s) ->
             GetLastSuccessfullExecution r <= 63900000000000000000) /\
  (exists r, In r (reactors s) /\ recorded r = true) /\
  threshold "9223372037" < 0 /\
  health s 63900000000000000000 "9223372037" = ko.
Proof.
  assert (H1 : 9223372037 <= parsedSeconds "9223372037" <= 18446744073)
    by (vm_compute; split; discriminate).
  assert (H2 : forall r,
             In r [mkReactor 63899999995000000000 0] ->
             GetLastSuccessfullExecution r <= 63900000000000000000).
  { intros r [<-|[]]. vm_compute. discriminate. }
  assert (H3 : exists r, In r [mkReactor 63899999995000000000 0] /\
                         recorded r = true).
  { eexists. split; [now left|reflexivity]. }
  split; [exact H1|]. split; [exact H2|]. split; [exact H3|].
  exact (health_threshold_overflow
           (mkHTTPServer [mkReactor 63899999995000000000 0] defaultHttpPort)
           63900000000000000000 "9223372037" H1 H2 H3).
Defined.

Example health_largest_exact_threshold :
  health (mkHTTPServer [mkReactor 63899999995000000000 0] defaultHttpPort)
    63900000000000000000 "9223372036" = ok.
Proof. vm_compute. reflexivity. Qed.

(** ** [New] *)

(** A value of the configuration map: an [int64], or a value of another
    type. *)
Inductive Value :=
  | VInt64 (z : Z)
  | VOther.

(** The argument of [New], an [interface{}]: a [map[string]interface{}],
    with its entries in the order the [range] visits them, or a value of
    another type. *)
Inductive Config :=
  | ConfigMap (cfg : list (string * Value))
  | ConfigOther.

(** How [New] ends: it returns a server, returns an error, or panics (the
    type assertion [v.(int64)] on a value of another type). *)
Inductive Result :=
  | Returned (s : HTTPServer)
  | Failed (err : string)
  | Panicked.

Definition set_Port (v : Z) (s : HTTPServer) : HTTPServer :=
  mkHTTPServer (reactors s) v.

Section NewServer.

(** [strings.ToLower]. *)
Variable ToLower : string -> string.

(** One round of the loop over the configuration map; [None] is a panic.
    [int] has 64 bits, so [int(v.(int64))] is the value itself. *)
Definition configure (acc : option HTTPServer) (kv : string * Value)
  : option HTTPServer :=
  match acc with
  | None => None
  | Some s =>
      if String.eqb (ToLower (fst kv)) "port" then
        match snd kv with
        | VInt64 v => Some (set_Port v s)
        | VOther => None
        end
      else Some s
  end.

(** [New(icfg)]. *)
Definition New (icfg : Config) : Result :=
  let s := mkHTTPServer [] defaultHttpPort in
  match icfg with
  | ConfigOther => Failed "Can't read the configuration (hint: HTTP Server)"
  | ConfigMap cfg =>
      match fold_left configure cfg (Some s) with
      | Some s => Returned s
      | None => Panicked
      end
  end.

Lemma configure_port_panicked (cfg : list (string * Value)) :
  fold_left configure cfg None = None.
Proof. induction cfg as [|kv cfg IH]; [reflexivity|exact IH]. Qed.

(** A configuration without a port key leaves the port alone. *)
Lemma configure_no_port (cfg : list (string * Value)) : forall s s',
  (forall kv, In kv cfg -> ToLower (fst kv) <> "port") ->
  fold_left configure cfg (Some s) = Some s' ->
  s' = s.
Proof.
  induction cfg as [|kv cfg IH]; intros s s' Hno H; cbn [fold_left] in H.
  - now inversion H.
  - unfold configure at 2 in H.
    destruct (String.eqb_spec (ToLower (fst kv)) "port") as [Hk|Hk].
    + now contradiction (Hno kv (or_introl eq_refl)).
    + apply IH; [|exact H]. intros kv' Hin. apply Hno. now right.
Qed.

(** The loop over the configuration keeps the reactors, and the port it
    leaves is the value of the port key visited last. *)
Lemma configure_server (cfg : list (string * Value)) : forall s s',
  fold_left configure cfg (Some s) = Some s' ->
  reactors s' = reactors s /\
  (forall before k x after,
     cfg = before ++ (k, x) :: after ->
     ToLower k = "port" ->
     (forall kv, In kv after -> ToLower (fst kv) <> "port") ->
     x = VInt64 (Port s')).
Proof.
  induction cfg as [|kv cfg IH]; intros s s' H; cbn [fold_left] in H.
  - inversion H; subst. split; [reflexivity|].
    intros [|? ?] k x after Heq; discriminate Heq.
  - destruct (configure (Some s) kv) as [s1|] eqn:Hc;
      [|now rewrite configure_port_panicked in H].
    assert (Hr1 : reactors s1 = reactors s).
    { unfold configure in Hc. destruct (String.eqb _ "port").
      - destruct (snd kv); [|discriminate Hc]. now inversion Hc.
      - now inversion Hc. }
    destruct (IH _ _ H) as (Hr & Hlast).
    split; [congruence|].
    intros [|kv0 before] k x after Heq Hk Hno; cbn [app] in Heq.
    + inversion Heq; subst kv cfg. clear Heq.
      unfold configure in Hc. cbn [fst snd] in Hc. rewrite Hk in Hc.
      cbn [String.eqb Ascii.eqb Bool.eqb andb] in Hc.
      destruct x as [v|]; [|discriminate Hc]. inversion Hc; subst s1.
      rewrite (configure_no_port after _ _ Hno H). reflexivity.
    + inversion Heq; subst kv0 cfg. clear Heq.
      now apply (Hlast before k x after).
Qed.

(** X26.  A server returned by [New] has no reactor registered, so that its
    health check answers UNHEALTHY to every request until [SetReactors] is
    called.  It listens on the default port 1080 when the configuration has
    no port key (in any letter case); otherwise the value of the port key
    that the loop visits last is an [int64], and the server listens on that
    value. *)
Theorem New_server (cfg : list (string * Value)) (s : HTTPServer) :
  New (ConfigMap cfg) = Returned s ->
  reactors s = [] /\
  (forall now seconds, health s now seconds = ko) /\
  ((forall kv, In kv cfg -> ToLower (fst kv) <> "port") ->
   Port s = defaultHttpPort) /\
  (forall before k x after,
     cfg = before ++ (k, x) :: after ->
     ToLower k = "port" ->
     (forall kv, In kv after -> ToLower (fst kv) <> "port") ->
     x = VInt64 (Port s)).
Proof.
  unfold New.
  destruct (fold_left configure cfg _) as [s1|] eqn:Hc; [|discriminate].
  intros H. inversion H; subst s1. clear H.
  destruct (configure_server cfg _ _ Hc) as (Hr & Hlast).
  cbn [reactors] in Hr.
  split; [exact Hr|].
  split; [intros now seconds; unfold health; now rewrite Hr|].
  split; [|exact Hlast].
  intros Hno. now rewrite (configure_no_port cfg _ _ Hno Hc).
Qed.

End NewServer.

Lemma New_server_witness :
  let cfg := [("port", VInt64 9000); ("name", VOther); ("port", VInt64 8080)] in
  let s := mkHTTPServer [] 8080 in
  New (fun k => k) (ConfigMap cfg) = Returned s /\
  reactors s = [] /\
  (forall now seconds, health s now seconds = ko) /\
  ((forall kv, In kv cfg -> (fun k : string => k) (fst kv) <> "port") ->
   Port s = defaultHttpPort) /\
  (forall before k x after,
     cfg = before ++ (k, x) :: after ->
     (fun k : string => k) k = "port" ->
     (forall kv, In kv after -> (fun k : string => k) (fst kv) <> "port") ->
     x = VInt64 (Port s)).
Proof.
  split; [reflexivity|].
  exact (New_server (fun k => k)
           [("port", VInt64 9000); ("name", VOther); ("port", VInt64 8080)]
           (mkHTTPServer [] 8080) eq_refl).
Defined.

Example New_port_not_int64 :
  New (fun k => k) (ConfigMap [("port", VOther)]) = Panicked.
Proof. reflexivity. Qed.

Example New_not_a_map :
  New (fun k => k) ConfigOther =
  Failed "Can't read the configuration (hint: HTTP Server)".
Proof. reflexivity. Qed.

End Http.
